(** * dotPipe interpreter: a shallow embedding of [src/interpreter.py]

    The development follows the source file top-down: the Python values the
    interpreter manipulates, the tokenizer ([Lexer]), the recursive-descent
    parser ([Parser]), the built-in registry ([Runtime._setup_builtins]) and
    the tree-walking evaluator ([Interpreter]), then the statements proved
    about them.

    Conventions.
    - Source text and string values are 7-bit ASCII; a [string] is the
      sequence of its characters. The character classes and the case maps
      are those of Python on these characters ([is_ascii]); a statement that
      would not hold of other characters says that the text is ASCII.
    - A Python [int] is a [Z]; a Python [float] is an IEEE 754 binary64 value,
      a [spec_float] at precision 53 and maximal exponent 1024. The limit
      CPython puts on the number of digits in conversions between [int] and
      [str] is the one it has when the interpreter starts: 4300 digits.
    - Python lists are mutable and shared: a list value is a reference into a
      heap of lists.
    - A computation either returns, raises an exception or does not return;
      it threads the state it may change. An exception is its class and its
      message; the messages of the exceptions Python itself raises are those
      of CPython 3.11.
    - What the Python library does and is not defined here (the text of a
      float, the built-ins listed at the registry) is a parameter of the
      development: the statements hold whatever it does. *)

From Stdlib Require Import ZArith Ascii String List Bool Lia.
From Stdlib Require Import DecimalString.
From Stdlib Require DecimalPos.
From Stdlib Require Import SpecFloat.
From stdpp Require Import base option list strings gmap.

Set Default Proof Using "Type".
Local Open Scope string_scope.
Local Open Scope Z_scope.

(** ** Python values *)

Module Py.

(** IEEE 754 binary64. *)
Definition float := spec_float.
Definition prec : Z := 53.
Definition emax : Z := 1024.

Definition fzero : float := S754_zero false.
Definition fadd : float -> float -> float := SFadd prec emax.
Definition fsub : float -> float -> float := SFsub prec emax.
Definition fmul : float -> float -> float := SFmul prec emax.
Definition fdiv : float -> float -> float := SFdiv prec emax.

(** Reference to a list object. *)
Definition loc := nat.

(** The values programs compute with: what literals denote and what the
    built-ins modelled below return. *)
Inductive pyvalue :=
| VNone
| VBool (b : bool)
| VInt (z : Z)
| VFloat (f : float)
| VStr (s : string)
| VList (l : loc).

(** The exception classes named in this development; [OtherError] stands for
    any further subclass of [Exception], by its name. *)
Inductive exc_type :=
| NameError
| TypeError
| ValueError
| AttributeError
| OverflowError
| ZeroDivisionError
| EOFError
| OtherError (name : string).

(** An exception object [e]: its class and the text of [str(e)]. *)
Record exn := Exn { etype : exc_type; emsg : string }.

(** The three ways a call can end. *)
Inductive outcome (A : Type) :=
| Return (a : A)
| Raise (e : exn)
| Diverge.
Arguments Return {A} a.
Arguments Raise {A} e.
Arguments Diverge {A}.

Definition raise {A} (t : exc_type) (msg : string) : outcome A :=
  Raise (Exn t msg).

Definition obind {A B} (o : outcome A) (k : A -> outcome B) : outcome B :=
  match o with
  | Return a => k a
  | Raise e => Raise e
  | Diverge => Diverge
  end.

(** [type(v).__name__] *)
Definition type_name (v : pyvalue) : string :=
  match v with
  | VNone => "NoneType"
  | VBool _ => "bool"
  | VInt _ => "int"
  | VFloat _ => "float"
  | VStr _ => "str"
  | VList _ => "list"
  end.

(** *** Numbers *)

(** [float(z)] for an int [z]: rounded to nearest, ties to even;
    [OverflowError] when the result is out of range. *)
Definition float_of_int (z : Z) : outcome float :=
  match binary_normalize prec emax z 0 false with
  | S754_infinity _ => raise OverflowError "int too large to convert to float"
  | f => Return f
  end.

(** The quotient [n / d] of two positive integers, correctly rounded. *)
Definition float_of_quotient (neg : bool) (n d : positive) : float :=
  let '(q, e, l) := SFdiv_core_binary prec emax (Zpos n) 0 (Zpos d) 0 in
  binary_round_aux prec emax neg q e l.

(** [a / b] for ints, [b] non-zero: the correctly rounded quotient. *)
Definition int_truediv (a b : Z) : outcome float :=
  match a, b with
  | _, Z0 => raise ZeroDivisionError "division by zero"
  | Z0, _ => Return (S754_zero (b <? 0))
  | _, _ =>
      match float_of_quotient (xorb (a <? 0) (b <? 0))
                              (Z.to_pos (Z.abs a)) (Z.to_pos (Z.abs b)) with
      | S754_infinity _ =>
          raise OverflowError "integer division result too large for a float"
      | f => Return f
      end
  end.

(** The operands of arithmetic: [bool] is a subclass of [int]. *)
Inductive number :=
| NInt (z : Z)
| NFloat (f : float).

Definition as_number (v : pyvalue) : option number :=
  match v with
  | VBool b => Some (NInt (if b then 1 else 0))
  | VInt z => Some (NInt z)
  | VFloat f => Some (NFloat f)
  | _ => None
  end.

Definition to_float (n : number) : outcome float :=
  match n with
  | NInt z => float_of_int z
  | NFloat f => Return f
  end.

(** A binary operator on numbers: on two ints [fi], otherwise both operands
    are converted to float, left one first, and [ff] applies. *)
Definition arith (fi : Z -> Z -> outcome pyvalue) (ff : float -> float -> outcome pyvalue)
    (x y : number) : outcome pyvalue :=
  match x, y with
  | NInt a, NInt b => fi a b
  | _, _ => obind (to_float x) (fun a => obind (to_float y) (fun b => ff a b))
  end.

Definition unsupported {A} (op : string) (a b : pyvalue) : outcome A :=
  raise TypeError
    ("unsupported operand type(s) for " +:+ op +:+ ": '" +:+ type_name a
       +:+ "' and '" +:+ type_name b +:+ "'").

(** [a + b], [a - b], [a * b] on numbers. *)
Definition num_add : number -> number -> outcome pyvalue :=
  arith (fun a b => Return (VInt (a + b))) (fun a b => Return (VFloat (fadd a b))).
Definition num_sub : number -> number -> outcome pyvalue :=
  arith (fun a b => Return (VInt (a - b))) (fun a b => Return (VFloat (fsub a b))).
Definition num_mul : number -> number -> outcome pyvalue :=
  arith (fun a b => Return (VInt (a * b))) (fun a b => Return (VFloat (fmul a b))).

Definition is_fzero (f : float) : bool :=
  match f with S754_zero _ => true | _ => false end.

(** [a / b] on numbers: true division, always a float. *)
Definition num_truediv : number -> number -> outcome pyvalue :=
  arith (fun a b => obind (int_truediv a b) (fun f => Return (VFloat f)))
        (fun a b => if is_fzero b
                    then raise ZeroDivisionError "float division by zero"
                    else Return (VFloat (fdiv a b))).

(** C's [fmod]: the exact remainder of [x / y], with the sign of [x]. *)
Definition fmod (x y : float) : float :=
  match x, y with
  | S754_nan, _ | _, S754_nan => S754_nan
  | S754_infinity _, _ | _, S754_zero _ => S754_nan
  | _, S754_infinity _ | S754_zero _, _ => x
  | S754_finite sx mx ex, S754_finite _ my ey =>
      let e := Z.min ex ey in
      let r := (Zpos mx * 2 ^ (ex - e)) mod (Zpos my * 2 ^ (ey - e)) in
      binary_normalize prec emax (cond_Zopp sx r) e sx
  end.

Definition fsign (f : float) : bool :=
  match f with
  | S754_zero s | S754_infinity s | S754_finite s _ _ => s
  | S754_nan => false
  end.

(** [f < 0] *)
Definition fneg (f : float) : bool :=
  match f with
  | S754_infinity s | S754_finite s _ _ => s
  | _ => false
  end.

(** [a % b] on floats: the remainder takes the sign of the divisor. *)
Definition float_rem (x y : float) : outcome pyvalue :=
  if is_fzero y then raise ZeroDivisionError "float modulo"
  else
    let m := fmod x y in
    if is_fzero m then Return (VFloat (S754_zero (fsign y)))
    else if xorb (fneg y) (fneg m) then Return (VFloat (fadd m y))
    else Return (VFloat m).

(** [a % b] on numbers; on ints the result has the sign of the divisor. *)
Definition num_mod : number -> number -> outcome pyvalue :=
  arith (fun a b => if b =? 0
                    then raise ZeroDivisionError "integer modulo by zero"
                    else Return (VInt (a mod b)))
        float_rem.

(** [n != 0] *)
Definition num_nonzero (n : number) : bool :=
  match n with
  | NInt z => negb (z =? 0)
  | NFloat f => negb (is_fzero f)
  end.

(** *** Text *)

(** The double quote. *)
Definition dquote : string := String "034"%char "".

(** The decimal text of an int: a minus sign when it is negative, and its
    digits. *)
Definition decimal (z : Z) : string := NilZero.string_of_int (Z.to_int z).

(** [sys.get_int_max_str_digits()]: the most digits a conversion between
    [int] and [str] accepts. *)
Definition int_max_str_digits : nat := 4300.

(** [str(z)] for an int: [ValueError] when [z] has more digits than the
    limit. *)
Definition str_of_int (z : Z) : outcome string :=
  if (int_max_str_digits <? String.length (decimal (Z.abs z)))%nat
  then raise ValueError
         "Exceeds the limit (4300 digits) for integer string conversion; use sys.set_int_max_str_digits() to increase the limit"
  else Return (decimal z).

Definition hex_digit (n : nat) : ascii :=
  nth n (list_ascii_of_string "0123456789abcdef") "0"%char.

Definition contains (c : ascii) (s : string) : bool :=
  existsb (Ascii.eqb c) (list_ascii_of_string s).

(** One character of [repr(s)], [q] being the quote in use. *)
Definition repr_char (q c : ascii) : string :=
  let n := nat_of_ascii c in
  if Ascii.eqb c "\"%char then "\\"
  else if Ascii.eqb c q then String "\"%char (String c "")
  else if (n =? 10)%nat then "\n"
  else if (n =? 13)%nat then "\r"
  else if (n =? 9)%nat then "\t"
  else if ((n <? 32) || (n =? 127))%nat
       then "\x" +:+ String (hex_digit (n / 16)) (String (hex_digit (n mod 16)) "")
  else String c "".

(** [repr(s)] for a str: single quotes, unless [s] has a single quote and no
    double quote. *)
Definition repr_str (s : string) : string :=
  let q := if contains "'"%char s && negb (contains "034"%char s)
           then "034"%char else "'"%char in
  String q (String.concat "" (map (repr_char q) (list_ascii_of_string s)))
    +:+ String q "".

(** *** Character classes ([str.isspace], [str.isdigit], [str.isalpha],
    [str.isalnum] on ASCII) *)

(** The characters of 7-bit ASCII, and the texts made of them. *)
Definition is_ascii (c : ascii) : bool := (nat_of_ascii c <? 128)%nat.

Definition ascii_text (s : string) : bool := forallb is_ascii (list_ascii_of_string s).

(** [str.isspace], [str.isdigit], [str.isalpha] and [str.isalnum] on a
    character of 7-bit ASCII. *)
Definition isspace (c : ascii) : bool :=
  let n := nat_of_ascii c in
  (((9 <=? n) && (n <=? 13)) || ((28 <=? n) && (n <=? 32)))%nat.

Definition isdigit (c : ascii) : bool :=
  let n := nat_of_ascii c in ((48 <=? n) && (n <=? 57))%nat.

Definition isalpha (c : ascii) : bool :=
  let n := nat_of_ascii c in
  (((65 <=? n) && (n <=? 90)) || ((97 <=? n) && (n <=? 122)))%nat.

Definition isalnum (c : ascii) : bool := isalpha c || isdigit c.

(** *** Numeric literals: [int(s)] and [float(s)] *)

(** The blanks [int] and [float] strip from both ends of their argument. *)
Definition is_blank (c : ascii) : bool :=
  let n := nat_of_ascii c in (((9 <=? n) && (n <=? 13)) || (n =? 32))%nat.

Fixpoint drop_while (p : ascii -> bool) (l : list ascii) : list ascii :=
  match l with
  | c :: r => if p c then drop_while p r else l
  | [] => []
  end.

(** [l] without the characters [p] at both ends. *)
Definition strip_by (p : ascii -> bool) (l : list ascii) : list ascii :=
  rev (drop_while p (rev (drop_while p l))).

Definition strip : list ascii -> list ascii := strip_by is_blank.

(** Digit separators: an underscore may only stand between two digits.
    [None] when one is misplaced, else the text without them. *)
Fixpoint remove_underscores (prev : ascii) (l : list ascii) : option (list ascii) :=
  match l with
  | [] => Some []
  | c :: r =>
      if Ascii.eqb c "_"%char then
        if isdigit prev && match r with d :: _ => isdigit d | [] => false end
        then remove_underscores c r else None
      else option_map (cons c) (remove_underscores c r)
  end.

Definition digit_value (c : ascii) : Z := Z.of_nat (nat_of_ascii c) - 48.

(** The number a run of decimal digits denotes. *)
Definition digits_value (l : list ascii) : Z :=
  fold_left (fun acc c => 10 * acc + digit_value c) l 0.

Definition all_digits (l : list ascii) : bool :=
  negb (Nat.eqb (length l) 0) && forallb isdigit l.

(** An optional sign: whether it is a minus, and the rest. *)
Definition split_sign (l : list ascii) : bool * list ascii :=
  match l with
  | c :: r => if Ascii.eqb c "-"%char then (true, r)
              else if Ascii.eqb c "+"%char then (false, r) else (false, l)
  | [] => (false, [])
  end.

(** The longest prefix whose characters satisfy [p], and the rest. *)
Fixpoint span (p : ascii -> bool) (l : list ascii) : list ascii * list ascii :=
  match l with
  | c :: r => if p c then let '(w, t) := span p r in (c :: w, t) else ([], l)
  | [] => ([], [])
  end.

(** What [int(s)] does of a str: it returns an int, or raises [ValueError]
    because [s] is no literal, or because [s] has more digits than the
    limit. *)
Inductive conversion :=
| Converted (z : Z)
| Invalid
| TooLong (digits : nat).

(** [int(s)] for a str [s], in base 10. After the blanks and the sign, the
    digits and underscores are read up to the first other character; the
    underscores are checked, then the number of digits against the limit,
    and then that nothing follows. *)
Definition int_of_str (s : string) : conversion :=
  let '(neg, body) := split_sign (strip (list_ascii_of_string s)) in
  let '(run, rest) := span (fun c => isdigit c || Ascii.eqb c "_"%char) body in
  match remove_underscores " "%char run with
  | None => Invalid
  | Some ds =>
      if (int_max_str_digits <? length ds)%nat then TooLong (length ds)
      else if all_digits ds && Nat.eqb (length rest) 0
           then Converted (cond_Zopp neg (digits_value ds))
           else Invalid
  end.

(** The longest prefix of digits, and the rest. *)
Fixpoint span_digits (l : list ascii) : list ascii * list ascii :=
  match l with
  | c :: r => if isdigit c then let '(ds, t) := span_digits r in (c :: ds, t)
              else ([], l)
  | [] => ([], [])
  end.

(** [str.lower] on a character of 7-bit ASCII. *)
Definition lower (c : ascii) : ascii :=
  let n := nat_of_ascii c in
  if ((65 <=? n) && (n <=? 90))%nat then ascii_of_nat (n + 32) else c.

(** The float nearest to [m * 10^e], ties to even. *)
Definition float_of_decimal (neg : bool) (m e : Z) : float :=
  match m with
  | Zpos p =>
      if 0 <=? e then float_of_quotient neg (p * Z.to_pos (10 ^ e)) 1
      else float_of_quotient neg p (Z.to_pos (10 ^ (- e)))
  | _ => S754_zero neg
  end.

(** The exponent part of a decimal literal: empty, or [e] or [E], an optional
    sign and digits up to the end. *)
Definition exponent_of (l : list ascii) : option Z :=
  match l with
  | [] => Some 0
  | c :: r =>
      if Ascii.eqb (lower c) "e"%char then
        let '(neg, ds) := split_sign r in
        if all_digits ds then Some (cond_Zopp neg (digits_value ds)) else None
      else None
  end.

(** [float(s)] for a str [s]; [None] is [ValueError]. *)
Definition float_of_str (s : string) : option float :=
  match remove_underscores " "%char (strip (list_ascii_of_string s)) with
  | None => None
  | Some l =>
      let '(neg, body) := split_sign l in
      let word := string_of_list_ascii (map lower body) in
      if String.eqb word "inf" || String.eqb word "infinity"
      then Some (S754_infinity neg)
      else if String.eqb word "nan" then Some S754_nan
      else
        let '(ip, r1) := span_digits body in
        let '(fp, r2) :=
          match r1 with
          | c :: r => if Ascii.eqb c "."%char then span_digits r else ([], r1)
          | [] => ([], [])
          end in
        if Nat.eqb (length ip + length fp) 0 then None
        else
          match exponent_of r2 with
          | Some e =>
              Some (float_of_decimal neg (digits_value (ip ++ fp))
                                     (e - Z.of_nat (length fp)))
          | None => None
          end
  end.

End Py.

Import Py.

(** ** Tokenizer ([class Lexer]) *)

Module Lexer.

Inductive token_type :=
| PIPE | VAR_GET | ASSIGN | OBJ_ACCESS | ARR_ACCESS
| SYMBOL | STRING | NUMBER | IDENT | KEYWORD | EOF.

Record Token := mkToken {
  type : token_type;
  value : string;
  line : Z;
  col : Z
}.

(** The fields of a [Lexer]: [source[pos:]] stands for [source] and [pos]. *)
Record state := mkState {
  source : list ascii;
  cur_line : Z;
  cur_col : Z;
  tokens : list Token
}.

Definition len (l : list ascii) : Z := Z.of_nat (length l).
Definition str (l : list ascii) : string := string_of_list_ascii l.

(** [c in s] for a character. *)
Definition char_in (c : ascii) (s : string) : bool := contains c s.

(** The characters read by a loop [while pos < len(source) and p(source[pos])],
    and what is left. *)
Fixpoint read_while (p : ascii -> bool) (l : list ascii) : list ascii * list ascii :=
  match l with
  | c :: r => if p c then let '(w, t) := read_while p r in (c :: w, t) else ([], l)
  | [] => ([], [])
  end.

Fixpoint _skip_whitespace (src : list ascii) (ln cl : Z) : list ascii * Z * Z :=
  match src with
  | c :: r =>
      if isspace c then
        if Ascii.eqb c "010"%char then _skip_whitespace r (ln + 1) 1
        else _skip_whitespace r ln (cl + 1)
      else (src, ln, cl)
  | [] => (src, ln, cl)
  end.

Definition name_char (extra : string) (c : ascii) : bool :=
  isalnum c || char_in c extra.

Definition emit (st : state) (src : list ascii) (cl : Z) (ts : list Token) : state :=
  mkState src (cur_line st) cl (tokens st ++ ts).

(** The readers below run with [source[pos]] being the character that
    selected them: [rest] is [source[pos+1:]]. *)

Definition _read_pipe (st : state) (rest : list ascii) : state :=
  let '(func_name, src) := read_while (name_char "_-") rest in
  let cl := cur_col st + 1 + len func_name in
  emit st src cl [mkToken PIPE (str func_name) (cur_line st) (cl - len func_name - 1)].

(** [_read_variable] and [_read_assign]: the marker, then the name if any. *)
Definition read_marked (marker : token_type) (st : state) (rest : list ascii) : state :=
  let '(var_name, src) := read_while (name_char "_") rest in
  let cl := cur_col st + 1 + len var_name in
  emit st src cl
    (mkToken marker "" (cur_line st) (cur_col st)
     :: match var_name with
        | [] => []
        | _ => [mkToken IDENT (str var_name) (cur_line st) (cl - len var_name)]
        end).

Definition _read_variable := read_marked VAR_GET.
Definition _read_assign := read_marked ASSIGN.

(** [_read_object_access] and [_read_array_access]: the marker, a name, then
    after a dot a second part made of the characters [p], of type [t]. *)
Definition read_access (marker : token_type) (p : ascii -> bool) (t : token_type)
    (st : state) (rest : list ascii) : state :=
  let '(name, src) := read_while (name_char "_") rest in
  let cl := cur_col st + 1 + len name in
  let st1 :=
    emit st src cl
      (mkToken marker "" (cur_line st) (cur_col st)
       :: match name with
          | [] => []
          | _ => [mkToken IDENT (str name) (cur_line st) (cl - len name)]
          end) in
  match src with
  | c :: after_dot =>
      if Ascii.eqb c "."%char then
        let '(part, src2) := read_while p after_dot in
        let cl2 := cl + 1 + len part in
        emit st1 src2 cl2
          match part with
          | [] => []
          | _ => [mkToken t (str part) (cur_line st) (cl2 - len part)]
          end
      else st1
  | [] => st1
  end.

Definition _read_object_access := read_access OBJ_ACCESS (name_char "_") IDENT.
Definition _read_array_access := read_access ARR_ACCESS isdigit NUMBER.

Definition unescape (c : ascii) : ascii :=
  if Ascii.eqb c "n"%char then "010"%char
  else if Ascii.eqb c "t"%char then "009"%char
  else if Ascii.eqb c "r"%char then "013"%char
  else c.

(** The body of a string literal up to the closing quote: the value read, the
    number of characters consumed (the closing quote included when there is
    one) and what is left. *)
Fixpoint read_string_body (quote : ascii) (src : list ascii) : list ascii * Z * list ascii :=
  match src with
  | [] => ([], 0, [])
  | c :: r =>
      if Ascii.eqb c quote then ([], 1, r)
      else
        match r with
        | e :: r' =>
            if Ascii.eqb c "\"%char then
              let '(v, n, t) := read_string_body quote r' in (unescape e :: v, n + 2, t)
            else
              let '(v, n, t) := read_string_body quote r in (c :: v, n + 1, t)
        | [] => ([c], 1, [])
        end
  end.

Definition _read_string (st : state) (quote : ascii) (rest : list ascii) : state :=
  let '(v, n, src) := read_string_body quote rest in
  let cl := cur_col st + 1 + n in
  emit st src cl [mkToken STRING (str v) (cur_line st) (cl - len v)].

(** [_read_number] and [_read_identifier] start at [source[pos]] itself. *)
Definition _read_number (st : state) : state :=
  let '(v, src) := read_while (fun c => isdigit c || Ascii.eqb c "."%char) (source st) in
  let cl := cur_col st + len v in
  emit st src cl [mkToken NUMBER (str v) (cur_line st) (cl - len v)].

Definition is_keyword (s : string) : bool :=
  String.eqb s "true" || String.eqb s "false" || String.eqb s "null".

Definition _read_identifier (st : state) : state :=
  let '(v, src) := read_while (name_char "_-") (source st) in
  let cl := cur_col st + len v in
  emit st src cl
    [mkToken (if is_keyword (str v) then KEYWORD else IDENT) (str v) (cur_line st)
             (cl - len v)].

(** One turn of the loop of [tokenize]; [None] when the loop is left. *)
Definition step (st0 : state) : option state :=
  let '(src, ln, cl) := _skip_whitespace (source st0) (cur_line st0) (cur_col st0) in
  let st := mkState src ln cl (tokens st0) in
  match src with
  | [] => None
  | char :: rest =>
      Some
        (if Ascii.eqb char "|"%char then _read_pipe st rest
         else if Ascii.eqb char "!"%char then _read_variable st rest
         else if Ascii.eqb char "&"%char then _read_assign st rest
         else if Ascii.eqb char "@"%char then _read_object_access st rest
         else if Ascii.eqb char "#"%char then _read_array_access st rest
         else if char_in char "{}[]():,-" then
           emit st rest (cl + 1) [mkToken SYMBOL (str [char]) ln cl]
         else if Ascii.eqb char "034"%char then _read_string st char rest
         else if isdigit char then _read_number st
         else if isalpha char then _read_identifier st
         else emit st rest (cl + 1) [])
  end.

(** The loop of [tokenize], for at most [fuel] turns. *)
Fixpoint loop (fuel : nat) (st : state) : state :=
  match fuel with
  | O => st
  | S fuel' =>
      match step st with
      | Some st' => loop fuel' st'
      | None =>
          let '(src, ln, cl) := _skip_whitespace (source st) (cur_line st) (cur_col st) in
          mkState src ln cl (tokens st)
      end
  end.

(** [Lexer(source).tokenize()]: every turn of the loop reads at least one
    character, so [length source] turns are enough (see [tokenize_complete]). *)
Definition tokenize (source : string) : list Token :=
  let src := list_ascii_of_string source in
  let st := loop (S (length src)) (mkState src 1 1 []) in
  tokens st ++ [mkToken EOF "" (cur_line st) (cur_col st)].

End Lexer.

(** ** Syntax tree ([class ASTNode] and its four subclasses) *)

#[local] Unset Elimination Schemes.
Inductive ASTNode :=
| LiteralNode (value : pyvalue)
| VariableNode (name : string)
| PipeNode (func_name : string) (args : list ASTNode)
| AssignNode (var_name : string) (value : ASTNode).
#[local] Set Elimination Schemes.

(** ** Parser ([class Parser]) *)

Module Parser.
Import Lexer.

(** The fields of a [Parser] are [tokens] and [pos]; the functions below take
    [tokens[pos:]], the tokens from the current one on, and return what is
    left. Past the last token [current()] is an [EOF] token and [advance()]
    changes nothing that can be observed. *)
Definition current (ts : list Token) : Token :=
  match ts with
  | t :: _ => t
  | [] => mkToken EOF "" 0 0
  end.

Definition advance (ts : list Token) : list Token := tl ts.

Definition is_type (ts : list Token) (k : token_type) : bool :=
  match type (current ts), k with
  | PIPE, PIPE | VAR_GET, VAR_GET | ASSIGN, ASSIGN | OBJ_ACCESS, OBJ_ACCESS
  | ARR_ACCESS, ARR_ACCESS | SYMBOL, SYMBOL | STRING, STRING | NUMBER, NUMBER
  | IDENT, IDENT | KEYWORD, KEYWORD | EOF, EOF => true
  | _, _ => false
  end.

Definition _is_at_end (ts : list Token) : bool := is_type ts EOF.

(** [float(s) if '.' in s else int(s)] *)
Definition number_value (s : string) : outcome pyvalue :=
  if contains "."%char s then
    match float_of_str s with
    | Some f => Return (VFloat f)
    | None => raise ValueError ("could not convert string to float: " +:+ repr_str s)
    end
  else
    match int_of_str s with
    | Converted z => Return (VInt z)
    | Invalid =>
        raise ValueError ("invalid literal for int() with base 10: " +:+ repr_str s)
    | TooLong digits =>
        raise ValueError
          ("Exceeds the limit (4300 digits) for integer string conversion: value has "
             +:+ decimal (Z.of_nat digits)
             +:+ " digits; use sys.set_int_max_str_digits() to increase the limit")
    end.

(** [-val] for the number [val] of a literal. *)
Definition negate (v : pyvalue) : pyvalue :=
  match v with
  | VInt z => VInt (- z)
  | VFloat f => VFloat (SFopp f)
  | _ => v
  end.

(** What a parsing function yields: a node and the tokens left. *)
Definition parsed (A : Type) : Type := outcome (A * list Token).

Definition _parse_variable (ts : list Token) : parsed ASTNode :=
  let ts := advance ts in
  let name := value (current ts) in
  Return (VariableNode name, advance ts).

(** The recursive functions take a bound on the depth of their calls and do
    not return when it is exceeded; [parse] provides enough of it. *)
Fixpoint _parse_expression (fuel : nat) (ts : list Token) : parsed ASTNode :=
  match fuel with
  | O => Diverge
  | S fuel =>
      let token := current ts in
      match type token with
      | STRING => Return (LiteralNode (VStr (value token)), advance ts)
      | NUMBER =>
          obind (number_value (value token)) (fun val =>
          Return (LiteralNode val, advance ts))
      | KEYWORD =>
          Return (LiteralNode
                    (if String.eqb (value token) "true" then VBool true
                     else if String.eqb (value token) "false" then VBool false
                     else VNone),
                  advance ts)
      | VAR_GET => _parse_variable ts
      | PIPE => _parse_pipe fuel ts
      | IDENT => Return (LiteralNode (VStr (value token)), advance ts)
      | _ =>
          if is_type ts SYMBOL && String.eqb (value token) "-" then
            let ts := advance ts in
            let next_token := current ts in
            if is_type ts NUMBER then
              obind (number_value (value next_token)) (fun val =>
              Return (LiteralNode (negate val), advance ts))
            else Return (LiteralNode (VInt (-1)), ts)
          else Return (LiteralNode VNone, advance ts)
      end
  end

with _parse_pipe (fuel : nat) (ts : list Token) : parsed ASTNode :=
  match fuel with
  | O => Diverge
  | S fuel =>
      let func_name := value (current ts) in
      obind (_parse_pipe_args fuel (advance ts) []) (fun '(args, ts) =>
      Return (PipeNode func_name args, ts))
  end

(** The [while] loop of [_parse_pipe]. *)
with _parse_pipe_args (fuel : nat) (ts : list Token) (args : list ASTNode)
    : parsed (list ASTNode) :=
  match fuel with
  | O => Diverge
  | S fuel =>
      if negb (_is_at_end ts)
         && negb (is_type ts PIPE || is_type ts ASSIGN || is_type ts VAR_GET
                  || is_type ts EOF)
      then
        if String.eqb (value (current ts)) ":" then
          _parse_pipe_args fuel (advance ts) args
        else
          obind (_parse_expression fuel ts) (fun '(arg, ts) =>
          _parse_pipe_args fuel ts (args ++ [arg]))
      else Return (args, ts)
  end.

Definition _parse_assign (fuel : nat) (ts : list Token) : parsed ASTNode :=
  let ts := advance ts in
  let var_name := value (current ts) in
  let ts := advance ts in
  let ts := if String.eqb (value (current ts)) ":" then advance ts else ts in
  obind (_parse_expression fuel ts) (fun '(val, ts) =>
  Return (AssignNode var_name val, ts)).

(** The [while] loop of [parse]. *)
Fixpoint parse_loop (fuel : nat) (ts : list Token) (nodes : list ASTNode)
    : outcome (list ASTNode) :=
  match fuel with
  | O => Diverge
  | S fuel =>
      if _is_at_end ts then Return nodes
      else
        obind (if is_type ts PIPE then _parse_pipe fuel ts
               else if is_type ts ASSIGN then _parse_assign fuel ts
               else if is_type ts VAR_GET then _parse_variable ts
               else _parse_expression fuel ts)
              (fun '(node, ts) => parse_loop fuel ts (nodes ++ [node]))
  end.

(** [Parser(tokens).parse()] *)
Definition parse (tokens : list Token) : outcome (list ASTNode) :=
  parse_loop (length tokens + 8) tokens [].

End Parser.

(** ** Computations *)

(** The part of the Python process a program can change: the list objects,
    the text written to standard output, the lines standard input still
    holds, and the state the Python library keeps to itself (that of the
    random generator), under some encoding. *)
Record world := mkWorld {
  heap : list (list pyvalue);
  stdout : list string;
  stdin : list string;
  host_state : N
}.

(** A computation over a state [S]. *)
Definition comp (S A : Type) : Type := S -> outcome A * S.

Definition ret {S A} (a : A) : comp S A := fun s => (Return a, s).

Definition bind {S A B} (c : comp S A) (k : A -> comp S B) : comp S B :=
  fun s =>
    match c s with
    | (Return a, s') => k a s'
    | (Raise e, s') => (Raise e, s')
    | (Diverge, s') => (Diverge, s')
    end.

Definition lift {S A} (o : outcome A) : comp S A := fun s => (o, s).

Definition throw {S A} (t : exc_type) (msg : string) : comp S A :=
  lift (raise t msg).

Notation "'let!' x ':=' c 'in' k" := (bind c (fun x => k))
  (at level 10, x name, c at level 100, k at level 200).

(** [[f(x) for x in l]], left to right. *)
Fixpoint mapM {S A B} (f : A -> comp S B) (l : list A) : comp S (list B) :=
  match l with
  | [] => ret []
  | x :: r => let! y := f x in let! ys := mapM f r in ret (y :: ys)
  end.

(** [acc = f(acc, x)] for each [x] of [l], left to right. *)
Fixpoint foldM {S A B} (f : B -> A -> comp S B) (acc : B) (l : list A) : comp S B :=
  match l with
  | [] => ret acc
  | x :: r => let! acc' := f acc x in foldM f acc' r
  end.

(** *** Lists on the heap *)

Definition deref (w : world) (l : loc) : list pyvalue := default [] (heap w !! l).

Definition set_heap (h : list (list pyvalue)) (w : world) : world :=
  mkWorld h (stdout w) (stdin w) (host_state w).

(** A new list object. *)
Definition alloc (xs : list pyvalue) : comp world pyvalue :=
  fun w => (Return (VList (length (heap w))), set_heap (heap w ++ [xs]) w).

(** The list at [l] becomes [xs]. *)
Definition store (l : loc) (xs : list pyvalue) : comp world unit :=
  fun w => (Return tt, set_heap (<[l := xs]> (heap w)) w).

(** The world once [text] is written to standard output. *)
Definition written (text : string) (w : world) : world :=
  mkWorld (heap w) (stdout w ++ [text]) (stdin w) (host_state w).

(** [sys.stdout.write(s)] *)
Definition write (s : string) : comp world unit := fun w => (Return tt, written s w).

(** [s] and the end of the line. *)
Definition endl (s : string) : string := s +:+ String "010"%char "".

(** [print(s)] *)
Definition print (s : string) : comp world unit := write (endl s).

(** [bool(v)] *)
Definition truthy (w : world) (v : pyvalue) : bool :=
  match v with
  | VNone => false
  | VBool b => b
  | VInt z => negb (z =? 0)
  | VFloat f => negb (is_fzero f)
  | VStr s => negb (String.eqb s "")
  | VList l => negb (Nat.eqb (length (deref w l)) 0)
  end.

Definition is_true (v : pyvalue) : comp world bool := fun w => (Return (truthy w v), w).

(** ** Built-in functions ([class Runtime]) *)

(** What the Python library does where this development does not define it:
    - [Repeat]: [a * b], one operand a str or a list, the other an int;
    - [Format]: [a % b] for a str [a];
    - [Builtin name]: the function the registry holds under [name]. *)
Inductive host_op :=
| Repeat
| Format
| Builtin (name : string).

(** A callable of the registry, applied to its evaluated arguments. *)
Definition callable : Type := list pyvalue -> comp world pyvalue.

Module Runtime.

Section Host.

(** [str(v)] for a float or a list [v]. *)
Variable host_str : world -> pyvalue -> outcome string.

Variable host_call : host_op -> callable.

(** [str(v)] *)
Definition py_str (v : pyvalue) : comp world string :=
  match v with
  | VNone => ret "None"
  | VBool b => ret (if b then "True" else "False")
  | VInt z => lift (str_of_int z)
  | VStr s => ret s
  | VFloat _ | VList _ => fun w => (host_str w v, w)
  end.

Definition is_seq (v : pyvalue) : bool :=
  match v with VStr _ | VList _ => true | _ => false end.

Definition is_int (v : pyvalue) : bool :=
  match v with VBool _ | VInt _ => true | _ => false end.

(** [a + b] *)
Definition py_add (a b : pyvalue) : comp world pyvalue :=
  match as_number a, as_number b with
  | Some x, Some y => lift (num_add x y)
  | _, _ =>
      match a, b with
      | VStr s, VStr t => ret (VStr (s +:+ t))
      | VList l, VList m => fun w => alloc (deref w l ++ deref w m) w
      | VStr _, _ | VList _, _ =>
          throw TypeError
            ("can only concatenate " +:+ type_name a +:+ " (not " +:+ dquote
               +:+ type_name b +:+ dquote +:+ ") to " +:+ type_name a)
      | _, _ => lift (unsupported "+" a b)
      end
  end.

(** [a - b] *)
Definition py_sub (a b : pyvalue) : comp world pyvalue :=
  match as_number a, as_number b with
  | Some x, Some y => lift (num_sub x y)
  | _, _ => lift (unsupported "-" a b)
  end.

Definition not_by_int {A} (v : pyvalue) : comp world A :=
  throw TypeError
    ("can't multiply sequence by non-int of type '" +:+ type_name v +:+ "'").

(** [a * b] *)
Definition py_mul (a b : pyvalue) : comp world pyvalue :=
  match as_number a, as_number b with
  | Some x, Some y => lift (num_mul x y)
  | _, _ =>
      if is_seq a then if is_int b then host_call Repeat [a; b] else not_by_int b
      else if is_seq b then if is_int a then host_call Repeat [a; b] else not_by_int a
      else lift (unsupported "*" a b)
  end.

(** [a / b] *)
Definition py_truediv (a b : pyvalue) : comp world pyvalue :=
  match as_number a, as_number b with
  | Some x, Some y => lift (num_truediv x y)
  | _, _ => lift (unsupported "/" a b)
  end.

(** [a % b] *)
Definition py_mod (a b : pyvalue) : comp world pyvalue :=
  match as_number a, as_number b with
  | Some x, Some y => lift (num_mod x y)
  | _, _ =>
      match a with
      | VStr _ => host_call Format [a; b]
      | _ => lift (unsupported "%" a b)
      end
  end.

(** [b != 0] *)
Definition ne_zero (b : pyvalue) : bool :=
  match as_number b with
  | Some y => num_nonzero y
  | None => true
  end.

(** *** Calls with a wrong number of arguments *)

Definition quoted (s : string) : string := "'" +:+ s +:+ "'".

Fixpoint and_names (l : list string) : string :=
  match l with
  | [] => ""
  | [a] => "and " +:+ quoted a
  | a :: r => quoted a +:+ ", " +:+ and_names r
  end.

Definition missing_names (l : list string) : string :=
  match l with
  | [a] => quoted a
  | [a; b] => quoted a +:+ " and " +:+ quoted b
  | _ => and_names l
  end.

Definition str_of_nat (n : nat) : string := decimal (Z.of_nat n).

(** The [TypeError] of a call of [name] with [given] arguments, when that is
    fewer than the [required] parameters or more than those and the
    [optional] ones; [self] counts the instance of a bound method. *)
Definition arity_error (name : string) (self : nat) (required optional : list string)
    (given : nat) : exn :=
  let lo := length required in
  let hi := (lo + length optional)%nat in
  Exn TypeError
    (name +:+ "() " +:+
     if (given <? lo)%nat then
       let missing := drop given required in
       "missing " +:+ str_of_nat (length missing) +:+ " required positional argument"
         +:+ (if Nat.eqb (length missing) 1 then "" else "s") +:+ ": "
         +:+ missing_names missing
     else
       "takes " +:+
       (match optional with
        | [] => str_of_nat (lo + self) +:+ " positional argument"
                  +:+ (if Nat.eqb (lo + self) 1 then "" else "s")
        | _ => "from " +:+ str_of_nat (lo + self) +:+ " to " +:+ str_of_nat (hi + self)
                  +:+ " positional arguments"
        end)
       +:+ " but " +:+ str_of_nat (given + self)
       +:+ (if Nat.eqb (given + self) 1 then " was given" else " were given")).

(** A function of the parameters [required] and [optional]: [body] runs when
    the number of arguments fits. *)
Definition def (name : string) (self : nat) (required optional : list string)
    (body : callable) : callable :=
  fun args =>
    let n := length args in
    if ((length required <=? n) && (n <=? length required + length optional))%nat
    then body args
    else lift (Raise (arity_error name self required optional n)).

(** [lambda required..., optional...=None: body] inside [_setup_builtins]. *)
Definition lambda := def "Runtime._setup_builtins.<locals>.<lambda>" 0.

(** A method [def name(self, required..., optional...=...)] of [Runtime]. *)
Definition method (name : string) := def ("Runtime." +:+ name) 1.

Definition no_attribute {A} (v : pyvalue) (attr : string) : comp world A :=
  throw AttributeError
    ("'" +:+ type_name v +:+ "' object has no attribute '" +:+ attr +:+ "'").

(** *** The functions of the registry *)

Definition _builtin_log : callable :=
  fun args =>
    let! texts := mapM py_str args in
    let! _ := print (String.concat " " texts) in
    ret VNone.

Definition _builtin_input : callable :=
  method "_builtin_input" [] ["prompt"] (fun args =>
    let! prompt := py_str (nth 0 args (VStr "")) in
    let! _ := write prompt in
    fun w =>
      match stdin w with
      | l :: rest => (Return (VStr l), mkWorld (heap w) (stdout w) rest (host_state w))
      | [] => (raise EOFError "EOF when reading a line", w)
      end).

Definition _builtin_if : callable :=
  method "_builtin_if" ["condition"; "true_branch"] ["false_branch"] (fun args =>
    let! c := is_true (nth 0 args VNone) in
    if c then ret (nth 1 args VNone) else ret (nth 2 args VNone)).

Definition _builtin_for : callable :=
  method "_builtin_for" ["iterable"; "func"] [] (fun args =>
    fun w =>
      let iterable := nth 0 args VNone in
      let items := match iterable with VList l => deref w l | _ => [iterable] end in
      alloc (map (fun _ => VNone) items) w).

Definition _builtin_while : callable :=
  method "_builtin_while" ["condition_func"; "body_func"] [] (fun args =>
    let! c := is_true (nth 0 args VNone) in
    if c then lift Diverge else ret VNone).

(** [sum(args)]: the sum from [0] on, left to right. (From CPython 3.12 on a
    sum of floats is compensated for rounding errors; on up to two terms the
    result is the same.) *)
Definition builtin_add : callable := foldM py_add (VInt 0).

Definition builtin_sub : callable :=
  lambda ["a"; "b"] [] (fun args => py_sub (nth 0 args VNone) (nth 1 args VNone)).

(** [math.prod(args) if args else 0]: the product from [1] on. *)
Definition builtin_mul : callable :=
  fun args => match args with [] => ret (VInt 0) | _ => foldM py_mul (VInt 1) args end.

Definition builtin_div : callable :=
  lambda ["a"; "b"] [] (fun args =>
    let a := nth 0 args VNone in
    let b := nth 1 args VNone in
    if ne_zero b then py_truediv a b else ret (VInt 0)).

Definition builtin_mod : callable :=
  lambda ["a"; "b"] [] (fun args =>
    let a := nth 0 args VNone in
    let b := nth 1 args VNone in
    if ne_zero b then py_mod a b else ret (VInt 0)).

Definition builtin_abs : callable :=
  lambda ["a"] [] (fun args =>
    let a := nth 0 args VNone in
    match as_number a with
    | Some (NInt z) => ret (VInt (Z.abs z))
    | Some (NFloat f) => ret (VFloat (SFabs f))
    | None => throw TypeError ("bad operand type for abs(): '" +:+ type_name a +:+ "'")
    end).

(** [math.sqrt(a)] *)
Definition builtin_sqrt : callable :=
  lambda ["a"] [] (fun args =>
    let a := nth 0 args VNone in
    match as_number a with
    | Some x =>
        let! f := lift (to_float x) in
        if fneg f then throw ValueError "math domain error"
        else ret (VFloat (SFsqrt prec emax f))
    | None => throw TypeError ("must be real number, not " +:+ type_name a)
    end).

(** [''.join(str(a) for a in args)] *)
Definition builtin_concat : callable :=
  fun args => let! texts := mapM py_str args in ret (VStr (String.concat "" texts)).

(** [str.upper] on a character of 7-bit ASCII. *)
Definition upper (c : ascii) : ascii :=
  let n := nat_of_ascii c in
  if ((97 <=? n) && (n <=? 122))%nat then ascii_of_nat (n - 32) else c.

Definition map_str (f : ascii -> ascii) (s : string) : string :=
  string_of_list_ascii (map f (list_ascii_of_string s)).

Definition builtin_uppercase : callable :=
  lambda ["s"] [] (fun args =>
    let! s := py_str (nth 0 args VNone) in ret (VStr (map_str upper s))).

Definition builtin_lowercase : callable :=
  lambda ["s"] [] (fun args =>
    let! s := py_str (nth 0 args VNone) in ret (VStr (map_str lower s))).

(** [s.strip()] *)
Definition str_strip (s : string) : string :=
  string_of_list_ascii (strip_by isspace (list_ascii_of_string s)).

Definition builtin_trim : callable :=
  lambda ["s"] [] (fun args =>
    let! s := py_str (nth 0 args VNone) in ret (VStr (str_strip s))).

Definition builtin_length : callable :=
  lambda ["s"] [] (fun args =>
    let s := nth 0 args VNone in
    match s with
    | VStr t => ret (VInt (Z.of_nat (String.length t)))
    | VList l => fun w => (Return (VInt (Z.of_nat (length (deref w l)))), w)
    | _ => throw TypeError ("object of type '" +:+ type_name s +:+ "' has no len()")
    end).

(** [arr.append(val) or arr] *)
Definition builtin_push : callable :=
  lambda ["arr"; "val"] [] (fun args =>
    let arr := nth 0 args VNone in
    let val := nth 1 args VNone in
    match arr with
    | VList l => fun w => (Return arr, snd (store l (deref w l ++ [val]) w))
    | _ => no_attribute arr "append"
    end).

(** [arr.pop() if arr else None] *)
Definition builtin_pop : callable :=
  lambda ["arr"] [] (fun args =>
    let arr := nth 0 args VNone in
    let! nonempty := is_true arr in
    if nonempty then
      match arr with
      | VList l => fun w =>
          let xs := deref w l in
          (Return (List.last xs VNone), snd (store l (removelast xs) w))
      | _ => no_attribute arr "pop"
      end
    else ret VNone).

(** [arr.pop(0) if arr else None] *)
Definition builtin_shift : callable :=
  lambda ["arr"] [] (fun args =>
    let arr := nth 0 args VNone in
    let! nonempty := is_true arr in
    if nonempty then
      match arr with
      | VList l => fun w =>
          let xs := deref w l in
          (Return (hd VNone xs), snd (store l (tl xs) w))
      | _ => no_attribute arr "pop"
      end
    else ret VNone).

(** [arr.insert(0, val) or arr] *)
Definition builtin_unshift : callable :=
  lambda ["arr"; "val"] [] (fun args =>
    let arr := nth 0 args VNone in
    let val := nth 1 args VNone in
    match arr with
    | VList l => fun w => (Return arr, snd (store l (val :: deref w l) w))
    | _ => no_attribute arr "insert"
    end).

(** [arr[::-1]] *)
Definition builtin_reverse : callable :=
  lambda ["arr"] [] (fun args =>
    let arr := nth 0 args VNone in
    match arr with
    | VStr s => ret (VStr (string_of_list_ascii (rev (list_ascii_of_string s))))
    | VList l => fun w => alloc (rev (deref w l)) w
    | _ => throw TypeError ("'" +:+ type_name arr +:+ "' object is not subscriptable")
    end).

(** No value is a dict: [isinstance(obj, dict)] is false. *)
Definition builtin_keys : callable := lambda ["obj"] [] (fun _ => alloc []).
Definition builtin_values : callable := lambda ["obj"] [] (fun _ => alloc []).
Definition builtin_get : callable := lambda ["obj"; "key"] [] (fun _ => ret VNone).
Definition builtin_set : callable :=
  lambda ["obj"; "key"; "val"] [] (fun args => ret (nth 0 args VNone)).

Definition builtin_typeof : callable :=
  lambda ["val"] [] (fun args => ret (VStr (type_name (nth 0 args VNone)))).

Definition builtin_tostring : callable :=
  lambda ["val"] [] (fun args => let! s := py_str (nth 0 args VNone) in ret (VStr s)).

(** [float(val) if isinstance(val, str) else val] *)
Definition builtin_tonumber : callable :=
  lambda ["val"] [] (fun args =>
    let val := nth 0 args VNone in
    match val with
    | VStr s =>
        match float_of_str s with
        | Some f => ret (VFloat f)
        | None => throw ValueError ("could not convert string to float: " +:+ repr_str s)
        end
    | _ => ret val
    end).

Definition builtin_tobool : callable :=
  lambda ["val"] [] (fun args => let! b := is_true (nth 0 args VNone) in ret (VBool b)).

Definition builtin_isnull : callable :=
  lambda ["val"] [] (fun args =>
    ret (VBool match nth 0 args VNone with VNone => true | _ => false end)).

(** [all(args)], [any(args)], [not a] *)
Definition builtin_and : callable :=
  fun args w => (Return (VBool (forallb (truthy w) args)), w).
Definition builtin_or : callable :=
  fun args w => (Return (VBool (existsb (truthy w) args)), w).
Definition builtin_not : callable :=
  lambda ["a"] [] (fun args => let! b := is_true (nth 0 args VNone) in ret (VBool (negb b))).

(** [Runtime._setup_builtins]: the registry, in the order of the source. The
    functions left to the host are those on power and rounding, extrema and
    comparisons, random numbers, splitting, joining and slicing, sorting, and
    those taking a function. *)
Definition built_in_functions : list (string * callable) :=
  [ ("log", _builtin_log); ("print", _builtin_log); ("input", _builtin_input);
    ("add", builtin_add); ("sub", builtin_sub); ("mul", builtin_mul);
    ("div", builtin_div); ("mod", builtin_mod); ("abs", builtin_abs);
    ("sqrt", builtin_sqrt); ("pow", host_call (Builtin "pow"));
    ("round", host_call (Builtin "round")); ("floor", host_call (Builtin "floor"));
    ("ceil", host_call (Builtin "ceil")); ("max", host_call (Builtin "max"));
    ("min", host_call (Builtin "min")); ("random", host_call (Builtin "random"));
    ("concat", builtin_concat); ("uppercase", builtin_uppercase);
    ("lowercase", builtin_lowercase); ("split", host_call (Builtin "split"));
    ("join", host_call (Builtin "join")); ("length", builtin_length);
    ("substring", host_call (Builtin "substring")); ("trim", builtin_trim);
    ("replace", host_call (Builtin "replace"));
    ("push", builtin_push); ("pop", builtin_pop); ("shift", builtin_shift);
    ("unshift", builtin_unshift); ("slice", host_call (Builtin "slice"));
    ("reverse", builtin_reverse); ("sort", host_call (Builtin "sort"));
    ("map", host_call (Builtin "map")); ("filter", host_call (Builtin "filter"));
    ("find", host_call (Builtin "find")); ("some", host_call (Builtin "some"));
    ("every", host_call (Builtin "every"));
    ("keys", builtin_keys); ("values", builtin_values); ("get", builtin_get);
    ("set", builtin_set);
    ("typeof", builtin_typeof); ("tostring", builtin_tostring);
    ("tonumber", builtin_tonumber); ("tobool", builtin_tobool);
    ("isnull", builtin_isnull);
    ("eq", host_call (Builtin "eq")); ("ne", host_call (Builtin "ne"));
    ("gt", host_call (Builtin "gt")); ("lt", host_call (Builtin "lt"));
    ("gte", host_call (Builtin "gte")); ("lte", host_call (Builtin "lte"));
    ("and", builtin_and); ("or", builtin_or); ("not", builtin_not);
    ("if", _builtin_if); ("for", _builtin_for); ("while", _builtin_while) ].

(** [d.get(name)] for a dict given by its items. *)
Fixpoint assoc {A} (name : string) (d : list (string * A)) : option A :=
  match d with
  | [] => None
  | (k, v) :: r => if String.eqb k name then Some v else assoc name r
  end.

End Host.

(** The fields of a [Runtime] that are read or written: the two variable
    mappings and the table of user-defined functions. ([ui_components] and
    [event_handlers] are never used; [built_in_functions] is never written.) *)
Record Runtime := mkRuntime {
  globals : gmap string pyvalue;
  locals : gmap string pyvalue;
  functions : gmap string callable
}.

(** [Runtime()] *)
Definition new_runtime : Runtime := mkRuntime ∅ ∅ ∅.

End Runtime.

(** ** Evaluator ([class Interpreter]) *)

Module Interpreter.
Import Runtime.

Section Host.

Variable host_str : world -> pyvalue -> outcome string.
Variable host_call : host_op -> callable.

(** What evaluation acts on: the interpreter's runtime and the world. *)
Record state := mkIState {
  runtime : Runtime;
  the_world : world
}.

(** A computation on the world, run by the interpreter. *)
Definition in_world {A} (c : comp world A) : comp state A :=
  fun s => let '(o, w) := c (the_world s) in (o, mkIState (runtime s) w).

(** The state once [v] is stored under [name] in [locals]. *)
Definition assigned (name : string) (v : pyvalue) (s : state) : state :=
  let rt := runtime s in
  mkIState (mkRuntime (globals rt) (<[name := v]> (locals rt)) (functions rt))
           (the_world s).

(** [self.runtime.locals[name] = v] *)
Definition set_local (name : string) (v : pyvalue) : comp state unit :=
  fun s => (Return tt, assigned name v s).

Definition visit_literal (value : pyvalue) : comp state pyvalue := ret value.

Definition visit_variable (name : string) : comp state pyvalue :=
  fun s =>
    match locals (runtime s) !! name with
    | Some v => (Return v, s)
    | None =>
        match globals (runtime s) !! name with
        | Some v => (Return v, s)
        | None => (Return VNone, s)
        end
    end.

(** The function a call names: a built-in, else a user-defined one. *)
Definition find_function (rt : Runtime) (func_name : string) : option callable :=
  match assoc func_name (built_in_functions host_str host_call) with
  | Some func => Some func
  | None => functions rt !! func_name
  end.

(** The call of [func] on [args], in a [try] whose [except TypeError as e]
    raises another [TypeError], of message [Error calling {func_name}: {e}]. *)
Definition call_function (func_name : string) (func : callable) (args : list pyvalue)
    : comp state pyvalue :=
  fun s =>
    match in_world (func args) s with
    | (Raise (Exn TypeError e), s') =>
        (raise TypeError ("Error calling " +:+ func_name +:+ ": " +:+ e), s')
    | r => r
    end.

(** [node.accept(self)]: the four [visit_] methods. *)
Fixpoint visit (node : ASTNode) : comp state pyvalue :=
  match node with
  | LiteralNode value => visit_literal value
  | VariableNode name => visit_variable name
  | AssignNode var_name value =>
      let! v := visit value in
      let! _ := set_local var_name v in
      ret v
  | PipeNode func_name args =>
      fun s =>
        match find_function (runtime s) func_name with
        | Some func =>
            (let! vals := mapM visit args in
             call_function func_name func vals) s
        | None => (raise NameError ("Function not found: " +:+ func_name), s)
        end
  end.

Definition visit_assign (var_name : string) (value : ASTNode) : comp state pyvalue :=
  visit (AssignNode var_name value).

Definition visit_pipe (func_name : string) (args : list ASTNode) : comp state pyvalue :=
  visit (PipeNode func_name args).

(** [Interpreter.execute]: the value of the last node, [None] if there is none. *)
Definition execute (nodes : list ASTNode) : comp state pyvalue :=
  foldM (fun _ node => visit node) VNone nodes.

End Host.

End Interpreter.

(** ** Main program *)

Module Main.
Import Runtime Interpreter.

Section Host.

Variable host_str : world -> pyvalue -> outcome string.
Variable host_call : host_op -> callable.

(** The body of the [try] of [interpret]: a new [Interpreter] on the tokens
    of [source] parses them and executes the nodes. *)
Definition run (source : string) : comp world pyvalue :=
  fun w =>
    let tokens := Lexer.tokenize source in
    match Parser.parse tokens with
    | Return ast =>
        let '(o, s) := execute host_str host_call ast (mkIState new_runtime w) in
        (o, the_world s)
    | Raise e => (Raise e, w)
    | Diverge => (Diverge, w)
    end.

(** [interpret(source)]: [except Exception as e] prints [e] and returns
    [None]. *)
Definition interpret (source : string) : comp world pyvalue :=
  fun w =>
    match run source w with
    | (Raise e, w') => (let! _ := print ("Error: " +:+ emsg e) in ret VNone) w'
    | r => r
    end.

End Host.

End Main.

Import Runtime Interpreter Main.

(** A host whose every operation raises: enough to run the programs that
    reach none of them. *)
Definition no_host_str : world -> pyvalue -> outcome string :=
  fun _ _ => raise (OtherError "NotImplementedError") "".

Definition no_host_call : host_op -> callable :=
  fun _ _ => throw (OtherError "NotImplementedError") "".

(** The world a program starts in when nothing was written and no input is
    waiting. *)
Definition empty_world : world := mkWorld [] [] [] 0.

Definition initial_state : state := mkIState new_runtime empty_world.

(** ** Notions the statements use *)

Module Notions.
Import Lexer Parser.

(** A [NUMBER] token whose text [int] or [float] accepts; any token of
    another type. *)
Definition well_formed (t : Token) : bool :=
  match type t with
  | NUMBER => match number_value (value t) with Return _ => true | _ => false end
  | _ => true
  end.

(** What a parsing function may yield on [ts], whose tokens from the second
    on are [rest]: a node and a suffix of [rest]; or, when a token of [ts] is
    not well formed, a [ValueError]. *)
Definition yields {A} (ts rest : list Token) (r : parsed A) : Prop :=
  match r with
  | Return (_, ts') => ts' `suffix_of` rest
  | Raise e => etype e = ValueError /\ forallb well_formed ts = false
  | Diverge => False
  end.

(** What [parse] may yield on [ts]: the nodes, or a [ValueError] when a token
    is not well formed. *)
Definition parses (ts : list Token) (r : outcome (list ASTNode)) : Prop :=
  match r with
  | Return _ => True
  | Raise e => etype e = ValueError /\ forallb well_formed ts = false
  | Diverge => False
  end.

(** Digits, no more of them than a conversion to [int] accepts; or digits, a
    dot and digits, however many: the texts of the [NUMBER] tokens of the
    tokenizer that [int] and [float] convert. *)
Definition numeral (s : string) : bool :=
  let '(ip, r) := span_digits (list_ascii_of_string s) in
  negb (Nat.eqb (length ip) 0)
  && match r with
     | [] => (length ip <=? int_max_str_digits)%nat
     | c :: fp => Ascii.eqb c "."%char && forallb isdigit fp
     end.

(** A token that is no [NUMBER], or whose text is a numeral. *)
Definition plain_number (t : Token) : bool :=
  match type t with
  | NUMBER => numeral (value t)
  | _ => true
  end.

(** The tokens that are no expression: [_parse_expression] steps over one and
    yields the literal [None]. *)
Definition no_expression (t : Token) : bool :=
  match type t with
  | ASSIGN | OBJ_ACCESS | ARR_ACCESS | EOF => true
  | SYMBOL => negb (String.eqb (value t) "-")
  | _ => false
  end.

End Notions.

Import Notions.

(** The call [|log:"text"]. *)
Definition logging (text : string) : ASTNode :=
  PipeNode "log" [LiteralNode (VStr text)].

(** The state once each of [texts] is printed, in order. *)
Definition printed (texts : list string) (s : state) : state :=
  mkIState (runtime s) (fold_left (fun w t => written (endl t) w) texts (the_world s)).

(** [s'] has the globals and the user-defined functions of [s]. *)
Definition same_tables (s s' : state) : Prop :=
  globals (runtime s') = globals (runtime s)
  /\ functions (runtime s') = functions (runtime s).

(** A float of binary64: its mantissa and exponent are in range. *)
Definition valid (n : number) : Prop :=
  match n with
  | NInt _ => True
  | NFloat f => valid_binary prec emax f = true
  end.

(** Two results that are equal, or are both a float zero. *)
Definition same_number (r1 r2 : outcome pyvalue) : Prop :=
  r1 = r2
  \/ exists s1 s2, r1 = Return (VFloat (S754_zero s1))
                   /\ r2 = Return (VFloat (S754_zero s2)).

(** The float [1.0]. *)
Definition fone : float := S754_finite false 4503599627370496 (-52).

(** ** Notions of the further properties *)

Module LexerNotions.
Import Lexer.

(** The text of a [NUMBER] token read from [src]: digits and dots, one at
    least, that follow one another in [src]. *)
Definition number_of (src : list ascii) (t : Token) : Prop :=
  type t = NUMBER ->
  exists pre v post,
    value t = str v /\ v <> [] /\ src = (pre ++ v ++ post)%list
    /\ forallb (fun c => isdigit c || Ascii.eqb c ".") v = true.

(** What a turn of the loop adds: tokens that are no [EOF], on the line the
    tokenizer is at, and no more of them than characters read; what is left
    to read is the end of what was. *)
Definition emits (st st' : state) (new : list Token) : Prop :=
  tokens st' = (tokens st ++ new)%list
  /\ Forall (fun t => type t <> EOF /\ line t = cur_line st'
                      /\ number_of (source st) t) new
  /\ (length new + length (source st') <= length (source st))%nat
  /\ source st' `suffix_of` source st.

(** Tokens in the order of their lines. *)
Definition ascending (ts : list Token) : Prop :=
  forall i j t u, (i <= j)%nat -> ts !! i = Some t -> ts !! j = Some u ->
    line t <= line u.

(** What the parser reads of a token. *)
Definition kind (t : Token) : token_type * string := (type t, value t).

(** The tokens of [:a1:...:an], each [a] a run of digits. *)
Definition integer_arguments (dss : list (list ascii)) : list (token_type * string) :=
  flat_map (fun ds => [(SYMBOL, ":"); (NUMBER, str ds)]) dss.

End LexerNotions.

(** No more than [n] digits in a row in [l], which [k] digits precede. *)
Fixpoint digit_runs_within (n k : nat) (l : list ascii) : bool :=
  match l with
  | [] => true
  | c :: r =>
      if isdigit c then (S k <=? n)%nat && digit_runs_within n (S k) r
      else digit_runs_within n 0 r
  end.

(** A run of digits that [int] converts: one digit at least, and no more
    than the limit on conversions allows. *)
Definition int_digits (ds : list ascii) : bool :=
  all_digits ds && (length ds <=? int_max_str_digits)%nat.

(** A literal node. *)
Definition is_literal (node : ASTNode) : bool :=
  match node with LiteralNode _ => true | _ => false end.

(** An expression as [_parse_expression] builds them: a literal, a variable,
    or a call whose arguments are literals. *)
Definition flat_expression (node : ASTNode) : bool :=
  match node with
  | LiteralNode _ | VariableNode _ => true
  | PipeNode _ args => forallb is_literal args
  | AssignNode _ _ => false
  end.

(** A statement as [parse] builds them: such an expression, or its
    assignment to a variable. *)
Definition flat_statement (node : ASTNode) : bool :=
  match node with
  | AssignNode _ value => flat_expression value
  | _ => flat_expression node
  end.

(** A node in which nothing is called. *)
Fixpoint call_free (node : ASTNode) : bool :=
  match node with
  | LiteralNode _ | VariableNode _ => true
  | AssignNode _ value => call_free value
  | PipeNode _ _ => false
  end.

(** A call that changes nothing and returns, or raises [OverflowError]. *)
Definition at_worst_overflow (w : world) (r : outcome pyvalue * world) : Prop :=
  snd r = w
  /\ match fst r with
     | Return _ => True
     | Raise e => etype e = OverflowError
     | Diverge => False
     end.

(** * Properties *)

(** Induction on syntax trees: in the case of a call the property holds of
    every argument. *)
Lemma ASTNode_ind (P : ASTNode -> Prop) :
  (forall value, P (LiteralNode value)) ->
  (forall name, P (VariableNode name)) ->
  (forall func_name args, Forall P args -> P (PipeNode func_name args)) ->
  (forall var_name value, P value -> P (AssignNode var_name value)) ->
  forall node, P node.
Proof.
  intros Hlit Hvar Hpipe Hassign.
  fix IH 1.
  intros [v | n | f args | x v].
  - apply Hlit.
  - apply Hvar.
  - apply Hpipe. induction args as [| a args IHargs]; constructor.
    + apply IH.
    + exact IHargs.
  - apply Hassign, IH.
Qed.

(** ** The tokenizer *)

Module LexerFacts.
Import Lexer.

Lemma read_while_length (p : ascii -> bool) (l : list ascii) :
  (length (snd (read_while p l)) <= length l)%nat.
Proof.
  induction l as [| c r IH]; cbn; [lia |].
  destruct (p c); [| cbn; lia].
  destruct (read_while p r) as [w t]. cbn in *. lia.
Qed.

Lemma read_while_first (p : ascii -> bool) (c : ascii) (r : list ascii) :
  p c = true -> (length (snd (read_while p (c :: r))) <= length r)%nat.
Proof.
  intros H. cbn. rewrite H. pose proof (read_while_length p r) as Hr.
  now destruct (read_while p r).
Qed.

Lemma skip_whitespace_length (src : list ascii) (ln cl : Z) :
  (length (fst (fst (_skip_whitespace src ln cl))) <= length src)%nat.
Proof.
  revert ln cl. induction src as [| c r IH]; intros ln cl; cbn; [lia |].
  destruct (isspace c); [| cbn; lia].
  destruct (Ascii.eqb c "010"); [specialize (IH (ln + 1) 1) | specialize (IH ln (cl + 1))];
    lia.
Qed.

Lemma read_string_body_length (quote : ascii) (n : nat) :
  forall src, (length src <= n)%nat ->
    (length (snd (read_string_body quote src)) <= length src)%nat.
Proof.
  induction n as [| n IH]; intros src Hn.
  - destruct src; [cbn; lia | cbn in Hn; lia].
  - destruct src as [| c r]; [cbn; lia |].
    cbn [read_string_body]. destruct (Ascii.eqb c quote); [cbn; lia |].
    destruct r as [| e r']; [cbn; lia |].
    cbn [length] in Hn.
    destruct (Ascii.eqb c "\").
    + specialize (IH r' ltac:(lia)).
      destruct (read_string_body quote r') as [[v k] t]. cbn in *. lia.
    + specialize (IH (e :: r') ltac:(cbn; lia)).
      destruct (read_string_body quote (e :: r')) as [[v k] t]. cbn in *. lia.
Qed.

Lemma read_marked_length marker st rest :
  (length (source (read_marked marker st rest)) <= length rest)%nat.
Proof.
  unfold read_marked. pose proof (read_while_length (name_char "_") rest) as H.
  destruct (read_while (name_char "_") rest) as [name src]. exact H.
Qed.

Lemma read_access_length marker p t st rest :
  (length (source (read_access marker p t st rest)) <= length rest)%nat.
Proof.
  unfold read_access. pose proof (read_while_length (name_char "_") rest) as H.
  destruct (read_while (name_char "_") rest) as [name src]. cbn in H.
  destruct src as [| c after_dot]; [exact H |].
  destruct (Ascii.eqb c "."); [| exact H].
  pose proof (read_while_length p after_dot) as H2.
  destruct (read_while p after_dot) as [part src2]. cbn in *. lia.
Qed.

(** Every turn of the loop of [tokenize] reads at least one character. *)
Lemma step_reads (st st' : state) :
  step st = Some st' -> (length (source st') < length (source st))%nat.
Proof.
  unfold step.
  pose proof (skip_whitespace_length (source st) (cur_line st) (cur_col st)) as Hs.
  destruct (_skip_whitespace (source st) (cur_line st) (cur_col st)) as [[src ln] cl].
  cbn in Hs. destruct src as [| char rest]; [discriminate |].
  cbn [length] in Hs. intros [= <-].
  apply Nat.le_lt_trans with (length rest); [| lia].
  destruct (Ascii.eqb char "|").
  { unfold _read_pipe. pose proof (read_while_length (name_char "_-") rest) as H.
    now destruct (read_while (name_char "_-") rest). }
  destruct (Ascii.eqb char "!"); [apply read_marked_length |].
  destruct (Ascii.eqb char "&"); [apply read_marked_length |].
  destruct (Ascii.eqb char "@"); [apply read_access_length |].
  destruct (Ascii.eqb char "#"); [apply read_access_length |].
  destruct (char_in char "{}[]():,-"); [cbn; lia |].
  destruct (Ascii.eqb char "034").
  { unfold _read_string.
    pose proof (read_string_body_length char (length rest) rest (le_n _)) as H.
    now destruct (read_string_body char rest) as [[v k] t]. }
  destruct (isdigit char) eqn:Hd.
  { unfold _read_number. cbn [source].
    pose proof (read_while_first (fun c => isdigit c || Ascii.eqb c ".") char rest) as H.
    cbn beta in H. rewrite Hd in H. specialize (H eq_refl).
    now destruct (read_while _ (char :: rest)). }
  destruct (isalpha char) eqn:Ha; [| cbn; lia].
  unfold _read_identifier. cbn [source].
  pose proof (read_while_first (name_char "_-") char rest) as H.
  unfold name_char, isalnum in H. rewrite Ha in H. specialize (H eq_refl).
  now destruct (read_while _ (char :: rest)).
Qed.

Lemma step_none (st : state) :
  step st = None ->
  fst (fst (_skip_whitespace (source st) (cur_line st) (cur_col st))) = [].
Proof.
  unfold step.
  destruct (_skip_whitespace (source st) (cur_line st) (cur_col st)) as [[src ln] cl].
  now destruct src.
Qed.

(** The loop of [tokenize] stops because the source is exhausted: more turns
    than the source has characters are never needed, and further ones change
    nothing. *)
Lemma loop_exhausts (fuel : nat) :
  forall st, (length (source st) < fuel)%nat ->
    source (loop fuel st) = [] /\ forall more, loop (fuel + more) st = loop fuel st.
Proof.
  induction fuel as [| fuel IH]; intros st Hfuel; [lia |].
  cbn [loop Nat.add].
  destruct (step st) as [st' |] eqn:Hstep.
  - apply IH. apply step_reads in Hstep. lia.
  - apply step_none in Hstep. split; [| reflexivity].
    destruct (_skip_whitespace (source st) (cur_line st) (cur_col st)) as [[src ln] cl].
    exact Hstep.
Qed.

Lemma tokenize_complete (text : string) :
  let src := list_ascii_of_string text in
  source (loop (S (length src)) (mkState src 1 1 [])) = [].
Proof. cbn zeta. apply loop_exhausts. cbn. lia. Qed.

End LexerFacts.

(** ** Numerals *)

Module NumeralFacts.
Import Parser.

Lemma span_digits_spec (l : list ascii) :
  l = (fst (span_digits l) ++ snd (span_digits l))%list
  /\ forallb isdigit (fst (span_digits l)) = true
  /\ match snd (span_digits l) with c :: _ => isdigit c = false | [] => True end.
Proof.
  induction l as [| c r (IH1 & IH2 & IH3)]; cbn; [easy |].
  destruct (isdigit c) eqn:E; cbn; [| easy].
  destruct (span_digits r) as [ds t]. cbn in *. rewrite E.
  repeat split; [congruence | exact IH2 | exact IH3].
Qed.

Lemma span_digits_all (l : list ascii) :
  forallb isdigit l = true -> span_digits l = (l, []).
Proof.
  induction l as [| c r IH]; cbn; [easy |].
  intros [Hc Hr]%andb_true_iff. rewrite Hc, (IH Hr). reflexivity.
Qed.

Lemma span_digits_app (ds t : list ascii) :
  forallb isdigit ds = true ->
  match t with c :: _ => isdigit c = false | [] => True end ->
  span_digits (ds ++ t) = (ds, t).
Proof.
  intros Hds Ht. induction ds as [| c r IH]; cbn.
  - destruct t as [| c t]; [easy |]. cbn. now rewrite Ht.
  - cbn in Hds. apply andb_true_iff in Hds as [Hc Hr]. now rewrite Hc, (IH Hr).
Qed.

(** What a digit is not. *)
Lemma digit_facts (c : ascii) :
  isdigit c = true ->
  is_blank c = false /\ Ascii.eqb c "_" = false /\ Ascii.eqb c "-" = false
  /\ Ascii.eqb c "+" = false /\ Ascii.eqb c "." = false /\ lower c = c
  /\ Ascii.eqb c "i" = false /\ Ascii.eqb c "n" = false.
Proof.
  destruct c as [[|] [|] [|] [|] [|] [|] [|] [|]]; cbn; try discriminate; easy.
Qed.

Lemma drop_while_none (p : ascii -> bool) (l : list ascii) :
  Forall (fun c => p c = false) l -> drop_while p l = l.
Proof. destruct 1 as [| c r Hc _]; cbn; [easy | now rewrite Hc]. Qed.

Lemma strip_by_none (p : ascii -> bool) (l : list ascii) :
  Forall (fun c => p c = false) l -> strip_by p l = l.
Proof.
  intros H. unfold strip_by. rewrite (drop_while_none p l H).
  rewrite drop_while_none; [apply rev_involutive | now apply List.Forall_rev].
Qed.

Lemma remove_underscores_none (prev : ascii) (l : list ascii) :
  Forall (fun c => Ascii.eqb c "_" = false) l -> remove_underscores prev l = Some l.
Proof.
  intros H. revert prev. induction H as [| c r Hc _ IH]; intros prev; cbn; [easy |].
  now rewrite Hc, IH.
Qed.

Lemma dot_facts : is_blank "." = false /\ Ascii.eqb "." "_" = false.
Proof. now split. Qed.

Lemma numeral_chars (ds fp : list ascii) :
  forallb isdigit ds = true -> forallb isdigit fp = true ->
  Forall (fun c => is_blank c = false) (ds ++ "."%char :: fp)
  /\ Forall (fun c => Ascii.eqb c "_" = false) (ds ++ "."%char :: fp).
Proof.
  intros Hds Hfp.
  assert (H : forall l, forallb isdigit l = true ->
            Forall (fun c => is_blank c = false /\ Ascii.eqb c "_" = false) l).
  { intros l Hl. apply List.Forall_forall. intros c Hc.
    rewrite List.forallb_forall in Hl. specialize (Hl c Hc).
    now destruct (digit_facts c Hl) as (? & ? & _). }
  split; apply Forall_app; split; try constructor; try easy;
    eapply Forall_impl; try apply H; eauto; now intros c [? ?].
Qed.

Lemma digits_chars (ds : list ascii) :
  forallb isdigit ds = true ->
  Forall (fun c => is_blank c = false) ds
  /\ Forall (fun c => Ascii.eqb c "_" = false) ds
  /\ existsb (Ascii.eqb ".") ds = false.
Proof.
  intros H. rewrite List.forallb_forall in H.
  repeat split; try (apply List.Forall_forall; intros c Hc;
                     now destruct (digit_facts c (H c Hc)) as (? & ? & _)).
  apply not_true_is_false. intros (c & Hc & Hd)%existsb_exists.
  apply Ascii.eqb_eq in Hd. subst c.
  now destruct (digit_facts _ (H _ Hc)) as (_ & _ & _ & _ & ? & _).
Qed.

Lemma digit_starts_no_word (d : ascii) (rest : string) :
  isdigit d = true ->
  String.eqb (String d rest) "inf" || String.eqb (String d rest) "infinity" = false
  /\ String.eqb (String d rest) "nan" = false.
Proof.
  destruct d as [[|] [|] [|] [|] [|] [|] [|] [|]]; cbn; try discriminate; easy.
Qed.

Lemma span_all (p : ascii -> bool) (l : list ascii) :
  forallb p l = true -> span p l = (l, []).
Proof.
  induction l as [| c r IH]; cbn; [easy |].
  intros [Hc Hr]%andb_true_iff. rewrite Hc, (IH Hr). reflexivity.
Qed.

(** [int] of a run of digits: the number they denote, unless they are more
    than the limit allows. *)
Lemma int_of_digits (ds : list ascii) :
  ds <> [] -> forallb isdigit ds = true ->
  int_of_str (string_of_list_ascii ds)
    = if (int_max_str_digits <? length ds)%nat then TooLong (length ds)
      else Converted (digits_value ds).
Proof.
  intros Hne Hds. destruct ds as [| d ds]; [easy |].
  assert (Hd : isdigit d = true) by (cbn in Hds; now apply andb_true_iff in Hds).
  destruct (digit_facts d Hd) as (_ & _ & Hm & Hp & _).
  destruct (digits_chars _ Hds) as (Hb & Hu & _).
  unfold int_of_str. rewrite list_ascii_of_string_of_list_ascii.
  unfold strip. rewrite (strip_by_none _ _ Hb).
  cbn [split_sign]. rewrite Hm, Hp.
  rewrite (span_all _ (d :: ds)).
  - rewrite (remove_underscores_none _ _ Hu).
    destruct (int_max_str_digits <? length (d :: ds))%nat; [reflexivity |].
    unfold all_digits. now rewrite Hds.
  - rewrite List.forallb_forall in Hds |- *. intros c Hc. now rewrite (Hds c Hc).
Qed.

Lemma numeral_value (s : string) :
  numeral s = true -> exists v, number_value s = Return v.
Proof.
  unfold numeral, number_value, contains.
  set (l := list_ascii_of_string s).
  destruct (span_digits_spec l) as (Hl & Hip & _).
  destruct (span_digits l) as [ip r]. cbn [fst snd] in *.
  intros [Hne Hr]%andb_true_iff. apply negb_true_iff, Nat.eqb_neq in Hne.
  destruct ip as [| d ip]; [easy |]. clear Hne.
  assert (Hd : isdigit d = true) by (cbn in Hip; now apply andb_true_iff in Hip).
  destruct (digit_facts d Hd) as (_ & _ & Hm & Hp & _ & Hlow & Hi & Hn).
  destruct r as [| c fp].
  - rewrite app_nil_r in Hl.
    destruct (digits_chars _ Hip) as (Hb & Hu & Hdot).
    rewrite Hl, Hdot.
    rewrite <- (string_of_list_ascii_of_string s). fold l. rewrite Hl.
    rewrite (int_of_digits (d :: ip)) by easy.
    apply Nat.leb_le in Hr.
    replace (int_max_str_digits <? length (d :: ip))%nat with false
      by (symmetry; apply Nat.ltb_ge; exact Hr).
    eauto.
  - apply andb_true_iff in Hr as [Hc Hfp]. apply Ascii.eqb_eq in Hc. subst c.
    destruct (numeral_chars _ _ Hip Hfp) as (Hb & Hu).
    assert (Hdot : existsb (Ascii.eqb ".") l = true).
    { rewrite Hl, existsb_app. cbn. apply orb_true_r. }
    rewrite Hdot. unfold float_of_str. fold l. rewrite Hl.
    unfold strip. rewrite (strip_by_none _ _ Hb), (remove_underscores_none _ _ Hu).
    cbn [app split_sign]. rewrite Hm, Hp.
    cbn [map string_of_list_ascii]. rewrite Hlow.
    destruct (digit_starts_no_word d
                (string_of_list_ascii (map lower (ip ++ "."%char :: fp))) Hd)
      as [-> ->].
    change (d :: (ip ++ "."%char :: fp)%list) with ((d :: ip) ++ "."%char :: fp)%list.
    rewrite (span_digits_app (d :: ip) ("."%char :: fp) Hip eq_refl).
    rewrite Ascii.eqb_refl, (span_digits_all fp Hfp).
    cbn [exponent_of length Nat.add Nat.eqb]. eauto.
Qed.

End NumeralFacts.

(** ** The parser *)

Module ParserFacts.
Import Lexer Parser.

Lemma number_value_cases (s : string) :
  (exists v, number_value s = Return v)
  \/ (exists msg, number_value s = Raise (Exn ValueError msg)).
Proof.
  unfold number_value.
  destruct (contains "."%char s);
    [destruct (float_of_str s) | destruct (int_of_str s)]; eauto.
Qed.

Lemma suffix_advance (ts : list Token) : advance ts `suffix_of` ts.
Proof. destruct ts; [reflexivity | apply suffix_cons_r; reflexivity]. Qed.

Lemma suffix_advance_mono (ts' ts : list Token) :
  ts' `suffix_of` ts -> advance ts' `suffix_of` ts.
Proof. intros H. etrans; [apply suffix_advance | exact H]. Qed.

Lemma forallb_suffix (ts' ts : list Token) :
  ts' `suffix_of` ts -> forallb well_formed ts' = false ->
  forallb well_formed ts = false.
Proof.
  intros [k ->] H. rewrite forallb_app, H. apply andb_false_r.
Qed.

Lemma ill_formed_current (ts : list Token) :
  well_formed (current ts) = false -> forallb well_formed ts = false.
Proof. destruct ts as [| t r]; cbn; [discriminate | now intros ->]. Qed.

Lemma yields_weaken {A} (ts1 rest1 ts2 rest2 : list Token) (r : parsed A) :
  ts1 `suffix_of` ts2 -> rest1 `suffix_of` rest2 ->
  yields ts1 rest1 r -> yields ts2 rest2 r.
Proof.
  intros H1 H2. destruct r as [[a ts'] | e |]; cbn; [| | easy].
  - intros H. etrans; eauto.
  - intros [He Hf]. split; [exact He | eapply forallb_suffix; eauto].
Qed.

(** The literal a [NUMBER] token denotes, negated when [neg]. *)
Lemma number_literal_yields (neg : bool) (ts0 ts : list Token) :
  ts `suffix_of` ts0 -> type (current ts) = NUMBER ->
  yields ts0 (advance ts)
    (obind (number_value (value (current ts))) (fun val =>
       Return (LiteralNode (if neg then negate val else val), advance ts))).
Proof.
  intros Hs Ht.
  destruct (number_value_cases (value (current ts))) as [[v Hv] | [msg Hv]];
    rewrite Hv; cbn.
  - reflexivity.
  - split; [reflexivity |].
    eapply forallb_suffix; [exact Hs |]. apply ill_formed_current.
    unfold well_formed. now rewrite Ht, Hv.
Qed.

Lemma parse_variable_yields (ts : list Token) :
  yields ts (advance ts) (_parse_variable ts).
Proof. cbn. apply suffix_advance. Qed.

(** An expression that does not start with a [PIPE] token is parsed without
    a recursive call. *)
Lemma parse_expression_atom (fuel : nat) (ts : list Token) :
  is_type ts PIPE = false ->
  yields ts (advance ts) (_parse_expression (S fuel) ts).
Proof.
  intros Hp. cbn [_parse_expression].
  destruct (type (current ts)) eqn:Ht;
    try (cbn; reflexivity).
  - unfold is_type in Hp. now rewrite Ht in Hp.
  - apply parse_variable_yields.
  - unfold is_type. rewrite Ht. cbn [andb]. cbn. reflexivity.
  - unfold is_type. rewrite Ht. cbn [andb]. cbn. reflexivity.
  - unfold is_type. rewrite Ht. cbn [andb]. cbn. reflexivity.
  - unfold is_type at 1. rewrite Ht. cbn [andb].
    destruct (String.eqb (value (current ts)) "-"); [| cbn; reflexivity].
    destruct (is_type (advance ts) NUMBER) eqn:Hn; [| cbn; reflexivity].
    eapply yields_weaken;
      [apply suffix_advance | apply suffix_advance
      | apply (number_literal_yields true (advance ts) (advance ts))].
    + reflexivity.
    + unfold is_type in Hn. now destruct (type (current (advance ts))).
  - pose proof (number_literal_yields false ts ts) as H.
    cbn [negate] in H. apply H; [reflexivity | exact Ht].
  - unfold is_type. rewrite Ht. cbn [andb]. cbn. reflexivity.
Qed.

Lemma not_at_end_cons (ts : list Token) :
  _is_at_end ts = false -> exists t rest, ts = t :: rest.
Proof. destruct ts as [| t rest]; [discriminate | eauto]. Qed.

Lemma suffix_length_advance (ts' ts : list Token) :
  ts' `suffix_of` advance ts -> ts <> [] -> (length ts' < length ts)%nat.
Proof.
  intros H Hne. apply suffix_length in H.
  destruct ts; [congruence | cbn in *; lia].
Qed.

Lemma obind_yields {A B} (ts0 rest0 : list Token) (r : parsed A)
    (k : A * list Token -> parsed B) (ts rest : list Token) :
  yields ts rest r -> ts `suffix_of` ts0 ->
  (forall a ts', ts' `suffix_of` rest -> yields ts0 rest0 (k (a, ts'))) ->
  yields ts0 rest0 (obind r k).
Proof.
  intros Hr Hs Hk. destruct r as [[a ts'] | e |]; cbn in *; [| | easy].
  - now apply Hk.
  - destruct Hr as [He Hf]. split; [exact He | eapply forallb_suffix; eauto].
Qed.

(** The loop of [_parse_pipe] ends within [length ts + 2] turns. *)
Lemma parse_pipe_args_yields (fuel : nat) :
  forall ts args, (length ts + 2 <= fuel)%nat ->
    yields ts ts (_parse_pipe_args fuel ts args).
Proof.
  induction fuel as [| fuel IH]; intros ts args Hfuel; [lia |].
  cbn [_parse_pipe_args].
  destruct (negb (_is_at_end ts) && _) eqn:Hloop; [| cbn; reflexivity].
  apply andb_true_iff in Hloop as [Hend Hstop].
  apply negb_true_iff in Hend, Hstop.
  destruct (not_at_end_cons ts Hend) as (t & rest & ->).
  cbn [length] in Hfuel.
  destruct (String.eqb (value (current (t :: rest))) ":").
  - eapply yields_weaken; [apply suffix_advance | apply suffix_advance | apply IH].
    cbn. lia.
  - destruct fuel as [| fuel']; [lia |].
    eapply obind_yields; [apply parse_expression_atom | reflexivity |].
    + now repeat (apply orb_false_iff in Hstop as [Hstop _]).
    + intros arg ts' Hs.
      eapply yields_weaken; [| | apply (IH ts')].
      * etrans; [exact Hs | apply suffix_advance].
      * etrans; [exact Hs | apply suffix_advance].
      * apply suffix_length in Hs. cbn in Hs. lia.
Qed.

Lemma parse_pipe_yields (fuel : nat) (ts : list Token) :
  (length ts + 3 <= fuel)%nat -> yields ts (advance ts) (_parse_pipe fuel ts).
Proof.
  intros Hfuel. destruct fuel as [| fuel]; [lia |].
  cbn [_parse_pipe].
  eapply obind_yields;
    [apply (parse_pipe_args_yields fuel (advance ts)) | apply suffix_advance |].
  - pose proof (suffix_length _ _ (suffix_advance ts)). lia.
  - intros args ts' Hs. cbn. exact Hs.
Qed.

Lemma parse_expression_yields (fuel : nat) (ts : list Token) :
  (length ts + 4 <= fuel)%nat -> yields ts (advance ts) (_parse_expression fuel ts).
Proof.
  intros Hfuel. destruct fuel as [| fuel]; [lia |].
  destruct (is_type ts PIPE) eqn:Hp; [| now apply parse_expression_atom].
  cbn [_parse_expression].
  unfold is_type in Hp. destruct (type (current ts)); try discriminate.
  apply parse_pipe_yields. lia.
Qed.

Lemma parse_assign_yields (fuel : nat) (ts : list Token) :
  (length ts + 4 <= fuel)%nat -> yields ts (advance ts) (_parse_assign fuel ts).
Proof.
  intros Hfuel. unfold _parse_assign.
  set (ts2 := advance (advance ts)).
  set (ts3 := if String.eqb (value (current ts2)) ":" then advance ts2 else ts2).
  assert (H2 : ts2 `suffix_of` advance ts) by apply suffix_advance.
  assert (H3 : ts3 `suffix_of` ts2)
    by (subst ts3; destruct (String.eqb _ _); [apply suffix_advance | reflexivity]).
  assert (H : ts3 `suffix_of` advance ts) by (etrans; eauto).
  eapply obind_yields; [apply (parse_expression_yields fuel ts3) | |].
  - apply suffix_length in H. pose proof (suffix_length _ _ (suffix_advance ts)). lia.
  - etrans; [exact H | apply suffix_advance].
  - intros val ts' Hs. cbn. etrans; [exact Hs |]. etrans; [apply suffix_advance | exact H].
Qed.

Lemma parse_loop_parses (fuel : nat) :
  forall ts nodes, (length ts + 5 <= fuel)%nat -> parses ts (parse_loop fuel ts nodes).
Proof.
  induction fuel as [| fuel IH]; intros ts nodes Hfuel; [lia |].
  cbn [parse_loop].
  destruct (_is_at_end ts) eqn:Hend; [exact I |].
  destruct (not_at_end_cons ts Hend) as (t & rest & Hts).
  set (stmt := if is_type ts PIPE then _ else _).
  assert (Hstmt : yields ts (advance ts) stmt).
  { subst stmt.
    destruct (is_type ts PIPE); [apply parse_pipe_yields; lia |].
    destruct (is_type ts ASSIGN); [apply parse_assign_yields; lia |].
    destruct (is_type ts VAR_GET); [apply parse_variable_yields |].
    apply parse_expression_yields. lia. }
  destruct stmt as [[node ts'] | e |]; cbn in Hstmt |- *; [| exact Hstmt | easy].
  assert (Hlt : (length ts' < length ts)%nat).
  { apply suffix_length_advance; [exact Hstmt | now rewrite Hts]. }
  specialize (IH ts' (nodes ++ [node])%list ltac:(lia)).
  destruct (parse_loop fuel ts' (nodes ++ [node])) as [ns | e |]; cbn in IH |- *;
    [exact I | | easy].
  destruct IH as [He Hf]. split; [exact He |].
  eapply forallb_suffix; [| exact Hf].
  etrans; [exact Hstmt | apply suffix_advance].
Qed.

Lemma parse_parses (tokens : list Token) : parses tokens (parse tokens).
Proof. apply parse_loop_parses. lia. Qed.

(** A result reached within a bound is the result under any larger bound. *)
Lemma obind_more {A B} (r r' : outcome A) (k k' : A -> outcome B) :
  obind r k <> Diverge ->
  (r <> Diverge -> r' = r) ->
  (forall x, r = Return x -> k x <> Diverge -> k' x = k x) ->
  obind r' k' = obind r k.
Proof.
  intros Hd Hr Hk. destruct r as [x | e |]; cbn in *; [| | congruence].
  - rewrite Hr by discriminate. cbn. now apply Hk.
  - now rewrite Hr by discriminate.
Qed.

Lemma parse_more_fuel (fuel : nat) :
  (forall ts more, _parse_expression fuel ts <> Diverge ->
     _parse_expression (fuel + more) ts = _parse_expression fuel ts)
  /\ (forall ts more, _parse_pipe fuel ts <> Diverge ->
        _parse_pipe (fuel + more) ts = _parse_pipe fuel ts)
  /\ (forall ts args more, _parse_pipe_args fuel ts args <> Diverge ->
        _parse_pipe_args (fuel + more) ts args = _parse_pipe_args fuel ts args).
Proof.
  induction fuel as [| fuel (IHe & IHp & IHa)]; [now repeat split |].
  repeat split.
  - intros ts more. cbn [Nat.add _parse_expression].
    destruct (type (current ts)); try reflexivity. apply IHp.
  - intros ts more. cbn [Nat.add _parse_pipe]. intros H.
    apply obind_more; [exact H | apply IHa | reflexivity].
  - intros ts args more. cbn [Nat.add _parse_pipe_args].
    destruct (negb (_is_at_end ts) && _); [| reflexivity].
    destruct (String.eqb (value (current ts)) ":"); [apply IHa |].
    intros H. apply obind_more; [exact H | apply IHe |].
    intros [arg ts'] _. apply IHa.
Qed.

Lemma parse_loop_more_fuel (fuel : nat) :
  forall ts nodes more, parse_loop fuel ts nodes <> Diverge ->
    parse_loop (fuel + more) ts nodes = parse_loop fuel ts nodes.
Proof.
  induction fuel as [| fuel IH]; intros ts nodes more; [easy |].
  destruct (parse_more_fuel fuel) as (He & Hp & _).
  cbn [Nat.add parse_loop].
  destruct (_is_at_end ts); [reflexivity |].
  intros H. apply obind_more; [exact H | | intros [node ts'] _; apply IH].
  destruct (is_type ts PIPE); [apply Hp |].
  destruct (is_type ts ASSIGN).
  { unfold _parse_assign. intros H'.
    apply obind_more; [exact H' | apply He | reflexivity]. }
  destruct (is_type ts VAR_GET); [reflexivity | apply He].
Qed.

(** The bound [parse] sets is of no consequence: a larger one gives the same
    result. *)
Lemma parse_bound_irrelevant (tokens : list Token) (more : nat) :
  parse_loop (length tokens + 8 + more) tokens [] = parse tokens.
Proof.
  apply parse_loop_more_fuel. pose proof (parse_parses tokens) as H.
  unfold parse in H. now destruct (parse_loop (length tokens + 8) tokens []).
Qed.

Lemma plain_numbers_well_formed (tokens : list Token) :
  forallb plain_number tokens = true -> forallb well_formed tokens = true.
Proof.
  rewrite !List.forallb_forall. intros H t Ht. specialize (H t Ht).
  unfold plain_number, well_formed in *.
  destruct (type t); try reflexivity.
  now destruct (NumeralFacts.numeral_value _ H) as [v ->].
Qed.

Lemma parse_expression_null (fuel : nat) (ts : list Token) :
  no_expression (current ts) = true ->
  _parse_expression (S fuel) ts = Return (LiteralNode VNone, advance ts).
Proof.
  unfold no_expression. intros H. cbn [_parse_expression]. unfold is_type.
  destruct (type (current ts)); try discriminate; try reflexivity.
  cbn [andb]. apply negb_true_iff in H. now rewrite H.
Qed.

End ParserFacts.

Section Properties.

Variable host_str : world -> pyvalue -> outcome string.
Variable host_call : host_op -> callable.

Local Abbreviation built_in_functions := (Runtime.built_in_functions host_str host_call).
Local Abbreviation find_function := (Interpreter.find_function host_str host_call).
Local Abbreviation visit := (Interpreter.visit host_str host_call).
Local Abbreviation execute := (Interpreter.execute host_str host_call).
Local Abbreviation run := (Main.run host_str host_call).
Local Abbreviation interpret := (Main.interpret host_str host_call).

(** ** Name resolution *)

Lemma find_function_unknown (rt : Runtime) (func_name : string) :
  assoc func_name built_in_functions = None ->
  functions rt !! func_name = None ->
  find_function rt func_name = None.
Proof. intros Hb Hf. unfold Interpreter.find_function. now rewrite Hb. Qed.

Lemma visit_pipe_unfold (func_name : string) (args : list ASTNode) (s : state) :
  visit (PipeNode func_name args) s =
    match find_function (runtime s) func_name with
    | Some func =>
        match mapM visit args s with
        | (Return vals, s') => call_function func_name func vals s'
        | (Raise e, s') => (Raise e, s')
        | (Diverge, s') => (Diverge, s')
        end
    | None => (raise NameError ("Function not found: " +:+ func_name), s)
    end.
Proof.
  cbn [Interpreter.visit].
  destruct (find_function (runtime s) func_name); reflexivity.
Qed.

(** C2. A call of a name that neither the registry nor the table of
    user-defined functions holds raises [NameError], its message ending with
    the name as written; the state is left as it was, and the result is not
    [None]. *)
Theorem unknown_function_is_a_name_error (func_name : string) (args : list ASTNode)
    (s : state) :
  assoc func_name built_in_functions = None ->
  functions (runtime s) !! func_name = None ->
  visit (PipeNode func_name args) s
    = (Raise (Exn NameError ("Function not found: " +:+ func_name)), s)
  /\ fst (visit (PipeNode func_name args) s) <> Return VNone.
Proof.
  intros Hb Hf.
  rewrite visit_pipe_unfold, (find_function_unknown _ _ Hb Hf).
  split; [reflexivity | discriminate].
Qed.

(** ** Order of evaluation in a call *)

Lemma stdout_printed (texts : list string) (s : state) :
  stdout (the_world (printed texts s))
    = (stdout (the_world s) ++ map endl texts)%list.
Proof.
  unfold printed. cbn [the_world]. generalize (the_world s) as w.
  induction texts as [| t texts IH]; intros w; cbn.
  - now rewrite app_nil_r.
  - rewrite IH. cbn. now rewrite <- app_assoc.
Qed.

Lemma visit_logging (text : string) (s : state) :
  visit (logging text) s = (Return VNone, printed [text] s).
Proof. reflexivity. Qed.

Lemma mapM_cons (arg : ASTNode) (rest : list ASTNode) (s : state) :
  mapM visit (arg :: rest) s =
    match visit arg s with
    | (Return v, s1) =>
        match mapM visit rest s1 with
        | (Return vs, s2) => (Return (v :: vs), s2)
        | (Raise e, s2) => (Raise e, s2)
        | (Diverge, s2) => (Diverge, s2)
        end
    | (Raise e, s1) => (Raise e, s1)
    | (Diverge, s1) => (Diverge, s1)
    end.
Proof. reflexivity. Qed.

Lemma mapM_logging (texts : list string) (s : state) :
  mapM visit (map logging texts) s
    = (Return (map (fun _ => VNone) texts), printed texts s).
Proof.
  revert s. induction texts as [| t texts IH]; intros s.
  - now destruct s.
  - cbn [map]. rewrite mapM_cons, visit_logging, IH. reflexivity.
Qed.

(** C1, as the code has it. The name of a call is resolved first: when it is
    unknown [NameError] is raised and no argument is evaluated, the state
    being as before the call. Otherwise the arguments are evaluated from left
    to right, each in the state the previous one left and the evaluation
    stopping at the first that fails, and the function is called on their
    values. In particular calls of [log] as arguments print their lines once
    each, in the order of the source. *)
Theorem call_resolves_then_evaluates_in_order :
  (forall func_name args s,
      visit (PipeNode func_name args) s =
        match find_function (runtime s) func_name with
        | Some func =>
            match mapM visit args s with
            | (Return vals, s') => call_function func_name func vals s'
            | (Raise e, s') => (Raise e, s')
            | (Diverge, s') => (Diverge, s')
            end
        | None => (raise NameError ("Function not found: " +:+ func_name), s)
        end)
  /\ (forall s, mapM visit [] s = (Return [], s))
  /\ (forall arg rest s,
        mapM visit (arg :: rest) s =
          match visit arg s with
          | (Return v, s1) =>
              match mapM visit rest s1 with
              | (Return vs, s2) => (Return (v :: vs), s2)
              | (Raise e, s2) => (Raise e, s2)
              | (Diverge, s2) => (Diverge, s2)
              end
          | (Raise e, s1) => (Raise e, s1)
          | (Diverge, s1) => (Diverge, s1)
          end)
  /\ (forall texts s,
        mapM visit (map logging texts) s
          = (Return (map (fun _ => VNone) texts), printed texts s)
        /\ stdout (the_world (printed texts s))
           = (stdout (the_world s) ++ map endl texts)%list).
Proof.
  split; [exact visit_pipe_unfold |].
  split; [reflexivity |].
  split; [exact mapM_cons |].
  intros texts s. split; [apply mapM_logging | apply stdout_printed].
Qed.

(** ** Failures of the function called *)

Lemma def_wrong_count (name : string) (self : nat) (required optional : list string)
    (body : callable) (args : list pyvalue) (w : world) :
  (length args < length required
   \/ length required + length optional < length args)%nat ->
  def name self required optional body args w
    = (Raise (arity_error name self required optional (length args)), w).
Proof.
  intros H. unfold def.
  destruct (_ && _) eqn:E; [| reflexivity].
  apply andb_true_iff in E as [E1 E2].
  apply Nat.leb_le in E1, E2. lia.
Qed.

Lemma arity_error_is_a_type_error name self required optional given :
  etype (arity_error name self required optional given) = TypeError.
Proof. reflexivity. Qed.

(** C3, as the code has it. When the function called raises a [TypeError] on
    the values of the arguments, the call raises a [TypeError] whose message
    is [Error calling], the name, a colon and the message of the first; an
    exception of another class is raised as it is, its message without the
    name. A function defined with a fixed list of parameters raises a
    [TypeError] when the number of arguments does not fit. *)
Theorem type_errors_of_the_function_are_wrapped (func_name : string)
    (args : list ASTNode) (s : state) (func : callable) (vals : list pyvalue)
    (s1 : state) (e : exn) (w' : world) :
  find_function (runtime s) func_name = Some func ->
  mapM visit args s = (Return vals, s1) ->
  func vals (the_world s1) = (Raise e, w') ->
  visit (PipeNode func_name args) s
    = (Raise match etype e with
             | TypeError =>
                 Exn TypeError ("Error calling " +:+ func_name +:+ ": " +:+ emsg e)
             | _ => e
             end,
       mkIState (runtime s1) w')
  /\ (forall name self required optional body given w,
        (length given < length required
         \/ length required + length optional < length given)%nat ->
        exists err, def name self required optional body given w = (Raise err, w)
                    /\ etype err = TypeError).
Proof.
  intros Hf Hargs Hcall. split.
  - rewrite visit_pipe_unfold, Hf, Hargs.
    unfold call_function, in_world. rewrite Hcall.
    destruct e as [[] msg]; reflexivity.
  - intros name self required optional body given w H.
    eexists. split; [now apply def_wrong_count | reflexivity].
Qed.

(** ** Variables *)

Lemma visit_variable_unfold (name : string) (s : state) :
  visit (VariableNode name) s =
    (Return match locals (runtime s) !! name with
            | Some v => v
            | None => default VNone (globals (runtime s) !! name)
            end, s).
Proof.
  cbn [Interpreter.visit]. unfold visit_variable.
  destruct (locals (runtime s) !! name); [reflexivity |].
  destruct (globals (runtime s) !! name); reflexivity.
Qed.

(** C7. The statement [&x:<v>] returns [v] and leaves it stored under [x];
    [!x] then yields [v]; so does the program made of the two. *)
Theorem assignment_round_trip (x : string) (v : pyvalue) (s : state) :
  visit (AssignNode x (LiteralNode v)) s = (Return v, assigned x v s)
  /\ visit (VariableNode x) (assigned x v s) = (Return v, assigned x v s)
  /\ execute [AssignNode x (LiteralNode v); VariableNode x] s
     = (Return v, assigned x v s).
Proof.
  assert (Hget : visit (VariableNode x) (assigned x v s) = (Return v, assigned x v s)).
  { rewrite visit_variable_unfold. cbn. now rewrite lookup_insert_eq. }
  split; [reflexivity |]. split; [exact Hget |].
  unfold Interpreter.execute. cbn [foldM]. unfold bind at 1.
  change (Interpreter.visit host_str host_call (AssignNode x (LiteralNode v)) s)
    with (Return v, assigned x v s).
  cbn iota. unfold bind at 1. rewrite Hget. reflexivity.
Qed.

Lemma unbound_variable_is_none_in (name : string) (s : state) :
  globals (runtime s) = ∅ ->
  visit (VariableNode name) s
    = (Return (default VNone (locals (runtime s) !! name)), s).
Proof.
  intros Hg. rewrite visit_variable_unfold, Hg, lookup_empty. cbn.
  now destruct (locals (runtime s) !! name).
Qed.

(** C8. With no global bound, a variable is looked up in [locals] alone, and
    one that has no binding there evaluates to [None]; nothing fails and the
    state does not change. *)
Theorem unbound_variable_is_none (name : string) (s : state) :
  globals (runtime s) = ∅ ->
  visit (VariableNode name) s
    = (Return (default VNone (locals (runtime s) !! name)), s)
  /\ (locals (runtime s) !! name = None ->
      visit (VariableNode name) s = (Return VNone, s)).
Proof.
  intros Hg. rewrite visit_variable_unfold, Hg, lookup_empty. cbn.
  split.
  - now destruct (locals (runtime s) !! name).
  - now intros ->.
Qed.

(** ** The flat namespace *)

Lemma same_tables_refl (s : state) : same_tables s s.
Proof. split; reflexivity. Qed.

Lemma same_tables_trans (s1 s2 s3 : state) :
  same_tables s1 s2 -> same_tables s2 s3 -> same_tables s1 s3.
Proof. intros [H1 H2] [H3 H4]. split; congruence. Qed.

Lemma in_world_same_tables {A} (c : comp world A) (s : state) :
  same_tables s (snd (in_world c s)).
Proof. unfold in_world. destruct (c (the_world s)). split; reflexivity. Qed.

Lemma call_function_same_tables func_name func vals (s : state) :
  same_tables s (snd (call_function func_name func vals s)).
Proof.
  unfold call_function.
  pose proof (in_world_same_tables (func vals) s) as H.
  destruct (in_world (func vals) s) as [[v | [[] msg] |] s']; exact H.
Qed.

Lemma mapM_same_tables (args : list ASTNode) :
  Forall (fun arg => forall s, same_tables s (snd (visit arg s))) args ->
  forall s, same_tables s (snd (mapM visit args s)).
Proof.
  induction 1 as [| arg rest Harg _ IH]; intros s.
  - apply same_tables_refl.
  - rewrite mapM_cons. specialize (Harg s).
    destruct (visit arg s) as [[v | e |] s1]; cbn in Harg |- *; try exact Harg.
    specialize (IH s1).
    destruct (mapM visit rest s1) as [[vs | e |] s2]; cbn in IH |- *;
      eapply same_tables_trans; eauto.
Qed.

Lemma visit_same_tables (node : ASTNode) (s : state) :
  same_tables s (snd (visit node s)).
Proof.
  revert s. induction node as [v | name | func_name args IH | x value IH]
    using ASTNode_ind; intros s.
  - apply same_tables_refl.
  - rewrite visit_variable_unfold. apply same_tables_refl.
  - rewrite visit_pipe_unfold.
    destruct (find_function (runtime s) func_name) as [func |];
      [| apply same_tables_refl].
    pose proof (mapM_same_tables args IH s) as H.
    destruct (mapM visit args s) as [[vals | e |] s1]; cbn in H |- *; try exact H.
    eapply same_tables_trans; [exact H | apply call_function_same_tables].
  - cbn [Interpreter.visit]. unfold bind. fold visit. specialize (IH s).
    destruct (visit value s) as [[v | e |] s1]; cbn in IH |- *; exact IH.
Qed.

Lemma execute_unfold (node : ASTNode) (nodes : list ASTNode) (acc : pyvalue) (s : state) :
  foldM (fun _ n => visit n) acc (node :: nodes) s =
    match visit node s with
    | (Return v, s1) => foldM (fun _ n => visit n) v nodes s1
    | (Raise e, s1) => (Raise e, s1)
    | (Diverge, s1) => (Diverge, s1)
    end.
Proof. reflexivity. Qed.

Lemma execute_same_tables (nodes : list ASTNode) (s : state) :
  same_tables s (snd (execute nodes s)).
Proof.
  unfold Interpreter.execute. generalize VNone as acc. revert s.
  induction nodes as [| node nodes IH]; intros s acc.
  - apply same_tables_refl.
  - rewrite execute_unfold. pose proof (visit_same_tables node s) as H.
    destruct (visit node s) as [[v | e |] s1]; cbn in H |- *; try exact H.
    eapply same_tables_trans; [exact H | apply IH].
Qed.

Lemma visit_assign_unfold (x : string) (value : ASTNode) (s : state) :
  visit (AssignNode x value) s =
    match visit value s with
    | (Return v, s1) => (Return v, assigned x v s1)
    | (Raise e, s1) => (Raise e, s1)
    | (Diverge, s1) => (Diverge, s1)
    end.
Proof.
  cbn [Interpreter.visit]. unfold bind. fold visit.
  destruct (visit value s) as [[v | e |] s1]; reflexivity.
Qed.

(** C9. A runtime is created with no global. Evaluating a node, and so
    executing a program, leaves the globals as they are: an assignment stores
    the value it returns in [locals] and changes nothing else. After any
    program run from a new runtime, a variable is looked up in [locals]
    alone. *)
Theorem globals_are_never_written :
  globals new_runtime = ∅
  /\ (forall node s, globals (runtime (snd (visit node s))) = globals (runtime s))
  /\ (forall nodes s, globals (runtime (snd (execute nodes s))) = globals (runtime s))
  /\ (forall x value s,
        visit (AssignNode x value) s =
          match visit value s with
          | (Return v, s1) => (Return v, assigned x v s1)
          | (Raise e, s1) => (Raise e, s1)
          | (Diverge, s1) => (Diverge, s1)
          end)
  /\ (forall x v s,
        locals (runtime (assigned x v s)) = <[x := v]> (locals (runtime s))
        /\ globals (runtime (assigned x v s)) = globals (runtime s)
        /\ the_world (assigned x v s) = the_world s)
  /\ (forall nodes w name,
        let s := snd (execute nodes (mkIState new_runtime w)) in
        visit (VariableNode name) s
          = (Return (default VNone (locals (runtime s) !! name)), s)).
Proof.
  split; [reflexivity |].
  split; [intros node s; apply visit_same_tables |].
  split; [intros nodes s; apply execute_same_tables |].
  split; [exact visit_assign_unfold |].
  split; [intros x v s; repeat split |].
  intros nodes w name s.
  apply unbound_variable_is_none_in.
  subst s. now rewrite (proj1 (execute_same_tables nodes _)).
Qed.

(** ** [pop] and [shift] *)

(** C10. On an empty list [pop] and [shift] return [None] and change
    nothing. On a list that is not empty [pop] returns its last element and
    [shift] its first, and the list is left without it. *)
Theorem pop_and_shift (l : loc) (w : world) (xs : list pyvalue) :
  heap w !! l = Some xs ->
  (xs = [] ->
   builtin_pop [VList l] w = (Return VNone, w)
   /\ builtin_shift [VList l] w = (Return VNone, w))
  /\ (forall ys y, xs = (ys ++ [y])%list ->
      builtin_pop [VList l] w = (Return y, set_heap (<[l := ys]> (heap w)) w)
      /\ deref (snd (builtin_pop [VList l] w)) l = ys)
  /\ (forall y ys, xs = y :: ys ->
      builtin_shift [VList l] w = (Return y, set_heap (<[l := ys]> (heap w)) w)
      /\ deref (snd (builtin_shift [VList l] w)) l = ys).
Proof.
  intros Hl.
  assert (Hd : deref w l = xs) by (unfold deref; now rewrite Hl).
  assert (Hlt : (l < length (heap w))%nat) by (eapply lookup_lt_Some; eauto).
  assert (Hget : forall zs, deref (set_heap (<[l := zs]> (heap w)) w) l = zs).
  { intros zs. unfold deref, set_heap. cbn.
    now rewrite list_lookup_insert_eq. }
  unfold builtin_pop, builtin_shift, lambda, def, bind, is_true, truthy.
  cbn [length nth Nat.leb andb Nat.add]. rewrite Hd.
  split; [| split].
  - intros ->. split; reflexivity.
  - intros ys y ->. rewrite length_app. cbn [length].
    replace (length ys + 1 =? 0)%nat with false
      by (symmetry; apply Nat.eqb_neq; lia).
    cbn [negb]. unfold store. cbn [snd].
    rewrite !Hd, last_last, removelast_last. split; [reflexivity | apply Hget].
  - intros y ys ->. cbn [length Nat.eqb negb]. unfold store. cbn [snd].
    rewrite !Hd. cbn [hd tl]. split; [reflexivity | apply Hget].
Qed.

(** ** The entry point *)

(** C4. [interpret] raises nothing: what its body raises is caught, a line
    [Error: ] followed by the message is printed and [None] is returned; a
    value the body returns is returned as it is. *)
Theorem interpret_catches_every_exception (source : string) (w : world) :
  (forall e, fst (interpret source w) <> Raise e)
  /\ (forall e w', run source w = (Raise e, w') ->
        interpret source w = (Return VNone, written (endl ("Error: " +:+ emsg e)) w'))
  /\ (forall v w', run source w = (Return v, w') ->
        interpret source w = (Return v, w')).
Proof.
  unfold Main.interpret.
  destruct (run source w) as [[v | e |] w1] eqn:E; repeat split;
    try discriminate; intros; try congruence.
  all: match goal with H : (_, _) = (_, _) |- _ => injection H as <- <- end;
       reflexivity.
Qed.

(** ** Arithmetic *)

Lemma fmul_one_l (f : float) :
  valid_binary prec emax f = true -> fmul fone f = f.
Proof.
  destruct f as [s | s | | s m e]; try reflexivity.
  intros Hv. cbn in Hv. apply andb_true_iff in Hv as [Hc Hb].
  unfold canonical_mantissa in Hc. apply Z.eqb_eq in Hc.
  unfold fmul, SFmul, fone. cbn [xorb].
  change (Pos.mul 4503599627370496 m) with
   (m~0~0~0~0~0~0~0~0~0~0~0~0~0~0~0~0~0~0~0~0~0~0~0~0~0~0
     ~0~0~0~0~0~0~0~0~0~0~0~0~0~0~0~0~0~0~0~0~0~0~0~0~0~0)%positive.
  unfold binary_round_aux, shr_fexp.
  change IntDef.Z.add with Z.add in *. change IntDef.Z.sub with Z.sub in *.
  change IntDef.Z.leb with Z.leb in *.
  assert (Hd : Zdigits2 (Z.pos
   (m~0~0~0~0~0~0~0~0~0~0~0~0~0~0~0~0~0~0~0~0~0~0~0~0~0~0
     ~0~0~0~0~0~0~0~0~0~0~0~0~0~0~0~0~0~0~0~0~0~0~0~0~0~0))
     = Z.pos (digits2_pos m) + 52).
  { cbn [Zdigits2 digits2_pos]. rewrite !Pos2Z.inj_succ. lia. }
  rewrite Hd.
  replace (Z.pos (digits2_pos m) + 52 + (-52 + e))
    with (Z.pos (digits2_pos m) + e) by lia.
  rewrite Hc. replace (e - (-52 + e)) with 52 by lia.
  cbn [shr shr_record_of_loc SpecFloat.iter_pos shr_1 orb fst snd shr_m
       loc_of_shr_record round_nearest_even].
  replace (-52 + e + 52) with e by lia.
  cbn [Zdigits2]. rewrite Hc, Z.sub_diag. cbn [shr shr_m].
  rewrite Hb. reflexivity.
Qed.

Lemma num_mul_one_l (x : number) :
  valid x ->
  exists v, num_mul (NInt 1) x = Return v /\ as_number v = Some x.
Proof.
  destruct x as [i | f]; intros Hv.
  - exists (VInt i). split; [| reflexivity].
    cbn. now destruct i.
  - exists (VFloat f). split; [| reflexivity].
    unfold num_mul, arith, to_float.
    change (float_of_int 1) with (@Return float fone). cbn [obind].
    now rewrite fmul_one_l.
Qed.

Lemma num_add_zero_l (x y : number) :
  exists v x', num_add (NInt 0) x = Return v /\ as_number v = Some x'
               /\ same_number (num_add x' y) (num_add x y).
Proof.
  destruct x as [i | f].
  - exists (VInt i), (NInt i). split; [reflexivity |].
    split; [reflexivity | now left].
  - exists (VFloat (fadd fzero f)), (NFloat (fadd fzero f)).
    split; [reflexivity |]. split; [reflexivity |].
    destruct f as [[|] | s | | s m e]; try (now left).
    destruct y as [j | g]; cbn.
    + destruct (float_of_int j) as [g | err |]; cbn; try (now left).
      destruct g as [[|] | s | | s m e]; try (now left).
      right. now exists false, true.
    + destruct g as [[|] | s | | s m e]; try (now left).
      right. now exists false, true.
Qed.

Lemma num_truediv_float (x y : number) (v : pyvalue) :
  num_truediv x y = Return v -> exists f, v = VFloat f.
Proof.
  unfold num_truediv, arith.
  destruct x as [i | f], y as [j | g]; cbn.
  - destruct (int_truediv i j); cbn; [intros [= <-]; eauto | easy | easy].
  - destruct (float_of_int i); cbn; try easy.
    destruct (is_fzero g); [easy | intros [= <-]; eauto].
  - destruct (float_of_int j) as [g | |]; cbn; try easy.
    destruct (is_fzero g); [easy | intros [= <-]; eauto].
  - destruct (is_fzero g); [easy | intros [= <-]; eauto].
Qed.

(** C5. On two numbers [a] and [b]: [add] returns [a + b] (the sign of a
    zero apart), [sub] returns [a - b], [mul] returns [a * b]; [div] returns
    [a / b], a float, when [b != 0] and the int [0] when [b == 0]; [mod]
    returns [a % b] when [b != 0] and the int [0] when [b == 0]. On ints the
    sum, difference and product are the exact ones and the quotient is the
    nearest float. The state is left as it was. *)
Theorem arithmetic_on_two_numbers (a b : pyvalue) (x y : number) (w : world) :
  as_number a = Some x -> as_number b = Some y -> valid x -> valid y ->
  (exists r, builtin_add [a; b] w = (r, w) /\ same_number r (num_add x y))
  /\ builtin_sub [a; b] w = (num_sub x y, w)
  /\ Runtime.builtin_mul host_call [a; b] w = (num_mul x y, w)
  /\ builtin_div [a; b] w
     = (if num_nonzero y then num_truediv x y else Return (VInt 0), w)
  /\ Runtime.builtin_mod host_call [a; b] w
     = (if num_nonzero y then num_mod x y else Return (VInt 0), w)
  /\ (forall v, num_truediv x y = Return v -> exists f, v = VFloat f)
  /\ (forall i j, x = NInt i -> y = NInt j ->
        num_add x y = Return (VInt (i + j))
        /\ num_sub x y = Return (VInt (i - j))
        /\ num_mul x y = Return (VInt (i * j))
        /\ num_truediv x y = obind (int_truediv i j) (fun f => Return (VFloat f))
        /\ num_nonzero y = negb (j =? 0)).
Proof.
  intros Ha Hb Hx Hy.
  assert (Hne : ne_zero b = num_nonzero y) by (unfold ne_zero; now rewrite Hb).
  repeat split.
  - destruct (num_add_zero_l x y) as (v & x' & H0 & Hv & Hsame).
    unfold builtin_add. cbn [foldM]. unfold bind, py_add.
    rewrite Ha. cbn [as_number]. unfold lift at 1. rewrite H0, Hv, Hb.
    unfold lift, ret. destruct (num_add x' y) as [r | e |] eqn:E; eauto.
  - unfold builtin_sub, lambda, def, py_sub. cbn. now rewrite Ha, Hb.
  - destruct (num_mul_one_l x Hx) as (v & H1 & Hv).
    unfold Runtime.builtin_mul. cbn [foldM]. unfold bind, py_mul.
    rewrite Ha. cbn [as_number]. unfold lift at 1. rewrite H1, Hv, Hb.
    unfold lift, ret. now destruct (num_mul x y).
  - unfold builtin_div, lambda, def, py_truediv. cbn. rewrite Hne, Ha, Hb.
    now destruct (num_nonzero y).
  - unfold Runtime.builtin_mod, lambda, def, py_mod. cbn. rewrite Hne, Ha, Hb.
    now destruct (num_nonzero y).
  - apply num_truediv_float.
  - now subst.
  - now subst.
  - now subst.
  - now subst.
  - now subst.
Qed.

End Properties.

(** C6, as the code has it. On every list of tokens [parse] terminates. It
    returns the list of nodes when the text of every [NUMBER] token is one
    that [int] or [float] accepts, as are digits, 4300 of them at most, and
    digits, a dot and digits. The only exception it raises is the
    [ValueError] of the conversion of the text of a [NUMBER] token, and when
    it raises it the text of some [NUMBER] token is not accepted; a [NUMBER]
    token that is read as a name is not converted. A token that starts no
    expression is stepped over and gives the literal [None]. *)
Theorem parse_terminates (tokens : list Lexer.Token) :
  Parser.parse tokens <> Diverge
  /\ (forallb well_formed tokens = true ->
      exists nodes, Parser.parse tokens = Return nodes)
  /\ (forallb plain_number tokens = true ->
      exists nodes, Parser.parse tokens = Return nodes)
  /\ (forall e, Parser.parse tokens = Raise e ->
      etype e = ValueError /\ forallb well_formed tokens = false)
  /\ (forall fuel ts, no_expression (Parser.current ts) = true ->
      Parser._parse_expression (S fuel) ts
        = Return (LiteralNode VNone, Parser.advance ts)).
Proof.
  pose proof (ParserFacts.parse_parses tokens) as H.
  pose proof (ParserFacts.plain_numbers_well_formed tokens) as Hplain.
  assert (Hnull : forall fuel ts, no_expression (Parser.current ts) = true ->
            Parser._parse_expression (S fuel) ts
              = Return (LiteralNode VNone, Parser.advance ts))
    by exact ParserFacts.parse_expression_null.
  destruct (Parser.parse tokens) as [nodes | e |]; cbn in H; [| | easy].
  - split; [discriminate |]. split; [eauto |]. split; [eauto |].
    split; [discriminate | exact Hnull].
  - destruct H as [He Hf]. split; [discriminate |].
    split; [intros Hw; congruence |].
    split; [intros Hw; apply Hplain in Hw; congruence |].
    split; [| exact Hnull].
    intros e' [= <-]. now split.
Qed.

(** * Further properties *)

(** ** The tokens of any text *)

Module LexerRuns.
Import Lexer LexerFacts LexerNotions.

Lemma read_while_app (p : ascii -> bool) (l : list ascii) :
  l = (fst (read_while p l) ++ snd (read_while p l))%list.
Proof.
  induction l as [| c r IH]; cbn; [reflexivity |].
  destruct (p c); [| reflexivity].
  destruct (read_while p r) as [w t]. cbn in *. now rewrite <- IH.
Qed.

Lemma read_while_all (p : ascii -> bool) (l t : list ascii) :
  forallb p l = true ->
  match t with c :: _ => p c = false | [] => True end ->
  read_while p (l ++ t) = (l, t).
Proof.
  intros Hl Ht. induction l as [| c r IH]; cbn.
  - destruct t as [| c t]; [reflexivity |]. cbn. now rewrite Ht.
  - cbn in Hl. apply andb_true_iff in Hl as [Hc Hr]. now rewrite Hc, (IH Hr).
Qed.

Lemma skip_whitespace_line (src : list ascii) (ln cl : Z) :
  ln <= snd (fst (_skip_whitespace src ln cl)).
Proof.
  revert ln cl. induction src as [| c r IH]; intros ln cl; cbn; [lia |].
  destruct (isspace c); [| cbn; lia].
  destruct (Ascii.eqb c "010"); [specialize (IH (ln + 1) 1) | specialize (IH ln (cl + 1))];
    lia.
Qed.

Lemma read_while_sat (p : ascii -> bool) (l : list ascii) :
  forallb p (fst (read_while p l)) = true.
Proof.
  induction l as [| c r IH]; cbn; [reflexivity |].
  destruct (p c) eqn:E; [| reflexivity].
  destruct (read_while p r) as [w t]. cbn in *. now rewrite E.
Qed.

Lemma read_while_suffix (p : ascii -> bool) (l : list ascii) :
  snd (read_while p l) `suffix_of` l.
Proof. exists (fst (read_while p l)). apply read_while_app. Qed.

Lemma skip_whitespace_suffix (src : list ascii) (ln cl : Z) :
  fst (fst (_skip_whitespace src ln cl)) `suffix_of` src.
Proof.
  revert ln cl. induction src as [| d r IH]; intros ln cl; cbn; [reflexivity |].
  destruct (isspace d); [| reflexivity].
  destruct (Ascii.eqb d "010"); apply suffix_cons_r, IH.
Qed.

Lemma read_string_body_suffix (quote : ascii) (n : nat) :
  forall src, (length src <= n)%nat ->
    snd (read_string_body quote src) `suffix_of` src.
Proof.
  induction n as [| n IH]; intros src Hn.
  - destruct src; [reflexivity | cbn in Hn; lia].
  - destruct src as [| d r]; [reflexivity |].
    cbn [read_string_body].
    destruct (Ascii.eqb d quote); [cbn; apply suffix_cons_r; reflexivity |].
    destruct r as [| e r']; [cbn; apply suffix_nil |].
    cbn [length] in Hn.
    destruct (Ascii.eqb d "\").
    + specialize (IH r' ltac:(lia)).
      destruct (read_string_body quote r') as [[v k] t]. cbn in *.
      now do 2 apply suffix_cons_r.
    + specialize (IH (e :: r') ltac:(cbn; lia)).
      destruct (read_string_body quote (e :: r')) as [[v k] t]. cbn in *.
      now apply suffix_cons_r.
Qed.

Lemma number_of_mono (src src' : list ascii) (t : Token) :
  src `suffix_of` src' -> number_of src t -> number_of src' t.
Proof.
  intros [k ->] H Ht. destruct (H Ht) as (pre & v & post & Hv & Hne & -> & Hsat).
  exists (k ++ pre)%list, v, post. now rewrite <- app_assoc.
Qed.

Ltac emitted :=
  repeat first
    [ apply List.Forall_nil
    | apply List.Forall_cons;
      [split; [easy | split; [reflexivity | intros Hnum; cbn in Hnum; try easy]] |] ].

Lemma read_marked_emits (marker : token_type) (st : state) (c : ascii) (rest : list ascii) :
  marker <> EOF -> marker <> NUMBER -> source st = c :: rest ->
  exists new, emits st (read_marked marker st rest) new
              /\ cur_line (read_marked marker st rest) = cur_line st.
Proof.
  intros Hm Hm' Hsrc. unfold read_marked, emits. rewrite Hsrc.
  pose proof (read_while_app (name_char "_") rest) as Happ.
  destruct (read_while (name_char "_") rest) as [name src]. cbn [fst snd] in Happ.
  eexists. cbn [emit tokens cur_line source]. split; [| reflexivity].
  split; [reflexivity |].
  subst rest. cbn [length]. rewrite length_app.
  split; [| split; [| now exists (c :: name)]];
    destruct name as [| a name]; cbn [length]; try lia; emitted.
Qed.

Lemma read_access_emits (marker : token_type) (p : ascii -> bool) (t : token_type)
    (st : state) (c : ascii) (rest : list ascii) :
  marker <> EOF -> marker <> NUMBER -> t <> EOF ->
  (t = NUMBER -> forall d, p d = true -> isdigit d || Ascii.eqb d "." = true) ->
  source st = c :: rest ->
  exists new, emits st (read_access marker p t st rest) new
              /\ cur_line (read_access marker p t st rest) = cur_line st.
Proof.
  intros Hm Hm' Ht Hp Hsrc. unfold read_access, emits. rewrite Hsrc.
  pose proof (read_while_app (name_char "_") rest) as Happ.
  destruct (read_while (name_char "_") rest) as [name src]. cbn [fst snd] in Happ.
  subst rest. cbn [length]. rewrite length_app.
  destruct src as [| d after_dot].
  { eexists. cbn [emit tokens cur_line source]. split; [| reflexivity].
    split; [reflexivity |].
    split; [| split; [| now exists (c :: name)]];
      destruct name as [| a name]; cbn [length]; try lia; emitted. }
  destruct (Ascii.eqb d ".").
  - pose proof (read_while_app p after_dot) as Happ2.
    pose proof (read_while_sat p after_dot) as Hsat.
    destruct (read_while p after_dot) as [part src2]. cbn [fst snd] in Happ2, Hsat.
    subst after_dot. eexists. cbn [emit tokens cur_line source].
    split; [| reflexivity]. rewrite <- app_assoc.
    split; [reflexivity |]. cbn [length]. rewrite !length_app.
    assert (Hsplit : forall nm pt : list ascii,
               (c :: nm ++ d :: pt ++ src2)
               = ((c :: nm ++ [d]) ++ pt ++ src2)%list)
      by (intros nm pt; cbn; now rewrite <- app_assoc).
    split; [| split].
    + destruct name as [| a name], part as [| b part]; cbn [length app]; emitted.
      all: first [ exists (c :: (a :: name) ++ [d])%list, (b :: part), src2;
                   split; [reflexivity |]; split; [easy |];
                   split; [exact (Hsplit (a :: name) (b :: part)) |]
                 | exists (c :: [] ++ [d])%list, (b :: part), src2;
                   split; [reflexivity |]; split; [easy |];
                   split; [exact (Hsplit [] (b :: part)) |] ];
        apply List.forallb_forall; intros e He;
        rewrite List.forallb_forall in Hsat; apply (Hp Hnum), Hsat, He.
    + destruct name as [| a name], part as [| b part]; cbn [length app]; lia.
    + exists (c :: name ++ d :: part)%list. cbn. now rewrite <- app_assoc.
  - eexists. cbn [emit tokens cur_line source]. split; [| reflexivity].
    split; [reflexivity |].
    split; [| split; [| now exists (c :: name)]];
      destruct name as [| a name]; cbn [length]; try lia; emitted.
Qed.

Lemma step_emits (st st' : state) :
  step st = Some st' ->
  exists new, emits st st' new /\ cur_line st <= cur_line st'.
Proof.
  unfold step.
  pose proof (skip_whitespace_length (source st) (cur_line st) (cur_col st)) as Hlen.
  pose proof (skip_whitespace_line (source st) (cur_line st) (cur_col st)) as Hline.
  pose proof (skip_whitespace_suffix (source st) (cur_line st) (cur_col st)) as Hsuf.
  destruct (_skip_whitespace (source st) (cur_line st) (cur_col st)) as [[src ln] cl].
  cbn [fst snd] in Hlen, Hline, Hsuf.
  destruct src as [| char rest]; [discriminate |].
  set (st1 := mkState (char :: rest) ln cl (tokens st)).
  assert (Hfrom : forall new r,
            emits st1 r new /\ cur_line r = cur_line st1 ->
            exists new, emits st r new /\ cur_line st <= cur_line r).
  { intros new r [(Htok & Hall & Hn & Hsub) Hl]. exists new.
    unfold st1 in Hl, Hn, Hsub, Hall. cbn in Hl, Hn, Hlen, Hsub.
    split; [| lia]. split; [exact Htok |].
    split; [| split; [lia | etrans; eauto]].
    eapply Forall_impl; [exact Hall |]. cbn. intros t (H1 & H2 & H3).
    split; [exact H1 |]. split; [exact H2 |].
    eapply number_of_mono; eauto. }
  assert (Hemit : forall src' cl' new,
            Forall (fun t => type t <> EOF /\ line t = ln
                             /\ number_of (char :: rest) t) new ->
            (length new + length src' <= S (length rest))%nat ->
            src' `suffix_of` (char :: rest) ->
            exists new', emits st (emit st1 src' cl' new) new'
                         /\ cur_line st <= cur_line (emit st1 src' cl' new)).
  { intros src' cl' new Hall Hn Hsub. apply (Hfrom new). split; [| reflexivity].
    split; [reflexivity |]. split; [exact Hall |]. split; [exact Hn | exact Hsub]. }
  intros [= <-].
  destruct (Ascii.eqb char "|").
  { unfold _read_pipe. pose proof (read_while_length (name_char "_-") rest) as H.
    pose proof (read_while_suffix (name_char "_-") rest) as H'.
    destruct (read_while (name_char "_-") rest) as [name src]. cbn [snd] in H, H'.
    apply Hemit; [emitted | cbn; lia | now apply suffix_cons_r]. }
  destruct (Ascii.eqb char "!").
  { destruct (read_marked_emits VAR_GET st1 char rest) as (new & H);
      [easy | easy | reflexivity |]. exact (Hfrom new _ H). }
  destruct (Ascii.eqb char "&").
  { destruct (read_marked_emits ASSIGN st1 char rest) as (new & H);
      [easy | easy | reflexivity |]. exact (Hfrom new _ H). }
  destruct (Ascii.eqb char "@").
  { destruct (read_access_emits OBJ_ACCESS (name_char "_") IDENT st1 char rest)
      as (new & H); [easy | easy | easy | easy | reflexivity |].
    exact (Hfrom new _ H). }
  destruct (Ascii.eqb char "#").
  { destruct (read_access_emits ARR_ACCESS isdigit NUMBER st1 char rest)
      as (new & H); [easy | easy | easy | | reflexivity |].
    - intros _ d ->. reflexivity.
    - exact (Hfrom new _ H). }
  destruct (char_in char "{}[]():,-").
  { apply Hemit; [emitted | cbn; lia | apply suffix_cons_r; reflexivity]. }
  destruct (Ascii.eqb char "034").
  { unfold _read_string.
    pose proof (read_string_body_length char (length rest) rest (le_n _)) as H.
    pose proof (read_string_body_suffix char (length rest) rest (le_n _)) as H'.
    destruct (read_string_body char rest) as [[v k] t]. cbn [snd] in H, H'.
    apply Hemit; [emitted | cbn; lia | now apply suffix_cons_r]. }
  destruct (isdigit char) eqn:Hd.
  { unfold _read_number. cbn [source st1].
    pose proof (read_while_first (fun c => isdigit c || Ascii.eqb c ".") char rest) as H.
    pose proof (read_while_app (fun c => isdigit c || Ascii.eqb c ".") (char :: rest))
      as Happ.
    pose proof (read_while_sat (fun c => isdigit c || Ascii.eqb c ".") (char :: rest))
      as Hsat.
    cbn beta in H. rewrite Hd in H. specialize (H eq_refl).
    assert (Hne : fst (read_while (fun c => isdigit c || Ascii.eqb c ".") (char :: rest))
                  <> []).
    { cbn. rewrite Hd. cbn. now destruct (read_while _ rest). }
    destruct (read_while _ (char :: rest)) as [v src]. cbn [fst snd] in H, Happ, Hsat, Hne.
    apply Hemit; [emitted | cbn; lia | now exists v].
    exists [], v, src. now repeat split. }
  destruct (isalpha char) eqn:Ha.
  { unfold _read_identifier. cbn [source st1].
    pose proof (read_while_first (name_char "_-") char rest) as H.
    pose proof (read_while_suffix (name_char "_-") (char :: rest)) as H'.
    unfold name_char, isalnum in H. rewrite Ha in H. specialize (H eq_refl).
    destruct (read_while _ (char :: rest)) as [v src]. cbn [fst snd] in H, H'.
    apply Hemit; [| cbn; lia | exact H'].
    apply List.Forall_cons; [| apply List.Forall_nil].
    cbn [type]. split; [now destruct (is_keyword _) |]. split; [reflexivity |].
    unfold number_of. cbn [type]. now destruct (is_keyword _). }
  apply Hemit; [emitted | cbn; lia | apply suffix_cons_r; reflexivity].
Qed.

Lemma loop_unfold (fuel : nat) (st : state) :
  loop (S fuel) st =
    match step st with
    | Some st' => loop fuel st'
    | None =>
        let '(src, ln, cl) := _skip_whitespace (source st) (cur_line st) (cur_col st) in
        mkState src ln cl (tokens st)
    end.
Proof. reflexivity. Qed.

Lemma ascending_app (l1 l2 : list Token) (b : Z) :
  Forall (fun t => line t = b) l1 -> Forall (fun t => b <= line t) l2 ->
  ascending l2 -> ascending (l1 ++ l2).
Proof.
  intros H1 H2 Hasc i j t u Hij Hi Hj.
  rewrite Forall_lookup in H1. rewrite Forall_lookup in H2.
  apply lookup_app_Some in Hi as [Hi | [Hi1 Hi]];
    apply lookup_app_Some in Hj as [Hj | [Hj1 Hj]].
  - rewrite (H1 _ _ Hi), (H1 _ _ Hj). lia.
  - rewrite (H1 _ _ Hi). eauto.
  - apply lookup_lt_Some in Hj. lia.
  - eapply Hasc; [| exact Hi | exact Hj]. lia.
Qed.

(** What the loop adds to the tokens: no [EOF], lines in order between the
    line it starts at and the line it ends at, numbers made of the digits
    and dots of the text, and at most one token for each character read. *)
Lemma loop_emits (fuel : nat) :
  forall st, exists new,
    tokens (loop fuel st) = (tokens st ++ new)%list
    /\ Forall (fun t => type t <> EOF
                        /\ cur_line st <= line t <= cur_line (loop fuel st)
                        /\ number_of (source st) t) new
    /\ ascending new
    /\ cur_line st <= cur_line (loop fuel st)
    /\ (length new + length (source (loop fuel st)) <= length (source st))%nat.
Proof.
  induction fuel as [| fuel IH]; intros st.
  { exists []. cbn [loop]. rewrite app_nil_r.
    repeat split; [constructor | | lia | cbn; lia].
    intros i j t u _ Hi. now rewrite lookup_nil in Hi. }
  rewrite loop_unfold. destruct (step st) as [st' |] eqn:Hstep.
  - destruct (step_emits st st' Hstep) as (new1 & (Htok1 & Hall1 & Hn1 & Hsub) & Hl1).
    destruct (IH st') as (new2 & Htok2 & Hall2 & Hasc2 & Hl2 & Hn2).
    exists (new1 ++ new2)%list.
    split; [now rewrite Htok2, Htok1, app_assoc |].
    split; [| split; [| split]].
    + apply Forall_app. split.
      * eapply Forall_impl; [exact Hall1 |]. cbn. intros t (Ht & Hline & Hnum).
        split; [exact Ht |]. split; [lia | exact Hnum].
      * eapply Forall_impl; [exact Hall2 |]. cbn. intros t (Ht & Hline & Hnum).
        split; [exact Ht |]. split; [lia | eapply number_of_mono; eauto].
    + apply (ascending_app new1 new2 (cur_line st')); [| | exact Hasc2].
      * eapply Forall_impl; [exact Hall1 |]. now intros t (_ & Hline & _).
      * eapply Forall_impl; [exact Hall2 |]. cbn. intros t (_ & Hline & _). lia.
    + lia.
    + rewrite length_app. lia.
  - pose proof (skip_whitespace_length (source st) (cur_line st) (cur_col st)) as Hlen.
    pose proof (skip_whitespace_line (source st) (cur_line st) (cur_col st)) as Hline.
    destruct (_skip_whitespace (source st) (cur_line st) (cur_col st)) as [[src ln] cl].
    cbn [fst snd] in Hlen, Hline.
    exists []. cbn [tokens cur_line source]. rewrite app_nil_r.
    repeat split; [constructor | | lia | cbn; lia].
    intros i j t u _ Hi. now rewrite lookup_nil in Hi.
Qed.

Lemma length_list_ascii_of_string (s : string) :
  length (list_ascii_of_string s) = String.length s.
Proof. induction s as [| c s IH]; cbn; [reflexivity | now rewrite IH]. Qed.

(** *** Running the tokenizer on a given text *)

Lemma loop_stays (fuel : nat) (st : state) : source st = [] -> loop fuel st = st.
Proof.
  intros H. destruct fuel as [| fuel]; [reflexivity |].
  rewrite loop_unfold. unfold step. rewrite H. cbn. destruct st. cbn in H. now subst.
Qed.

Lemma loop_more (n : nat) :
  forall st more, source (loop n st) = [] -> loop (n + more) st = loop n st.
Proof.
  induction n as [| n IH]; intros st more H.
  - cbn in H |- *. now apply loop_stays.
  - cbn [Nat.add]. rewrite !loop_unfold in *.
    destruct (step st) as [st' |]; [now apply IH | reflexivity].
Qed.

(** The tokens of [text], from a run of the loop that exhausts it. *)
Lemma tokenize_run (text : string) (n : nat) (st : state) :
  loop n (mkState (list_ascii_of_string text) 1 1 []) = st -> source st = [] ->
  tokenize text
    = (tokens st ++ [mkToken EOF "" (cur_line st) (cur_col st)])%list.
Proof.
  intros Hrun Hsrc. unfold tokenize.
  set (src := list_ascii_of_string text) in *. set (st0 := mkState src 1 1 []) in *.
  assert (H : loop (S (length src)) st0 = st).
  { destruct (loop_exhausts (S (length src)) st0 ltac:(cbn; lia)) as [_ Hmore].
    rewrite <- (Hmore n), Nat.add_comm, <- Hrun.
    apply loop_more. now rewrite Hrun. }
  now rewrite H.
Qed.

End LexerRuns.

Section TokenizerProperties.
Import Lexer LexerFacts LexerNotions LexerRuns.

(** X1. The tokens of any text end with an [EOF] token, and no token before
    it is an [EOF]: the parser reaches the end at the last token and not
    before. *)
Theorem tokens_end_with_the_only_eof (text : string) :
  exists ts ln cl,
    tokenize text = (ts ++ [mkToken EOF "" ln cl])%list
    /\ Forall (fun t => type t <> EOF) ts.
Proof.
  unfold tokenize. set (st0 := mkState _ 1 1 []).
  destruct (loop_emits (S (length (source st0))) st0) as (new & Htok & Hall & _).
  exists new, (cur_line (loop (S (length (source st0))) st0)),
    (cur_col (loop (S (length (source st0))) st0)).
  cbn [source st0] in *. rewrite Htok. split; [reflexivity |].
  eapply Forall_impl; [exact Hall |]. now intros t [Ht _].
Qed.

(** X2. There are at most as many tokens as the text has characters, the
    [EOF] token apart. *)
Theorem at_most_one_token_for_each_character (text : string) :
  (length (tokenize text) <= String.length text + 1)%nat.
Proof.
  unfold tokenize. set (st0 := mkState _ 1 1 []).
  destruct (loop_emits (S (length (source st0))) st0) as (new & Htok & _ & _ & _ & Hn).
  cbn [source st0] in *. rewrite Htok, !length_app. cbn [length tokens st0].
  rewrite length_list_ascii_of_string in Hn. lia.
Qed.

(** X3. Lines are counted from 1 and the tokens are in the order of their
    lines: a token is on the line of the tokens before it or on a later
    one. *)
Theorem token_lines_never_decrease (text : string) (i j : nat) (t u : Token) :
  (i <= j)%nat -> tokenize text !! i = Some t -> tokenize text !! j = Some u ->
  1 <= line t <= line u.
Proof.
  intros Hij Hi Hj.
  unfold tokenize in Hi, Hj. set (st0 := mkState _ 1 1 []) in *.
  destruct (loop_emits (S (length (source st0))) st0)
    as (new & Htok & Hall & Hasc & Hl & _).
  cbn [source st0 tokens cur_line] in *. rewrite Htok in Hi, Hj. cbn [app] in Hi, Hj.
  set (last := mkToken EOF "" _ _) in *.
  assert (Hone : Forall (fun t => 1 <= line t) (new ++ [last])).
  { apply Forall_app. split.
    - eapply Forall_impl; [exact Hall |]. cbn. intros v (_ & Hv & _). lia.
    - constructor; [exact Hl | constructor]. }
  split; [rewrite Forall_lookup in Hone; eauto |].
  rewrite Forall_lookup in Hall.
  apply lookup_app_Some in Hi as [Hi | [Hi1 Hi]];
    apply lookup_app_Some in Hj as [Hj | [Hj1 Hj]].
  - eapply Hasc; eauto.
  - apply list_lookup_singleton_Some in Hj as [_ <-]. cbn [line last].
    now destruct (Hall _ _ Hi) as (_ & [_ H] & _).
  - apply lookup_lt_Some in Hj. lia.
  - apply list_lookup_singleton_Some in Hi as [_ <-].
    apply list_lookup_singleton_Some in Hj as [_ <-]. lia.
Qed.

End TokenizerProperties.

(** ** Literals *)

Module LiteralFacts.
Import Lexer Parser LexerRuns NumeralFacts.

Lemma list_ascii_of_string_app (s t : string) :
  list_ascii_of_string (s +:+ t) = (list_ascii_of_string s ++ list_ascii_of_string t)%list.
Proof. induction s as [| c s IH]; simpl; [reflexivity | now rewrite IH]. Qed.

(** A digit, and likewise a letter, starts no other kind of token. *)
Lemma digit_class (c : ascii) :
  isdigit c = true ->
  isspace c = false /\ Ascii.eqb c "|" = false /\ Ascii.eqb c "!" = false
  /\ Ascii.eqb c "&" = false /\ Ascii.eqb c "@" = false /\ Ascii.eqb c "#" = false
  /\ char_in c "{}[]():,-" = false /\ Ascii.eqb c "034" = false.
Proof.
  destruct c as [[|] [|] [|] [|] [|] [|] [|] [|]]; cbn; try discriminate; easy.
Qed.

Lemma alpha_class (c : ascii) :
  isalpha c = true ->
  isspace c = false /\ Ascii.eqb c "|" = false /\ Ascii.eqb c "!" = false
  /\ Ascii.eqb c "&" = false /\ Ascii.eqb c "@" = false /\ Ascii.eqb c "#" = false
  /\ char_in c "{}[]():,-" = false /\ Ascii.eqb c "034" = false
  /\ isdigit c = false.
Proof.
  destruct c as [[|] [|] [|] [|] [|] [|] [|] [|]]; cbn; try discriminate; easy.
Qed.

(** The turn of the loop at a character that is no white space. *)
Lemma step_at (c : ascii) (rest : list ascii) (ln cl : Z) (ts : list Token) :
  isspace c = false ->
  step (mkState (c :: rest) ln cl ts) =
    let st := mkState (c :: rest) ln cl ts in
    Some
      (if Ascii.eqb c "|"%char then _read_pipe st rest
       else if Ascii.eqb c "!"%char then _read_variable st rest
       else if Ascii.eqb c "&"%char then _read_assign st rest
       else if Ascii.eqb c "@"%char then _read_object_access st rest
       else if Ascii.eqb c "#"%char then _read_array_access st rest
       else if char_in c "{}[]():,-" then
         emit st rest (cl + 1) [mkToken SYMBOL (str [c]) ln cl]
       else if Ascii.eqb c "034"%char then _read_string st c rest
       else if isdigit c then _read_number st
       else if isalpha c then _read_identifier st
       else emit st rest (cl + 1) []).
Proof. intros H. unfold step. cbn [source cur_line cur_col _skip_whitespace]. now rewrite H. Qed.

(** A run of digits is read as one [NUMBER] token. *)
Lemma read_number_digits (ds rest : list ascii) (ln cl : Z) (ts : list Token) :
  ds <> [] -> forallb isdigit ds = true ->
  match rest with c :: _ => isdigit c || Ascii.eqb c "." = false | [] => True end ->
  step (mkState (ds ++ rest) ln cl ts)
    = Some (mkState rest ln (cl + len ds) (ts ++ [mkToken NUMBER (str ds) ln cl])).
Proof.
  intros Hne Hds Hrest. destruct ds as [| d ds]; [easy |].
  assert (Hd : isdigit d = true) by (cbn in Hds; now apply andb_true_iff in Hds).
  destruct (digit_class d Hd) as (Hs & H1 & H2 & H3 & H4 & H5 & H6 & H7).
  cbn [app]. rewrite (step_at d _ ln cl ts Hs). cbn zeta.
  rewrite H1, H2, H3, H4, H5, H6, H7, Hd.
  unfold _read_number. cbn [source].
  change (d :: (ds ++ rest)%list) with ((d :: ds) ++ rest)%list.
  rewrite (read_while_all (fun c => isdigit c || Ascii.eqb c ".") (d :: ds) rest).
  - unfold emit. cbn [cur_line cur_col tokens]. now rewrite Z.add_simpl_r.
  - rewrite List.forallb_forall in Hds |- *. intros c Hc. now rewrite (Hds c Hc).
  - exact Hrest.
Qed.

(** The number a run of digits denotes, when the conversion to [int] takes
    that many digits; it refuses more. *)
Lemma number_value_digits (ds : list ascii) :
  ds <> [] -> forallb isdigit ds = true -> (length ds <= int_max_str_digits)%nat ->
  number_value (str ds) = Return (VInt (digits_value ds)).
Proof.
  intros Hne Hds Hlen. destruct (digits_chars _ Hds) as (_ & _ & Hdot).
  unfold number_value, contains, str.
  rewrite list_ascii_of_string_of_list_ascii, Hdot, (int_of_digits ds Hne Hds).
  now replace (int_max_str_digits <? length ds)%nat with false
    by (symmetry; now apply Nat.ltb_ge).
Qed.

Lemma number_value_too_long (ds : list ascii) :
  forallb isdigit ds = true -> (int_max_str_digits < length ds)%nat ->
  exists msg, number_value (str ds) = raise ValueError msg.
Proof.
  intros Hds Hlen. destruct (digits_chars _ Hds) as (_ & _ & Hdot).
  assert (Hne : ds <> []) by (intros ->; cbn in Hlen; lia).
  unfold number_value, contains, str.
  rewrite list_ascii_of_string_of_list_ascii, Hdot, (int_of_digits ds Hne Hds).
  replace (int_max_str_digits <? length ds)%nat with true
    by (symmetry; now apply Nat.ltb_lt).
  eauto.
Qed.

(** The body of a string literal that has no quote and no backslash is read
    as it is, up to the quote that closes it or to the end of the text. *)
Lemma read_string_body_plain (q : ascii) (s : list ascii) :
  existsb (Ascii.eqb q) s = false -> existsb (Ascii.eqb "\") s = false ->
  read_string_body q (s ++ [q]) = (s, len s + 1, [])
  /\ read_string_body q s = (s, len s, []).
Proof.
  intros Hq Hb. induction s as [| c s IH].
  - cbn. now rewrite Ascii.eqb_refl.
  - cbn [existsb] in Hq, Hb.
    apply orb_false_iff in Hq as [Hq1 Hq2]. apply orb_false_iff in Hb as [Hb1 Hb2].
    destruct (IH Hq2 Hb2) as [IH1 IH2].
    rewrite Ascii.eqb_sym in Hq1. rewrite Ascii.eqb_sym in Hb1.
    assert (Hlen : len (c :: s) = len s + 1) by (unfold len; cbn [length]; lia).
    split.
    + cbn [app read_string_body]. rewrite Hq1, Hb1.
      destruct (s ++ [q])%list as [| e r'] eqn:E; [now destruct s |].
      rewrite IH1, Hlen. reflexivity.
    + cbn [read_string_body]. rewrite Hq1, Hb1.
      destruct s as [| e r']; [reflexivity |].
      rewrite IH2, Hlen. reflexivity.
Qed.

(** The digits of a decimal numeral, as characters. *)
Lemma uint_digits (d : Decimal.uint) :
  forallb isdigit (list_ascii_of_string (NilEmpty.string_of_uint d)) = true.
Proof. induction d; cbn [NilEmpty.string_of_uint list_ascii_of_string forallb]; auto. Qed.

Lemma uint_value_acc (d : Decimal.uint) :
  forall acc : positive,
    fold_left (fun a c => 10 * a + digit_value c)
      (list_ascii_of_string (NilEmpty.string_of_uint d)) (Zpos acc)
    = Zpos (Pos.of_uint_acc d acc).
Proof.
  induction d; intros acc;
    cbn [NilEmpty.string_of_uint list_ascii_of_string fold_left Pos.of_uint_acc];
    [reflexivity | ..];
    match goal with
    | |- fold_left _ _ ?x = Zpos (Pos.of_uint_acc _ ?p) =>
        replace x with (Zpos p)
          by (unfold digit_value;
              match goal with
              | |- context [nat_of_ascii ?c] =>
                  let v := eval vm_compute in (nat_of_ascii c) in
                  change (nat_of_ascii c) with v
              end; lia)
    end; apply IHd.
Qed.

Lemma uint_value (d : Decimal.uint) :
  digits_value (list_ascii_of_string (NilEmpty.string_of_uint d)) = Z.of_N (Pos.of_uint d).
Proof.
  unfold digits_value.
  induction d;
    cbn [NilEmpty.string_of_uint list_ascii_of_string fold_left Pos.of_uint];
    [reflexivity | exact IHd | ..];
    match goal with
    | |- fold_left _ _ ?x = Z.of_N (N.pos (Pos.of_uint_acc _ ?p)) =>
        replace x with (Zpos p) by reflexivity
    end; apply uint_value_acc.
Qed.

(** The text of a positive int: its digits, of which there is one at least. *)
Lemma decimal_of_pos (p : positive) :
  exists ds, decimal (Zpos p) = str ds /\ decimal (Zneg p) = "-" +:+ str ds
             /\ ds <> [] /\ forallb isdigit ds = true /\ digits_value ds = Zpos p.
Proof.
  exists (list_ascii_of_string (NilEmpty.string_of_uint (Pos.to_uint p))).
  pose proof (DecimalPos.Unsigned.to_uint_nonnil p) as Hnil.
  assert (Hs : NilZero.string_of_uint (Pos.to_uint p)
               = NilEmpty.string_of_uint (Pos.to_uint p))
    by (now destruct (Pos.to_uint p)).
  unfold decimal, str. cbn [Z.to_int NilZero.string_of_int].
  rewrite Hs, string_of_list_ascii_of_string.
  repeat split.
  - destruct (Pos.to_uint p); [easy | ..]; discriminate.
  - apply uint_digits.
  - now rewrite uint_value, DecimalPos.Unsigned.of_to.
Qed.

Lemma length_str (l : list ascii) : String.length (str l) = length l.
Proof. unfold str. induction l as [| c l IH]; cbn; [reflexivity | now rewrite IH]. Qed.

End LiteralFacts.

Section Literals.

Variable host_str : world -> pyvalue -> outcome string.
Variable host_call : host_op -> callable.

Import Lexer LexerRuns LiteralFacts.

Local Abbreviation run := (Main.run host_str host_call).
Local Abbreviation interpret := (Main.interpret host_str host_call).

(** A program that parses to one literal evaluates to its value. *)
Lemma run_literal (text : string) (v : pyvalue) (w : world) :
  Parser.parse (tokenize text) = Return [LiteralNode v] -> run text w = (Return v, w).
Proof. intros H. unfold Main.run. now rewrite H. Qed.

Lemma skip_whitespace_all (src : list ascii) :
  forallb isspace src = true ->
  forall ln cl, fst (fst (_skip_whitespace src ln cl)) = [].
Proof.
  induction src as [| c r IH]; intros H ln cl; [reflexivity |].
  cbn in H. apply andb_true_iff in H as [Hc Hr]. cbn. rewrite Hc.
  destruct (Ascii.eqb c "010"); now apply IH.
Qed.

(** Tokens that differ in how their positions are written. *)
Ltac positions :=
  repeat match goal with
         | |- _ :: _ = _ :: _ => f_equal
         | |- mkToken _ _ _ _ = mkToken _ _ _ _ => f_equal
         end;
  try reflexivity; try lia.

Lemma step_quote (rest : list ascii) (ln cl : Z) (ts : list Token) :
  step (mkState ("034"%char :: rest) ln cl ts)
    = Some (_read_string (mkState ("034"%char :: rest) ln cl ts) "034" rest).
Proof. reflexivity. Qed.

(** X4. A program of white space only, the empty program among them, has no
    token but [EOF]; it evaluates to [None], prints nothing and raises
    nothing. *)
Theorem blank_program (text : string) (w : world) :
  forallb isspace (list_ascii_of_string text) = true ->
  (exists ln cl, tokenize text = [mkToken EOF "" ln cl])
  /\ run text w = (Return VNone, w)
  /\ interpret text w = (Return VNone, w).
Proof.
  intros Hblank.
  assert (Htok : exists ln cl, tokenize text = [mkToken EOF "" ln cl]).
  { pose proof (skip_whitespace_all _ Hblank 1 1) as Hskip.
    set (st0 := mkState (list_ascii_of_string text) 1 1 []).
    assert (Hst : source (loop 1 st0) = [] /\ tokens (loop 1 st0) = []).
    { rewrite loop_unfold. unfold step. cbn [source cur_line cur_col tokens st0].
      destruct (_skip_whitespace (list_ascii_of_string text) 1 1) as [[src ln] cl].
      cbn in Hskip. subst src. now split. }
    destruct Hst as [Hsrc Hnone].
    rewrite (tokenize_run text 1 _ eq_refl Hsrc). fold st0. rewrite Hnone.
    eauto. }
  split; [exact Htok |].
  destruct Htok as (ln & cl & Htok).
  assert (Hrun : run text w = (Return VNone, w)) by (unfold Main.run; now rewrite Htok).
  split; [exact Hrun |]. unfold Main.interpret. now rewrite Hrun.
Qed.

(** X5. A string literal whose text has no double quote and no backslash is
    one [STRING] token and evaluates to its text, whatever characters it is
    made of; the quote that closes it may be missing at the end of the
    program. *)
Theorem string_literal (s : string) (w : world) :
  contains "034" s = false -> contains "\" s = false ->
  let n := Z.of_nat (String.length s) in
  tokenize (dquote +:+ s +:+ dquote)
    = [mkToken STRING s 1 3; mkToken EOF "" 1 (n + 3)]
  /\ tokenize (dquote +:+ s) = [mkToken STRING s 1 2; mkToken EOF "" 1 (n + 2)]
  /\ run (dquote +:+ s +:+ dquote) w = (Return (VStr s), w)
  /\ run (dquote +:+ s) w = (Return (VStr s), w).
Proof.
  intros Hq Hb n. unfold contains in Hq, Hb.
  destruct (read_string_body_plain "034" _ Hq Hb) as [Hclosed Hopen].
  assert (Hn : len (list_ascii_of_string s) = n)
    by (unfold len; now rewrite length_list_ascii_of_string).
  assert (H1 : tokenize (dquote +:+ s +:+ dquote)
               = [mkToken STRING s 1 3; mkToken EOF "" 1 (n + 3)]).
  { erewrite (tokenize_run _ 1); [| reflexivity |].
    - rewrite !list_ascii_of_string_app. cbn [dquote list_ascii_of_string app].
      rewrite loop_unfold, step_quote. unfold _read_string. rewrite Hclosed. cbn [loop emit tokens cur_line cur_col app].
      unfold str. rewrite string_of_list_ascii_of_string, Hn.
      positions.
    - rewrite !list_ascii_of_string_app. cbn [dquote list_ascii_of_string app].
      rewrite loop_unfold, step_quote. unfold _read_string. now rewrite Hclosed. }
  assert (H2 : tokenize (dquote +:+ s)
               = [mkToken STRING s 1 2; mkToken EOF "" 1 (n + 2)]).
  { erewrite (tokenize_run _ 1); [| reflexivity |].
    - rewrite !list_ascii_of_string_app. cbn [dquote list_ascii_of_string app].
      rewrite loop_unfold, step_quote. unfold _read_string. rewrite Hopen. cbn [loop emit tokens cur_line cur_col app].
      unfold str. rewrite string_of_list_ascii_of_string, Hn.
      positions.
    - rewrite !list_ascii_of_string_app. cbn [dquote list_ascii_of_string app].
      rewrite loop_unfold, step_quote. unfold _read_string. now rewrite Hopen. }
  split; [exact H1 |]. split; [exact H2 |].
  split; apply run_literal; [rewrite H1 | rewrite H2]; reflexivity.
Qed.


Lemma step_minus (rest : list ascii) (ln cl : Z) (ts : list Token) :
  step (mkState ("-"%char :: rest) ln cl ts)
    = Some (mkState rest ln (cl + 1) (ts ++ [mkToken SYMBOL "-" ln cl])).
Proof. reflexivity. Qed.

Lemma parse_number (t eof : Token) (v : pyvalue) :
  type t = NUMBER -> Parser.number_value (value t) = Return v -> type eof = EOF ->
  Parser.parse [t; eof] = Return [LiteralNode v].
Proof.
  intros Ht Hv He. unfold Parser.parse.
  cbn [length Nat.add Parser.parse_loop]. unfold Parser._is_at_end, Parser.is_type.
  cbn [Parser.current]. rewrite Ht. cbn [Parser._parse_expression Parser.current].
  rewrite Ht, Hv. cbn [obind Parser.advance tl app Parser.current]. now rewrite He.
Qed.

Lemma parse_number_raises (t eof : Token) (e : exn) :
  type t = NUMBER -> Parser.number_value (value t) = Raise e ->
  Parser.parse [t; eof] = Raise e.
Proof.
  intros Ht Hv. unfold Parser.parse.
  cbn [length Nat.add Parser.parse_loop]. unfold Parser._is_at_end, Parser.is_type.
  cbn [Parser.current]. rewrite Ht. cbn [Parser._parse_expression Parser.current].
  now rewrite Ht, Hv.
Qed.

Lemma parse_negative_number_raises (m t eof : Token) (e : exn) :
  type m = SYMBOL -> value m = "-" ->
  type t = NUMBER -> Parser.number_value (value t) = Raise e ->
  Parser.parse [m; t; eof] = Raise e.
Proof.
  intros Hm Hminus Ht Hv. unfold Parser.parse.
  cbn [length Nat.add Parser.parse_loop]. unfold Parser._is_at_end, Parser.is_type.
  cbn [Parser.current]. rewrite Hm. cbn [Parser._parse_expression Parser.current].
  rewrite Hm. unfold Parser.is_type. cbn [Parser.current Parser.advance tl].
  now rewrite Hm, Hminus, Ht, Hv.
Qed.

Lemma parse_negative_number (m t eof : Token) (v : pyvalue) :
  type m = SYMBOL -> value m = "-" ->
  type t = NUMBER -> Parser.number_value (value t) = Return v -> type eof = EOF ->
  Parser.parse [m; t; eof] = Return [LiteralNode (Parser.negate v)].
Proof.
  intros Hm Hminus Ht Hv He. unfold Parser.parse.
  cbn [length Nat.add Parser.parse_loop]. unfold Parser._is_at_end, Parser.is_type.
  cbn [Parser.current]. rewrite Hm. cbn [Parser._parse_expression Parser.current].
  rewrite Hm. unfold Parser.is_type. cbn [Parser.current Parser.advance tl].
  rewrite Hm, Hminus, Ht, Hv.
  cbn [String.eqb Ascii.eqb Bool.eqb andb obind Parser.advance tl app Parser.current].
  now rewrite He.
Qed.

Lemma tokenize_digits (ds : list ascii) :
  ds <> [] -> forallb isdigit ds = true ->
  tokenize (str ds) = [mkToken NUMBER (str ds) 1 1; mkToken EOF "" 1 (1 + len ds)].
Proof.
  intros Hne Hds.
  assert (Hrun : loop 1 (mkState (list_ascii_of_string (str ds)) 1 1 [])
                 = mkState [] 1 (1 + len ds) [mkToken NUMBER (str ds) 1 1]).
  { unfold str at 1. rewrite list_ascii_of_string_of_list_ascii.
    rewrite <- (app_nil_r ds) at 1.
    now rewrite loop_unfold, (read_number_digits ds [] 1 1 [] Hne Hds I). }
  now rewrite (tokenize_run _ 1 _ Hrun eq_refl).
Qed.

Lemma tokenize_minus_digits (ds : list ascii) :
  ds <> [] -> forallb isdigit ds = true ->
  tokenize ("-" +:+ str ds)
    = [mkToken SYMBOL "-" 1 1; mkToken NUMBER (str ds) 1 2;
       mkToken EOF "" 1 (2 + len ds)].
Proof.
  intros Hne Hds.
  assert (Hrun : loop 2 (mkState (list_ascii_of_string ("-" +:+ str ds)) 1 1 [])
                 = mkState [] 1 (2 + len ds)
                     [mkToken SYMBOL "-" 1 1; mkToken NUMBER (str ds) 1 2]).
  { rewrite list_ascii_of_string_app. unfold str at 1.
    rewrite list_ascii_of_string_of_list_ascii. cbn [list_ascii_of_string app].
    rewrite loop_unfold, step_minus. rewrite <- (app_nil_r ds) at 1.
    now rewrite loop_unfold, (read_number_digits ds [] 1 (1 + 1) _ Hne Hds I). }
  now rewrite (tokenize_run _ 2 _ Hrun eq_refl).
Qed.

Lemma run_raises (text : string) (e : exn) (w : world) :
  Parser.parse (tokenize text) = Raise e -> run text w = (Raise e, w).
Proof. intros H. unfold Main.run. now rewrite H. Qed.

Lemma run_digits (ds : list ascii) (w : world) :
  ds <> [] -> forallb isdigit ds = true -> (length ds <= int_max_str_digits)%nat ->
  run (str ds) w = (Return (VInt (digits_value ds)), w)
  /\ run ("-" +:+ str ds) w = (Return (VInt (- digits_value ds)), w).
Proof.
  intros Hne Hds Hlen. pose proof (number_value_digits ds Hne Hds Hlen) as Hv.
  split; apply run_literal;
    [rewrite (tokenize_digits ds Hne Hds) | rewrite (tokenize_minus_digits ds Hne Hds)].
  - now apply parse_number.
  - now apply (parse_negative_number _ _ _ (VInt (digits_value ds))).
Qed.

Lemma run_too_many_digits (ds : list ascii) (w : world) :
  forallb isdigit ds = true -> (int_max_str_digits < length ds)%nat ->
  exists msg,
    run (str ds) w = (raise ValueError msg, w)
    /\ run ("-" +:+ str ds) w = (raise ValueError msg, w).
Proof.
  intros Hds Hlen. destruct (number_value_too_long ds Hds Hlen) as (msg & Hv).
  assert (Hne : ds <> []) by (intros ->; cbn in Hlen; lia).
  exists msg. split; apply run_raises;
    [rewrite (tokenize_digits ds Hne Hds) | rewrite (tokenize_minus_digits ds Hne Hds)].
  - now apply parse_number_raises.
  - now apply parse_negative_number_raises.
Qed.

(** X6. A run of decimal digits is one [NUMBER] token. When the digits are
    4300 at most, it evaluates to the int they denote, leading zeros
    allowed, and with a minus sign before it to the opposite. When they are
    more, the conversion to [int] refuses them and the program raises
    [ValueError], with the minus sign as without it. *)
Theorem integer_literal (ds : list ascii) (w : world) :
  ds <> [] -> forallb isdigit ds = true ->
  tokenize (str ds) = [mkToken NUMBER (str ds) 1 1; mkToken EOF "" 1 (1 + len ds)]
  /\ ((length ds <= int_max_str_digits)%nat ->
      run (str ds) w = (Return (VInt (digits_value ds)), w)
      /\ run ("-" +:+ str ds) w = (Return (VInt (- digits_value ds)), w))
  /\ ((int_max_str_digits < length ds)%nat ->
      exists msg,
        run (str ds) w = (raise ValueError msg, w)
        /\ run ("-" +:+ str ds) w = (raise ValueError msg, w)).
Proof.
  intros Hne Hds. split; [now apply tokenize_digits |].
  split; intros Hlen; [now apply run_digits | now apply run_too_many_digits].
Qed.

(** X7. [str] of an int whose decimal text has 4300 digits at most, the sign
    not counted, returns that text, and the text, read as a program,
    evaluates to the int. [str] of an int of more digits raises
    [ValueError]. *)
Theorem int_round_trip (z : Z) (w : world) :
  ((String.length (decimal (Z.abs z)) <= int_max_str_digits)%nat ->
   str_of_int z = Return (decimal z)
   /\ run (decimal z) w = (Return (VInt z), w))
  /\ ((int_max_str_digits < String.length (decimal (Z.abs z)))%nat ->
      exists msg, str_of_int z = raise ValueError msg).
Proof.
  unfold str_of_int. split; intros Hlen.
  - replace (int_max_str_digits <? _)%nat with false
      by (symmetry; now apply Nat.ltb_ge).
    split; [reflexivity |].
    destruct z as [| p | p].
    + apply run_literal. reflexivity.
    + destruct (decimal_of_pos p) as (ds & Hpos & _ & Hne & Hds & Hval).
      change (Z.abs _) with (Zpos p) in Hlen. rewrite Hpos, length_str in Hlen.
      rewrite Hpos, <- Hval. now apply run_digits.
    + destruct (decimal_of_pos p) as (ds & Hpos & Hneg & Hne & Hds & Hval).
      change (Z.abs _) with (Zpos p) in Hlen. rewrite Hpos, length_str in Hlen.
      rewrite Hneg. change (Zneg p) with (- Zpos p). rewrite <- Hval.
      now apply run_digits.
  - replace (int_max_str_digits <? _)%nat with true
      by (symmetry; now apply Nat.ltb_lt).
    eauto.
Qed.

(** The text of a word: a letter, then letters, digits, underscores and
    hyphens. *)
Lemma tokenize_word (c : ascii) (r : list ascii) :
  isalpha c = true -> forallb (name_char "_-") r = true ->
  let word := str (c :: r) in
  tokenize word
    = [mkToken (if is_keyword word then KEYWORD else IDENT) word 1 1;
       mkToken EOF "" 1 (1 + len (c :: r))].
Proof.
  intros Hc Hr word.
  destruct (alpha_class c Hc) as (Hs & H1 & H2 & H3 & H4 & H5 & H6 & H7 & H8).
  assert (Hrun : loop 1 (mkState (list_ascii_of_string word) 1 1 [])
                 = mkState [] 1 (1 + len (c :: r))
                     [mkToken (if is_keyword word then KEYWORD else IDENT) word 1 1]).
  { unfold word, str at 1. rewrite list_ascii_of_string_of_list_ascii.
    rewrite loop_unfold, (step_at c r 1 1 [] Hs). cbn zeta.
    rewrite H1, H2, H3, H4, H5, H6, H7, H8, Hc.
    unfold _read_identifier. cbn [source].
    rewrite <- (app_nil_r (c :: r)) at 1.
    rewrite (read_while_all (name_char "_-") (c :: r) []); [| | exact I].
    - cbn [loop emit cur_line cur_col tokens app]. now rewrite Z.add_simpl_r.
    - cbn [forallb]. unfold name_char at 1, isalnum. now rewrite Hc, Hr. }
  now rewrite (tokenize_run _ 1 _ Hrun eq_refl).
Qed.

Lemma parse_word (t eof : Token) :
  type eof = EOF ->
  (type t = IDENT -> Parser.parse [t; eof] = Return [LiteralNode (VStr (value t))])
  /\ (type t = KEYWORD ->
      Parser.parse [t; eof]
        = Return [LiteralNode (if String.eqb (value t) "true" then VBool true
                               else if String.eqb (value t) "false" then VBool false
                               else VNone)]).
Proof.
  intros He. split; intros Ht; unfold Parser.parse;
    cbn [length Nat.add Parser.parse_loop]; unfold Parser._is_at_end, Parser.is_type;
    cbn [Parser.current]; rewrite Ht; cbn [Parser._parse_expression Parser.current];
    rewrite Ht; cbn [obind Parser.advance tl app Parser.current]; now rewrite He.
Qed.

(** X8. A word that is no keyword is a string literal, not the name of a
    variable: the program made of it evaluates to its text. The keywords
    [true], [false] and [null] evaluate to [True], [False] and [None]. *)
Theorem bare_word (c : ascii) (r : list ascii) (w : world) :
  isalpha c = true -> forallb (name_char "_-") r = true ->
  let word := str (c :: r) in
  run word w
    = (Return (if String.eqb word "true" then VBool true
               else if String.eqb word "false" then VBool false
               else if String.eqb word "null" then VNone
               else VStr word), w).
Proof.
  intros Hc Hr word. apply run_literal. unfold word.
  rewrite (tokenize_word c r Hc Hr). fold word.
  set (eof := mkToken EOF _ _ _).
  destruct (parse_word (mkToken KEYWORD word 1 1) eof eq_refl) as [_ Hk].
  destruct (parse_word (mkToken IDENT word 1 1) eof eq_refl) as [Hi _].
  specialize (Hk eq_refl). specialize (Hi eq_refl). cbn [value] in Hk, Hi.
  unfold is_keyword.
  destruct (String.eqb word "true"); [exact Hk |].
  destruct (String.eqb word "false"); [exact Hk |].
  destruct (String.eqb word "null"); [exact Hk | exact Hi].
Qed.

End Literals.

(** ** What the parser builds *)

Module ParserShapes.
Import Lexer Parser ParserFacts.

Lemma parse_expression_literal (fuel : nat) (ts : list Token) (node : ASTNode)
    (ts' : list Token) :
  is_type ts PIPE = false -> is_type ts VAR_GET = false ->
  _parse_expression fuel ts = Return (node, ts') -> is_literal node = true.
Proof.
  intros Hp Hv. destruct fuel as [| fuel]; [discriminate |].
  cbn [_parse_expression]. unfold is_type in Hp, Hv.
  destruct (type (current ts)) eqn:Ht; try discriminate;
    try (intros [= <- _]; reflexivity).
  all: unfold is_type; rewrite ?Ht; cbn [andb];
    repeat match goal with
           | |- context [if ?b then _ else _] => destruct b
           end;
    try (intros [= <- _]; reflexivity);
    try (destruct (number_value _); cbn; [intros [= <- _]; reflexivity | easy | easy]).
Qed.

Lemma parse_pipe_args_literals (fuel : nat) :
  forall ts args r ts',
    forallb is_literal args = true ->
    _parse_pipe_args fuel ts args = Return (r, ts') -> forallb is_literal r = true.
Proof.
  induction fuel as [| fuel IH]; intros ts args r ts' Hargs; [discriminate |].
  cbn [_parse_pipe_args].
  destruct (negb (_is_at_end ts) && _) eqn:Hloop; [| now intros [= <- _]].
  apply andb_true_iff in Hloop as [_ Hstop]. apply negb_true_iff in Hstop.
  apply orb_false_iff in Hstop as [Hstop _].
  apply orb_false_iff in Hstop as [Hstop Hv].
  apply orb_false_iff in Hstop as [Hp _].
  destruct (String.eqb (value (current ts)) ":"); [now apply IH |].
  destruct (_parse_expression fuel ts) as [[arg ts1] | e |] eqn:He; cbn; [| easy | easy].
  apply IH. rewrite forallb_app, Hargs. cbn.
  now rewrite (parse_expression_literal _ _ _ _ Hp Hv He).
Qed.

Lemma parse_pipe_flat (fuel : nat) (ts : list Token) (node : ASTNode) (ts' : list Token) :
  _parse_pipe fuel ts = Return (node, ts') -> flat_expression node = true.
Proof.
  destruct fuel as [| fuel]; [discriminate |]. cbn [_parse_pipe].
  destruct (_parse_pipe_args fuel (advance ts) []) as [[args ts1] | e |] eqn:Ha;
    cbn; [| easy | easy].
  intros [= <- _]. cbn. now apply (parse_pipe_args_literals _ _ [] _ _ eq_refl Ha).
Qed.

Lemma parse_expression_flat (fuel : nat) (ts : list Token) (node : ASTNode)
    (ts' : list Token) :
  _parse_expression fuel ts = Return (node, ts') -> flat_expression node = true.
Proof.
  intros H. destruct (is_type ts PIPE) eqn:Hp.
  - destruct fuel as [| fuel]; [discriminate |]. cbn [_parse_expression] in H.
    unfold is_type in Hp. destruct (type (current ts)); try discriminate.
    now apply parse_pipe_flat in H.
  - destruct (is_type ts VAR_GET) eqn:Hv.
    + destruct fuel as [| fuel]; [discriminate |]. cbn [_parse_expression] in H.
      unfold is_type in Hv. destruct (type (current ts)); try discriminate.
      now injection H as <- _.
    + apply parse_expression_literal in H; [| exact Hp | exact Hv].
      now destruct node.
Qed.

Lemma flat_expression_statement (node : ASTNode) :
  flat_expression node = true -> flat_statement node = true.
Proof. now destruct node. Qed.

Lemma parse_loop_flat (fuel : nat) :
  forall ts nodes r,
    forallb flat_statement nodes = true ->
    parse_loop fuel ts nodes = Return r -> forallb flat_statement r = true.
Proof.
  induction fuel as [| fuel IH]; intros ts nodes r Hnodes; [discriminate |].
  cbn [parse_loop]. destruct (_is_at_end ts); [now intros [= <-] |].
  set (stmt := if is_type ts PIPE then _ else _).
  assert (Hstmt : forall node ts', stmt = Return (node, ts') -> flat_statement node = true).
  { subst stmt. intros node ts'.
    destruct (is_type ts PIPE).
    { intros H. now apply flat_expression_statement, (parse_pipe_flat _ _ _ _ H). }
    destruct (is_type ts ASSIGN).
    { unfold _parse_assign.
      destruct (_parse_expression fuel _) as [[val ts1] | e |] eqn:He; cbn;
        [| easy | easy].
      intros [= <- _]. cbn. now apply (parse_expression_flat _ _ _ _ He). }
    destruct (is_type ts VAR_GET); [now intros [= <- _] |].
    intros H. now apply flat_expression_statement, (parse_expression_flat _ _ _ _ H). }
  destruct stmt as [[node ts'] | e |]; cbn; [| easy | easy].
  apply IH. rewrite forallb_app, Hnodes. cbn. now rewrite (Hstmt node ts' eq_refl).
Qed.

(** Every statement takes one token at least. *)
Lemma parse_loop_length (fuel : nat) :
  forall ts nodes r, (length ts + 5 <= fuel)%nat ->
    parse_loop fuel ts nodes = Return r ->
    (length r <= length nodes + length ts)%nat.
Proof.
  induction fuel as [| fuel IH]; intros ts nodes r Hfuel; [lia |].
  cbn [parse_loop].
  destruct (_is_at_end ts) eqn:Hend; [intros [= <-]; lia |].
  destruct (not_at_end_cons ts Hend) as (t & rest & Hts).
  set (stmt := if is_type ts PIPE then _ else _).
  assert (Hstmt : yields ts (advance ts) stmt).
  { subst stmt.
    destruct (is_type ts PIPE); [apply parse_pipe_yields; lia |].
    destruct (is_type ts ASSIGN); [apply parse_assign_yields; lia |].
    destruct (is_type ts VAR_GET); [apply parse_variable_yields |].
    apply parse_expression_yields. lia. }
  destruct stmt as [[node ts'] | e |]; cbn in Hstmt |- *; [| easy | easy].
  assert (Hlt : (length ts' < length ts)%nat).
  { apply suffix_length_advance; [exact Hstmt | now rewrite Hts]. }
  intros H. apply IH in H; [| lia]. rewrite length_app in H. cbn in H. lia.
Qed.

End ParserShapes.

Section ParserProperties.
Import Lexer Parser ParserFacts ParserShapes LexerNotions LexerRuns.

(** X9. In what [parse] returns, the arguments of a call are literals: a
    call ends where a variable, a call or an assignment begins, so no
    argument is a variable or the result of a call. A statement is a
    literal, a variable, such a call, or the assignment of one of these. *)
Theorem call_arguments_are_literals (tokens : list Token) (nodes : list ASTNode) :
  parse tokens = Return nodes -> forallb flat_statement nodes = true.
Proof. intros H. now apply (parse_loop_flat _ _ [] _ eq_refl H). Qed.

(** X10. Every statement takes one token at least: [parse] returns no more
    statements than there are tokens. *)
Theorem no_more_statements_than_tokens (tokens : list Token) (nodes : list ASTNode) :
  parse tokens = Return nodes -> (length nodes <= length tokens)%nat.
Proof. intros H. apply parse_loop_length in H; [exact H | lia]. Qed.

(** The runs of digits of a text, and the digits of a part of it. *)
Lemma digit_runs_tail (n : nat) (pre l : list ascii) :
  forall k, digit_runs_within n k (pre ++ l) = true ->
            exists k', digit_runs_within n k' l = true.
Proof.
  induction pre as [| c pre IH]; intros k H; [now exists k |].
  cbn [app digit_runs_within] in H. destruct (isdigit c).
  - apply andb_true_iff in H as [_ H]. now apply (IH (S k)).
  - now apply (IH 0%nat).
Qed.

Lemma digit_runs_head (n : nat) (v post : list ascii) :
  forallb isdigit v = true ->
  forall k, digit_runs_within n k (v ++ post) = true ->
            v = [] \/ (k + length v <= n)%nat.
Proof.
  intros Hv. induction v as [| c v IH]; intros k H; [now left |]. right.
  cbn [forallb] in Hv. apply andb_true_iff in Hv as [Hc Hv].
  cbn [app digit_runs_within] in H. rewrite Hc in H.
  apply andb_true_iff in H as [Hk H]. apply Nat.leb_le in Hk.
  destruct (IH Hv (S k) H) as [-> | Hlen]; cbn [length]; lia.
Qed.

Lemma digit_runs_infix (n : nat) (pre v post : list ascii) :
  digit_runs_within n 0 (pre ++ v ++ post) = true -> forallb isdigit v = true ->
  (length v <= n)%nat.
Proof.
  intros H Hv. destruct (digit_runs_tail n pre _ _ H) as (k & Hk).
  destruct (digit_runs_head n v post Hv k Hk) as [-> | Hlen]; cbn [length]; lia.
Qed.

(** X11. A program of ASCII characters that has no dot in it and no run of
    more than 4300 digits is parsed: the parser fails on a number only, the
    tokenizer makes the numbers of such a program of digits, and the
    conversion to [int] takes that many. *)
Theorem programs_without_a_dot_are_parsed (text : string) :
  ascii_text text = true ->
  contains "." text = false ->
  digit_runs_within int_max_str_digits 0 (list_ascii_of_string text) = true ->
  exists nodes, parse (tokenize text) = Return nodes.
Proof.
  intros _ Hdot Hruns. unfold contains in Hdot.
  assert (Hplain : forallb plain_number (tokenize text) = true).
  { unfold tokenize. set (st0 := mkState _ 1 1 []).
    destruct (loop_emits (S (length (source st0))) st0) as (new & Htok & Hall & _).
    cbn [source st0 tokens] in *. rewrite Htok. cbn [app].
    rewrite forallb_app. cbn. rewrite andb_true_r.
    apply List.forallb_forall. intros t Ht.
    rewrite List.Forall_forall in Hall. destruct (Hall t Ht) as (_ & _ & Hnum).
    unfold plain_number. destruct (type t) eqn:Hty; try reflexivity.
    destruct (Hnum Hty) as (pre & v & post & -> & Hne & Hsrc & Hv).
    assert (Hds : forallb isdigit v = true).
    { apply List.forallb_forall. intros c Hc.
      rewrite List.forallb_forall in Hv. specialize (Hv c Hc).
      destruct (Ascii.eqb c ".") eqn:E; [| now rewrite orb_false_r in Hv].
      apply Ascii.eqb_eq in E. subst c.
      assert (existsb (Ascii.eqb ".") (list_ascii_of_string text) = true).
      { apply existsb_exists. exists "."%char. split; [| reflexivity].
        rewrite Hsrc. apply in_or_app. right. apply in_or_app. now left. }
      congruence. }
    rewrite Hsrc in Hruns. pose proof (digit_runs_infix _ _ _ _ Hruns Hds) as Hlen.
    unfold numeral, str. rewrite list_ascii_of_string_of_list_ascii.
    rewrite (NumeralFacts.span_digits_all v Hds).
    apply andb_true_iff. split; [now destruct v | now apply Nat.leb_le]. }
  pose proof (parse_parses (tokenize text)) as H.
  destruct (parse (tokenize text)) as [nodes | e |]; cbn in H; [eauto | | easy].
  destruct H as [_ H]. now rewrite (plain_numbers_well_formed _ Hplain) in H.
Qed.

End ParserProperties.

(** ** Programs and variables *)

Section EvaluatorProperties.

Variable host_str : world -> pyvalue -> outcome string.
Variable host_call : host_op -> callable.

Local Abbreviation built_in_functions := (Runtime.built_in_functions host_str host_call).
Local Abbreviation find_function := (Interpreter.find_function host_str host_call).
Local Abbreviation visit := (Interpreter.visit host_str host_call).
Local Abbreviation execute := (Interpreter.execute host_str host_call).
Local Abbreviation run := (Main.run host_str host_call).
Local Abbreviation interpret := (Main.interpret host_str host_call).

Lemma foldM_app {S A B} (f : B -> A -> comp S B) (l1 l2 : list A) :
  forall acc s,
    foldM f acc (l1 ++ l2) s =
      match foldM f acc l1 s with
      | (Return v, s1) => foldM f v l2 s1
      | (Raise e, s1) => (Raise e, s1)
      | (Diverge, s1) => (Diverge, s1)
      end.
Proof.
  induction l1 as [| x l1 IH]; intros acc s; [reflexivity |].
  cbn [app foldM]. unfold bind.
  destruct (f acc x s) as [[v | e |] s1]; [apply IH | reflexivity | reflexivity].
Qed.

(** X12. The statements of a program execute in order, each in the state
    the one before it left: a program in two parts is the first part, then
    the second in the state the first left, whose value is that of the
    program when it has a statement. When a statement fails the ones after
    it do not execute and what the ones before it did remains. *)
Theorem execution_is_sequential (p1 p2 : list ASTNode) (s : state) :
  execute (p1 ++ p2) s =
    match execute p1 s with
    | (Return v, s1) =>
        match p2 with
        | [] => (Return v, s1)
        | _ => execute p2 s1
        end
    | (Raise e, s1) => (Raise e, s1)
    | (Diverge, s1) => (Diverge, s1)
    end.
Proof.
  unfold Interpreter.execute. rewrite foldM_app.
  destruct (foldM _ VNone p1 s) as [[v | e |] s1]; try reflexivity.
  destruct p2 as [| node p2]; reflexivity.
Qed.

Lemma execute_cons (node : ASTNode) (nodes : list ASTNode) (s : state) :
  execute (node :: nodes) s =
    match visit node s with
    | (Return v, s1) =>
        match nodes with
        | [] => (Return v, s1)
        | _ => execute nodes s1
        end
    | (Raise e, s1) => (Raise e, s1)
    | (Diverge, s1) => (Diverge, s1)
    end.
Proof.
  unfold Interpreter.execute. cbn [foldM]. unfold bind.
  destruct (Interpreter.visit host_str host_call node s) as [[v | e |] s1];
    try reflexivity.
  destruct nodes; reflexivity.
Qed.

(** X13. An assignment to [x] leaves the other variables as they are, and a
    second assignment to [x] replaces the first: after [&x:<v1>] and
    [&y:<v2>], [!x] is [v1]; after [&x:<v1>] and [&x:<v2>], [!x] is [v2]. *)
Theorem assignments_are_independent (x y : string) (v1 v2 : pyvalue) (s : state) :
  x <> y ->
  (forall v, fst (visit (VariableNode y) (assigned x v s)) = fst (visit (VariableNode y) s))
  /\ fst (execute [AssignNode x (LiteralNode v1); AssignNode y (LiteralNode v2);
                   VariableNode x] s) = Return v1
  /\ fst (execute [AssignNode x (LiteralNode v1); AssignNode x (LiteralNode v2);
                   VariableNode x] s) = Return v2.
Proof.
  intros Hxy. split; [| split].
  - intros v. rewrite !(visit_variable_unfold host_str host_call). cbn [fst assigned runtime locals globals].
    now rewrite lookup_insert_ne.
  - rewrite execute_cons.
    change (visit (AssignNode x (LiteralNode v1)) s) with (Return v1, assigned x v1 s).
    cbn iota. rewrite execute_cons.
    change (visit (AssignNode y (LiteralNode v2)) (assigned x v1 s))
      with (Return v2, assigned y v2 (assigned x v1 s)).
    cbn iota. rewrite execute_cons, (visit_variable_unfold host_str host_call). cbn [fst assigned runtime locals].
    rewrite lookup_insert_ne by congruence. now rewrite lookup_insert_eq.
  - rewrite execute_cons.
    change (visit (AssignNode x (LiteralNode v1)) s) with (Return v1, assigned x v1 s).
    cbn iota. rewrite execute_cons.
    change (visit (AssignNode x (LiteralNode v2)) (assigned x v1 s))
      with (Return v2, assigned x v2 (assigned x v1 s)).
    cbn iota. rewrite execute_cons, (visit_variable_unfold host_str host_call). cbn [fst assigned runtime locals].
    now rewrite lookup_insert_eq.
Qed.

(** X14. No program defines a function: whatever has been executed from a
    new runtime, the names that can be called are those of the registry, and
    a call of any other name raises [NameError]. *)
Theorem only_the_registry_is_callable (nodes : list ASTNode) (w : world)
    (func_name : string) (args : list ASTNode) :
  assoc func_name built_in_functions = None ->
  let s := snd (execute nodes (mkIState new_runtime w)) in
  functions (runtime s) = ∅
  /\ visit (PipeNode func_name args) s
     = (Raise (Exn NameError ("Function not found: " +:+ func_name)), s).
Proof.
  intros Hb s.
  assert (Hf : functions (runtime s) = ∅).
  { subst s. now rewrite (proj2 (execute_same_tables _ _ nodes _)). }
  split; [exact Hf |].
  rewrite (visit_pipe_unfold host_str host_call). unfold Interpreter.find_function. now rewrite Hb, Hf, lookup_empty.
Qed.

(** X15. [if] chooses between values: its arguments are evaluated before
    it is called, both branches whatever the condition, and it returns the
    value of the branch the condition selects, [None] for a false branch
    that is not given. *)
Theorem if_evaluates_both_branches (c t f : ASTNode) (s s' : state) (vc vt vf : pyvalue) :
  mapM visit [c; t; f] s = (Return [vc; vt; vf], s') ->
  visit (PipeNode "if" [c; t; f]) s
    = (Return (if truthy (the_world s') vc then vt else vf), s')
  /\ (forall s2, mapM visit [c; t] s = (Return [vc; vt], s2) ->
      visit (PipeNode "if" [c; t]) s
        = (Return (if truthy (the_world s2) vc then vt else VNone), s2)).
Proof.
  intros Hargs. split.
  - rewrite (visit_pipe_unfold host_str host_call).
    change (find_function (runtime s) "if") with (Some (_builtin_if)).
    rewrite Hargs. unfold call_function, in_world, _builtin_if, method, def, bind, is_true.
    cbn [length nth Nat.leb andb Nat.add].
    destruct s' as [rt w']. cbn [the_world runtime].
    destruct (truthy w' vc); reflexivity.
  - intros s2 Hargs2. rewrite (visit_pipe_unfold host_str host_call).
    change (find_function (runtime s) "if") with (Some (_builtin_if)).
    rewrite Hargs2. unfold call_function, in_world, _builtin_if, method, def, bind, is_true.
    cbn [length nth Nat.leb andb Nat.add].
    destruct s2 as [rt w']. cbn [the_world runtime].
    destruct (truthy w' vc); reflexivity.
Qed.

(** X16. A node in which nothing is called evaluates to a value: nothing
    fails, nothing is printed and no list changes; only [locals] may. *)
Theorem nodes_without_calls_are_pure (node : ASTNode) (s : state) :
  call_free node = true ->
  exists v s', visit node s = (Return v, s')
               /\ the_world s' = the_world s
               /\ globals (runtime s') = globals (runtime s).
Proof.
  revert s. induction node as [v | name | func_name args _ | x value IH]
    using ASTNode_ind; intros s Hfree.
  - exists v, s. now repeat split.
  - eexists _, s. rewrite (visit_variable_unfold host_str host_call). now repeat split.
  - discriminate.
  - destruct (IH s Hfree) as (v & s1 & Hv & Hw & Hg).
    exists v, (assigned x v s1).
    rewrite (visit_assign_unfold host_str host_call), Hv. now repeat split.
Qed.

End EvaluatorProperties.

(** ** Built-in functions *)

Section Sums.

Variable host_call : host_op -> callable.

Lemma sum_of_ints (zs : list Z) :
  forall acc w,
    foldM py_add (VInt acc) (map VInt zs) w = (Return (VInt (fold_left Z.add zs acc)), w).
Proof.
  induction zs as [| z zs IH]; intros acc w; [reflexivity |].
  cbn [map foldM fold_left]. unfold bind. cbn [py_add as_number num_add arith lift].
  apply IH.
Qed.

Lemma product_of_ints (zs : list Z) :
  forall acc w,
    foldM (py_mul host_call) (VInt acc) (map VInt zs) w
      = (Return (VInt (fold_left Z.mul zs acc)), w).
Proof.
  induction zs as [| z zs IH]; intros acc w; [reflexivity |].
  cbn [map foldM fold_left]. unfold bind. cbn [py_mul as_number num_mul arith lift].
  apply IH.
Qed.

End Sums.


Module FloatFacts.

(** Shifting a mantissa to the right by fewer places than it has digits
    leaves a mantissa that is not zero. *)
Lemma shr_1_digits (m : positive) (r s : bool) :
  (1 < digits2_pos m)%positive ->
  exists m', shr_m (shr_1 (Build_shr_record (Zpos m) r s)) = Zpos m'
             /\ Zpos (digits2_pos m') = Zpos (digits2_pos m) - 1.
Proof.
  destruct m as [q | q |]; cbn [shr_1 shr_m digits2_pos]; [| | lia];
    intros _; exists q; split; try reflexivity; lia.
Qed.

Lemma iter_shr_1_digits (p : positive) :
  forall (mrs : shr_record) (m : positive),
    shr_m mrs = Zpos m -> (p < digits2_pos m)%positive ->
    exists m', shr_m (SpecFloat.iter_pos shr_1 p mrs) = Zpos m'
               /\ Zpos (digits2_pos m') = Zpos (digits2_pos m) - Zpos p.
Proof.
  induction p as [p IH | p IH |]; intros mrs m Hm Hp; cbn [SpecFloat.iter_pos].
  - destruct mrs as [m0 r s]. cbn in Hm. subst m0.
    destruct (shr_1_digits m r s ltac:(lia)) as (m1 & H1 & D1).
    destruct (IH _ m1 H1 ltac:(lia)) as (m2 & H2 & D2).
    destruct (IH _ m2 H2 ltac:(lia)) as (m3 & H3 & D3).
    exists m3. split; [exact H3 | lia].
  - destruct (IH _ m Hm ltac:(lia)) as (m2 & H2 & D2).
    destruct (IH _ m2 H2 ltac:(lia)) as (m3 & H3 & D3).
    exists m3. split; [exact H3 | lia].
  - destruct mrs as [m0 r s]. cbn in Hm. subst m0.
    apply shr_1_digits. lia.
Qed.

Lemma shr_fexp_positive (m : positive) (e : Z) (l : location) :
  -1074 <= e ->
  exists m', shr_m (fst (shr_fexp prec emax (Zpos m) e l)) = Zpos m'
             /\ e <= snd (shr_fexp prec emax (Zpos m) e l).
Proof.
  intros He. unfold shr_fexp, shr, fexp, emin, prec, emax.
  change IntDef.Z.max with Z.max. cbn [Zdigits2].
  assert (Hrec : shr_m (shr_record_of_loc (Zpos m) l) = Zpos m)
    by (destruct l as [| []]; reflexivity).
  destruct (Z.max (Z.pos (digits2_pos m) + e - 53) (3 - 1024 - 53) - e) as [| p | p] eqn:En;
    cbn [fst snd]; try (exists m; split; [exact Hrec | lia]).
  destruct (iter_shr_1_digits p _ m Hrec ltac:(lia)) as (m' & Hm' & _).
  exists m'. split; [exact Hm' | lia].
Qed.

(** Rounding a mantissa that is not zero at an exponent in range gives a
    float that is not zero, of the sign asked for. *)
Lemma binary_round_aux_nonzero (sx : bool) (m : positive) (e : Z) (l : location) :
  -1074 <= e ->
  match binary_round_aux prec emax sx (Zpos m) e l with
  | S754_finite s _ _ | S754_infinity s => s = sx
  | _ => False
  end.
Proof.
  intros He. unfold binary_round_aux.
  destruct (shr_fexp_positive m e l He) as (m1 & H1 & He1).
  destruct (shr_fexp prec emax (Zpos m) e l) as [mrs1 e1]. cbn [fst snd] in H1, He1.
  rewrite H1.
  assert (Hround : exists m2, round_nearest_even (Zpos m1) (loc_of_shr_record mrs1) = Zpos m2).
  { unfold round_nearest_even.
    destruct (loc_of_shr_record mrs1) as [| []];
      try destruct (IntDef.Z.even (Zpos m1)); eexists; reflexivity. }
  destruct Hround as (m2 & ->).
  destruct (shr_fexp_positive m2 e1 loc_Exact ltac:(lia)) as (m3 & H3 & _).
  destruct (shr_fexp prec emax (Zpos m2) e1 loc_Exact) as [mrs2 e2]. cbn [fst] in H3.
  rewrite H3. now destruct (e2 <=? emax - prec).
Qed.

Lemma binary_round_nonzero (sx : bool) (m : positive) :
  match binary_round prec emax sx m 0 with
  | S754_finite s _ _ | S754_infinity s => s = sx
  | _ => False
  end.
Proof.
  unfold binary_round, shl_align.
  assert (Hf : -1074 <= fexp prec emax (Zpos (digits2_pos m) + 0)).
  { unfold fexp, emin, prec, emax. change IntDef.Z.max with Z.max. lia. }
  destruct (fexp prec emax (Zpos (digits2_pos m) + 0) - 0) as [| p | p] eqn:E;
    apply binary_round_aux_nonzero; lia.
Qed.

(** The float of an int that is not zero is not zero, and has its sign. *)
Lemma float_of_int_nonzero (z : Z) (f : float) :
  z <> 0 -> float_of_int z = Return f ->
  is_fzero f = false /\ fneg f = (z <? 0).
Proof.
  intros Hz. unfold float_of_int, binary_normalize.
  destruct z as [| m | m]; [easy | |].
  - pose proof (binary_round_nonzero false m) as H.
    destruct (binary_round prec emax false m 0); try easy; intros [= <-]; now subst.
  - pose proof (binary_round_nonzero true m) as H.
    destruct (binary_round prec emax true m 0); try easy; intros [= <-]; now subst.
Qed.

(** The number of binary digits of a mantissa. *)
Lemma digits_below (m : positive) :
  forall k, 0 <= k -> Zpos m < 2 ^ k -> Zpos (digits2_pos m) <= k.
Proof.
  induction m as [m IH | m IH |]; intros k Hk Hm; cbn [digits2_pos];
    (destruct (Z.eq_dec k 0) as [-> | Hk0]; [cbn in Hm; lia |]);
    [| | lia];
    replace k with (Z.succ (k - 1)) in Hm by lia;
    rewrite Z.pow_succ_r in Hm by lia;
    specialize (IH (k - 1) ltac:(lia) ltac:(lia)); lia.
Qed.

Lemma digits_succ (m : positive) :
  Zpos (digits2_pos (Pos.succ m)) <= Zpos (digits2_pos m) + 1.
Proof. induction m as [m IH | m IH |]; simpl; lia. Qed.

Lemma digits_shifted (p m : positive) :
  Zpos (digits2_pos (Pos.iter xO m p)) = Zpos (digits2_pos m) + Zpos p.
Proof.
  induction p as [| p IH] using Pos.peano_ind; [cbn; lia |].
  rewrite Pos.iter_succ. cbn [digits2_pos]. lia.
Qed.

(** What [shr_fexp] leaves of a mantissa and where it puts the exponent. *)
Lemma shr_fexp_digits (m : positive) (e : Z) (l : location) :
  -1074 <= e ->
  exists m', shr_m (fst (shr_fexp prec emax (Zpos m) e l)) = Zpos m'
             /\ snd (shr_fexp prec emax (Zpos m) e l)
                = Z.max e (Zpos (digits2_pos m) + e - 53)
             /\ Zpos (digits2_pos m') + snd (shr_fexp prec emax (Zpos m) e l)
                = Zpos (digits2_pos m) + e.
Proof.
  intros He. unfold shr_fexp, shr, fexp, emin, prec, emax.
  change IntDef.Z.max with Z.max. cbn [Zdigits2].
  assert (Hrec : shr_m (shr_record_of_loc (Zpos m) l) = Zpos m)
    by (destruct l as [| []]; reflexivity).
  destruct (Z.max (Z.pos (digits2_pos m) + e - 53) (3 - 1024 - 53) - e) as [| p | p] eqn:En;
    cbn [fst snd]; try (exists m; split; [exact Hrec | lia]).
  destruct (iter_shr_1_digits p _ m Hrec ltac:(lia)) as (m' & Hm' & Hd).
  exists m'. split; [exact Hm' | lia].
Qed.

Lemma round_nearest_even_digits (m : positive) (l : location) :
  exists m', round_nearest_even (Zpos m) l = Zpos m'
             /\ Zpos (digits2_pos m') <= Zpos (digits2_pos m) + 1.
Proof.
  assert (Hup : exists m', Zpos m + 1 = Zpos m'
                           /\ Zpos (digits2_pos m') <= Zpos (digits2_pos m) + 1).
  { exists (Pos.succ m). split; [lia | apply digits_succ]. }
  unfold round_nearest_even.
  destruct l as [| []]; try destruct (IntDef.Z.even (Zpos m));
    try exact Hup; exists m; split; (reflexivity || lia).
Qed.

(** Rounding a mantissa below [2 ^ 1023] does not overflow. *)
Lemma binary_round_aux_finite (sx : bool) (m : positive) (e : Z) (l : location) :
  -1074 <= e <= 971 -> Zpos (digits2_pos m) + e <= 1023 ->
  exists m' e', binary_round_aux prec emax sx (Zpos m) e l = S754_finite sx m' e'.
Proof.
  intros He Hd. unfold binary_round_aux.
  destruct (shr_fexp_digits m e l ltac:(lia)) as (m1 & H1 & He1 & Hd1).
  destruct (shr_fexp prec emax (Zpos m) e l) as [mrs1 e1]. cbn [fst snd] in H1, He1, Hd1.
  rewrite H1.
  destruct (round_nearest_even_digits m1 (loc_of_shr_record mrs1)) as (m2 & -> & Hd2).
  destruct (shr_fexp_digits m2 e1 loc_Exact ltac:(lia)) as (m3 & H3 & He3 & _).
  destruct (shr_fexp prec emax (Zpos m2) e1 loc_Exact) as [mrs2 e2].
  cbn [fst snd] in H3, He3. rewrite H3.
  replace (e2 <=? emax - prec) with true
    by (symmetry; apply Z.leb_le; unfold emax, prec; lia).
  eauto.
Qed.

Lemma binary_round_finite (sx : bool) (m : positive) :
  Zpos (digits2_pos m) <= 1023 ->
  exists m' e', binary_round prec emax sx m 0 = S754_finite sx m' e'.
Proof.
  intros Hd. unfold binary_round, shl_align, fexp, emin, prec, emax.
  change IntDef.Z.max with Z.max.
  destruct (Z.max (Z.pos (digits2_pos m) + 0 - 53) (3 - 1024 - 53) - 0)
    as [| p | p] eqn:E;
    apply binary_round_aux_finite; try rewrite digits_shifted; lia.
Qed.

(** An int strictly between [- 2 ^ 1023] and [2 ^ 1023] has a float, which
    is finite and has its sign. *)
Lemma float_of_int_in_range (z : Z) :
  - 2 ^ 1023 < z < 2 ^ 1023 -> z <> 0 ->
  exists m e, float_of_int z = Return (S754_finite (z <? 0) m e).
Proof.
  intros Hz Hz0. unfold float_of_int, binary_normalize.
  destruct z as [| m | m]; [easy | |].
  - destruct (binary_round_finite false m) as (m' & e' & ->); [| eauto].
    apply digits_below; lia.
  - destruct (binary_round_finite true m) as (m' & e' & ->); [| eauto].
    apply digits_below; lia.
Qed.

End FloatFacts.

Section BuiltinProperties.

Variable host_str : world -> pyvalue -> outcome string.
Variable host_call : host_op -> callable.

Local Abbreviation builtin_mul := (Runtime.builtin_mul host_call).
Local Abbreviation builtin_mod := (Runtime.builtin_mod host_call).
Local Abbreviation _builtin_log := (Runtime._builtin_log host_str).
Local Abbreviation builtin_concat := (Runtime.builtin_concat host_str).
Local Abbreviation builtin_uppercase := (Runtime.builtin_uppercase host_str).
Local Abbreviation builtin_lowercase := (Runtime.builtin_lowercase host_str).
Local Abbreviation builtin_trim := (Runtime.builtin_trim host_str).
Local Abbreviation builtin_tostring := (Runtime.builtin_tostring host_str).
Local Abbreviation py_str := (Runtime.py_str host_str).

(** ** Sums and products *)

(** X17. On any number of ints [add] returns their sum and [mul] their
    product, and nothing else happens; with no argument [add] returns [0],
    and so does [mul], for which the product of no number is not [1]. *)
Theorem add_and_mul_on_ints (zs : list Z) (w : world) :
  builtin_add (map VInt zs) w = (Return (VInt (fold_left Z.add zs 0)), w)
  /\ builtin_mul (map VInt zs) w
     = (Return (VInt match zs with [] => 0 | _ => fold_left Z.mul zs 1 end), w).
Proof.
  split; [apply sum_of_ints |].
  destruct zs as [| z zs]; [reflexivity |]. apply (product_of_ints host_call (z :: zs)).
Qed.

(** ** Division and square root *)

Lemma float_of_int_cases (z : Z) :
  (exists f, float_of_int z = Return f)
  \/ float_of_int z = raise OverflowError "int too large to convert to float".
Proof.
  unfold float_of_int. destruct (binary_normalize prec emax z 0 false); eauto.
Qed.

Lemma int_truediv_cases (i j : Z) :
  j <> 0 ->
  (exists f, int_truediv i j = Return f)
  \/ exists msg, int_truediv i j = raise OverflowError msg.
Proof.
  intros Hj. unfold int_truediv.
  destruct i, j; try easy; eauto;
    match goal with |- context [float_of_quotient ?s ?n ?d] =>
      destruct (float_of_quotient s n d); eauto
    end.
Qed.

(** X18. On two numbers [div] and [mod] never fail with a division by
    zero: they return, or raise the [OverflowError] of an int too large for
    a float; nothing else changes. *)
Theorem div_and_mod_never_divide_by_zero (a b : pyvalue) (x y : number) (w : world) :
  as_number a = Some x -> as_number b = Some y ->
  at_worst_overflow w (builtin_div [a; b] w)
  /\ at_worst_overflow w (builtin_mod [a; b] w).
Proof.
  intros Ha Hb.
  unfold at_worst_overflow, builtin_div, Runtime.builtin_mod, lambda, def, ne_zero,
    py_truediv, Runtime.py_mod.
  cbn [length nth Nat.leb andb Nat.add]. rewrite Ha, Hb.
  destruct (num_nonzero y) eqn:Hy; [| now repeat split].
  unfold lift. cbn [fst snd].
  assert (Hfloat : forall j g, num_nonzero (NInt j) = true ->
            float_of_int j = Return g -> is_fzero g = false).
  { intros j g Hj Hg. apply negb_true_iff, Z.eqb_neq in Hj.
    now destruct (FloatFacts.float_of_int_nonzero j g Hj Hg). }
  split; (split; [reflexivity |]).
  - destruct x as [i | f], y as [j | g]; cbn [num_truediv arith to_float obind].
    + apply negb_true_iff, Z.eqb_neq in Hy.
      destruct (int_truediv_cases i j Hy) as [[q ->] | [msg ->]]; now cbn.
    + apply negb_true_iff in Hy.
      destruct (float_of_int_cases i) as [[q ->] | ->]; cbn; [now rewrite Hy | easy].
    + destruct (float_of_int_cases j) as [[q Hq] | ->]; [| now cbn].
      rewrite Hq. cbn. now rewrite (Hfloat j q Hy Hq).
    + apply negb_true_iff in Hy. cbn. now rewrite Hy.
  - assert (Hrem : forall p q, is_fzero q = false ->
              match float_rem p q with Return _ => True | _ => False end).
    { intros p q Hq. unfold float_rem. rewrite Hq.
      destruct (is_fzero (fmod p q)); [easy |].
      now destruct (xorb (fneg q) (fneg (fmod p q))). }
    destruct x as [i | f], y as [j | g]; cbn [num_mod arith to_float obind].
    + cbn [num_nonzero] in Hy. apply negb_true_iff in Hy. now rewrite Hy.
    + apply negb_true_iff in Hy.
      destruct (float_of_int_cases i) as [[q ->] | ->]; cbn; [| easy].
      specialize (Hrem q g Hy). now destruct (float_rem q g).
    + destruct (float_of_int_cases j) as [[q Hq] | ->]; [| now cbn].
      rewrite Hq. cbn. specialize (Hrem f q (Hfloat j q Hy Hq)).
      now destruct (float_rem f q).
    + apply negb_true_iff in Hy. specialize (Hrem f g Hy). cbn.
      now destruct (float_rem f g).
Qed.

(** X19. [sqrt] of a float below zero, minus infinity included, raises
    [ValueError] with the message [math domain error], and so does [sqrt] of
    an int below zero and above [- 2 ^ 1023], [-4] for one. Of any int
    below zero it raises that, or the [OverflowError] of an int too large
    for a float. The zero float of either sign is not below zero: [sqrt]
    returns it as it is. Nothing else changes. *)
Theorem sqrt_of_a_negative_number (w : world) :
  (forall a f, as_number a = Some (NFloat f) -> fneg f = true ->
     builtin_sqrt [a] w = (Raise (Exn ValueError "math domain error"), w))
  /\ (forall a z, as_number a = Some (NInt z) -> - 2 ^ 1023 < z < 0 ->
        builtin_sqrt [a] w = (Raise (Exn ValueError "math domain error"), w))
  /\ (forall a z, as_number a = Some (NInt z) -> z < 0 ->
        builtin_sqrt [a] w = (Raise (Exn ValueError "math domain error"), w)
        \/ builtin_sqrt [a] w
           = (Raise (Exn OverflowError "int too large to convert to float"), w))
  /\ (forall s, builtin_sqrt [VFloat (S754_zero s)] w
                = (Return (VFloat (S754_zero s)), w)).
Proof.
  assert (Hsqrt : forall a x, as_number a = Some x ->
            builtin_sqrt [a] w
            = match to_float x with
              | Return f => if fneg f
                            then (Raise (Exn ValueError "math domain error"), w)
                            else (Return (VFloat (SFsqrt prec emax f)), w)
              | Raise e => (Raise e, w)
              | Diverge => (Diverge, w)
              end).
  { intros a x Ha. unfold builtin_sqrt, lambda, def, bind, lift.
    cbn [length nth Nat.leb andb Nat.add]. rewrite Ha.
    destruct (to_float x) as [f | e |]; [| reflexivity | reflexivity].
    now destruct (fneg f). }
  split; [| split; [| split]].
  - intros a f Ha Hneg. rewrite (Hsqrt a _ Ha). cbn [to_float]. now rewrite Hneg.
  - intros a z Ha Hz. rewrite (Hsqrt a _ Ha). cbn [to_float].
    destruct (FloatFacts.float_of_int_in_range z) as (m & e & ->); [lia | lia |].
    replace (z <? 0) with true by (symmetry; now apply Z.ltb_lt). reflexivity.
  - intros a z Ha Hz. rewrite (Hsqrt a _ Ha). cbn [to_float].
    destruct (float_of_int_cases z) as [[q Hq] | ->]; [| now right].
    rewrite Hq. destruct (FloatFacts.float_of_int_nonzero z q ltac:(lia) Hq) as [_ ->].
    replace (z <? 0) with true by (symmetry; now apply Z.ltb_lt). now left.
  - intros s. now rewrite (Hsqrt (VFloat (S754_zero s)) (NFloat (S754_zero s)) eq_refl).
Qed.

(** ** Text *)

Lemma texts_leave_the_world (args : list pyvalue) (w : world) :
  snd (mapM py_str args w) = w.
Proof.
  induction args as [| a args IH]; [reflexivity |].
  cbn [mapM]. unfold bind at 1.
  assert (Ha : snd (py_str a w) = w) by (now destruct a).
  destruct (py_str a w) as [[t | e |] w1]; cbn in Ha; subst w1; try reflexivity.
  unfold bind. destruct (mapM py_str args w) as [[ts | e |] w1]; cbn in IH; now subst w1.
Qed.

Lemma texts_of_strings (ss : list string) (w : world) :
  mapM py_str (map VStr ss) w = (Return ss, w).
Proof.
  induction ss as [| s ss IH]; [reflexivity |].
  cbn [map mapM]. unfold bind at 1. cbn [Runtime.py_str ret]. unfold bind. now rewrite IH.
Qed.

(** X20. [log] prints one line, the texts of its arguments with a space
    between them, and returns [None]; when the text of an argument cannot
    be had nothing is printed. [concat] returns the texts one after the
    other and prints nothing. On strings the texts are the strings. *)
Theorem log_prints_one_line (args : list pyvalue) (w : world) :
  (forall texts, fst (mapM py_str args w) = Return texts ->
     _builtin_log args w = (Return VNone, written (endl (String.concat " " texts)) w)
     /\ builtin_concat args w = (Return (VStr (String.concat "" texts)), w))
  /\ (forall e, fst (mapM py_str args w) = Raise e ->
        _builtin_log args w = (Raise e, w) /\ builtin_concat args w = (Raise e, w))
  /\ (forall ss, args = map VStr ss -> fst (mapM py_str args w) = Return ss).
Proof.
  assert (Hstr : forall ss, args = map VStr ss -> fst (mapM py_str args w) = Return ss)
    by (intros ss ->; now rewrite texts_of_strings).
  pose proof (texts_leave_the_world args w) as Hw.
  unfold Runtime._builtin_log, Runtime.builtin_concat, bind in *.
  destruct (mapM py_str args w) as [[ts | e |] w1]; cbn in Hw; subst w1.
  all: split; [| split; [| exact Hstr]]; cbn [fst];
    try (intros ? [= <-]; now split); easy.
Qed.


Lemma case_of_a_character (c : ascii) :
  upper (upper c) = upper c /\ lower (upper c) = lower c /\ upper (lower c) = upper c.
Proof. destruct c as [[|] [|] [|] [|] [|] [|] [|] [|]]; now vm_compute. Qed.

Lemma length_string_of_list_ascii (l : list ascii) :
  String.length (string_of_list_ascii l) = length l.
Proof. induction l as [| c l IH]; cbn; [reflexivity | now rewrite IH]. Qed.

Lemma map_str_map_str (f g : ascii -> ascii) (s : string) :
  map_str f (map_str g s) = map_str (fun c => f (g c)) s.
Proof.
  unfold map_str. now rewrite list_ascii_of_string_of_list_ascii, map_map.
Qed.

Lemma map_str_ext (f g : ascii -> ascii) (s : string) :
  (forall c, f c = g c) -> map_str f s = map_str g s.
Proof. intros H. unfold map_str. f_equal. now apply map_ext. Qed.

(** X21. On a string of ASCII characters, [uppercase] and [lowercase] keep
    the length; a second [uppercase] changes nothing, and [lowercase] after
    [uppercase] is [lowercase], as [uppercase] after [lowercase] is
    [uppercase]. *)
Theorem case_functions_compose (s : string) (w : world) :
  ascii_text s = true ->
  let u := map_str upper s in
  let d := map_str lower s in
  builtin_uppercase [VStr s] w = (Return (VStr u), w)
  /\ builtin_lowercase [VStr s] w = (Return (VStr d), w)
  /\ builtin_uppercase [VStr u] w = (Return (VStr u), w)
  /\ builtin_lowercase [VStr u] w = (Return (VStr d), w)
  /\ builtin_uppercase [VStr d] w = (Return (VStr u), w)
  /\ String.length u = String.length s /\ String.length d = String.length s
  /\ ascii_text u = true /\ ascii_text d = true.
Proof.
  intros Hascii u d.
  assert (Hup : forall t, builtin_uppercase [VStr t] w = (Return (VStr (map_str upper t)), w))
    by reflexivity.
  assert (Hlow : forall t, builtin_lowercase [VStr t] w = (Return (VStr (map_str lower t)), w))
    by reflexivity.
  assert (Hkeep : forall f, (forall c, is_ascii c = true -> is_ascii (f c) = true) ->
            ascii_text (map_str f s) = true).
  { intros f Hf. unfold ascii_text, map_str in *.
    rewrite list_ascii_of_string_of_list_ascii.
    rewrite List.forallb_forall in Hascii. apply List.forallb_forall.
    intros c (b & <- & Hb)%in_map_iff. auto. }
  rewrite !Hup, !Hlow. unfold u, d. rewrite !map_str_map_str.
  rewrite (map_str_ext (fun c => upper (upper c)) upper s)
    by (intros c; apply case_of_a_character).
  rewrite (map_str_ext (fun c => lower (upper c)) lower s)
    by (intros c; apply case_of_a_character).
  rewrite (map_str_ext (fun c => upper (lower c)) upper s)
    by (intros c; apply case_of_a_character).
  repeat split;
    try (apply Hkeep; intros c;
         destruct c as [[|] [|] [|] [|] [|] [|] [|] [|]]; now vm_compute);
    unfold map_str;
    now rewrite length_string_of_list_ascii, length_map, <- length_string_of_list_ascii,
      string_of_list_ascii_of_string.
Qed.

(** What [drop_while] drops: the longest prefix whose characters satisfy
    [p]. *)
Lemma drop_while_split (p : ascii -> bool) (l : list ascii) :
  exists k, l = (k ++ drop_while p l)%list /\ forallb p k = true
            /\ match drop_while p l with c :: _ => p c = false | [] => True end.
Proof.
  induction l as [| c l (k & Hl & Hk & Hd)]; [now exists [] |].
  cbn [drop_while]. destruct (p c) eqn:E.
  - exists (c :: k). cbn. rewrite E, Hk. now rewrite <- Hl.
  - now exists [].
Qed.

Lemma drop_while_fixed (p : ascii -> bool) (l : list ascii) :
  match l with c :: _ => p c = false | [] => True end -> drop_while p l = l.
Proof. destruct l as [| c l]; [reflexivity |]. cbn. now intros ->. Qed.

(** What [strip_by] keeps: the text between the longest prefix and the
    longest suffix whose characters satisfy [p]. *)
Lemma strip_by_split (p : ascii -> bool) (l : list ascii) :
  exists a b, l = (a ++ strip_by p l ++ b)%list
              /\ forallb p a = true /\ forallb p b = true
              /\ match strip_by p l with c :: _ => p c = false | [] => True end
              /\ match rev (strip_by p l) with c :: _ => p c = false | [] => True end.
Proof.
  unfold strip_by.
  destruct (drop_while_split p l) as (a & Hl & Ha & Hm).
  set (m := drop_while p l) in *.
  destruct (drop_while_split p (rev m)) as (k & Hr & Hk & Hn).
  set (n := drop_while p (rev m)) in *.
  assert (Hm' : m = (rev n ++ rev k)%list)
    by (rewrite <- rev_app_distr, <- Hr; now rewrite rev_involutive).
  exists a, (rev k). rewrite rev_involutive.
  split; [now rewrite <- Hm' |].
  split; [exact Ha |].
  split; [apply List.forallb_forall; intros c Hc; apply in_rev in Hc;
          rewrite List.forallb_forall in Hk; auto |].
  split; [| exact Hn].
  destruct (rev n) as [| c r] eqn:E; [exact I |].
  rewrite Hm' in Hm. exact Hm.
Qed.

Lemma strip_by_idempotent (p : ascii -> bool) (l : list ascii) :
  strip_by p (strip_by p l) = strip_by p l.
Proof.
  destruct (strip_by_split p l) as (a & b & _ & _ & _ & Hhd & Hlast).
  unfold strip_by at 1.
  rewrite (drop_while_fixed p (strip_by p l) Hhd).
  now rewrite (drop_while_fixed p (rev (strip_by p l)) Hlast), rev_involutive.
Qed.

(** X22. [trim] of a string returns what is between the white space at its
    start and the white space at its end: the result neither starts nor ends
    with white space, and a second [trim] changes nothing. *)
Theorem trim_strips_both_ends (s : string) (w : world) :
  let t := str_strip s in
  builtin_trim [VStr s] w = (Return (VStr t), w)
  /\ builtin_trim [VStr t] w = (Return (VStr t), w)
  /\ exists a b,
       list_ascii_of_string s = (a ++ list_ascii_of_string t ++ b)%list
       /\ forallb isspace a = true /\ forallb isspace b = true
       /\ match list_ascii_of_string t with
          | c :: _ => isspace c = false
          | [] => True
          end
       /\ match rev (list_ascii_of_string t) with
          | c :: _ => isspace c = false
          | [] => True
          end.
Proof.
  intros t.
  assert (Htrim : forall r, builtin_trim [VStr r] w = (Return (VStr (str_strip r)), w))
    by reflexivity.
  rewrite !Htrim. split; [reflexivity |]. split.
  - unfold t, str_strip.
    now rewrite list_ascii_of_string_of_list_ascii, strip_by_idempotent.
  - unfold t, str_strip. rewrite list_ascii_of_string_of_list_ascii.
    apply strip_by_split.
Qed.

(** ** Lists *)

Lemma deref_stored (w : world) (l : loc) (xs ys : list pyvalue) :
  heap w !! l = Some xs ->
  deref (set_heap (<[l := ys]> (heap w)) w) l = ys
  /\ forall l', l' <> l -> deref (set_heap (<[l := ys]> (heap w)) w) l' = deref w l'.
Proof.
  intros Hl. apply lookup_lt_Some in Hl. unfold deref, set_heap. cbn [heap]. split.
  - now rewrite list_lookup_insert_eq.
  - intros l' Hne. now rewrite list_lookup_insert_ne.
Qed.

Lemma stored_back (w : world) (l : loc) (xs ys : list pyvalue) :
  heap w !! l = Some xs ->
  set_heap (<[l := xs]> (heap (set_heap (<[l := ys]> (heap w)) w)))
           (set_heap (<[l := ys]> (heap w)) w) = w.
Proof.
  intros Hl. unfold set_heap. cbn [heap stdout stdin host_state].
  rewrite list_insert_insert_eq, (list_insert_id _ _ _ Hl). now destruct w.
Qed.

(** X23. [push] and [unshift] change the list they are given and return
    that very list, with the value at its end or at its start; the other
    lists are as they were. [pop] after [push], and [shift] after
    [unshift], return the value and leave everything as it was before. *)
Theorem push_then_pop (l : loc) (w : world) (xs : list pyvalue) (v : pyvalue) :
  heap w !! l = Some xs ->
  let w1 := snd (builtin_push [VList l; v] w) in
  let w2 := snd (builtin_unshift [VList l; v] w) in
  fst (builtin_push [VList l; v] w) = Return (VList l)
  /\ deref w1 l = (xs ++ [v])%list
  /\ (forall l', l' <> l -> deref w1 l' = deref w l')
  /\ builtin_pop [VList l] w1 = (Return v, w)
  /\ fst (builtin_unshift [VList l; v] w) = Return (VList l)
  /\ deref w2 l = v :: xs
  /\ (forall l', l' <> l -> deref w2 l' = deref w l')
  /\ builtin_shift [VList l] w2 = (Return v, w).
Proof.
  intros Hl w1 w2.
  assert (Hd : deref w l = xs) by (unfold deref; now rewrite Hl).
  assert (H1 : w1 = set_heap (<[l := (xs ++ [v])%list]> (heap w)) w)
    by (unfold w1, builtin_push, lambda, def, store; cbn; now rewrite Hd).
  assert (H2 : w2 = set_heap (<[l := v :: xs]> (heap w)) w)
    by (unfold w2, builtin_unshift, lambda, def, store; cbn; now rewrite Hd).
  destruct (deref_stored w l xs (xs ++ [v]) Hl) as [Hget1 Hother1].
  destruct (deref_stored w l xs (v :: xs) Hl) as [Hget2 Hother2].
  rewrite H1, H2. repeat split; try assumption.
  - unfold builtin_pop, lambda, def, bind, is_true, truthy, store.
    cbn [length nth Nat.leb andb Nat.add snd]. rewrite !Hget1, length_app.
    cbn [length]. replace (length xs + 1 =? 0)%nat with false
      by (symmetry; apply Nat.eqb_neq; lia).
    cbn [negb]. rewrite !Hget1, last_last, removelast_last. f_equal.
    now apply stored_back.
  - unfold builtin_shift, lambda, def, bind, is_true, truthy, store.
    cbn [length nth Nat.leb andb Nat.add snd]. rewrite !Hget2.
    cbn [length Nat.eqb negb]. rewrite !Hget2. cbn [hd tl]. f_equal.
    now apply stored_back.
Qed.

(** X24. Given a value that is no list, [push] and [unshift] raise
    [AttributeError], as [pop] and [shift] do when the value is true; when
    it is false ([None], [False], [0], [0.0] and the empty string), [pop]
    and [shift] return [None]. Nothing changes. *)
Theorem list_functions_on_other_values (a v : pyvalue) (w : world) :
  (forall l, a <> VList l) ->
  let no_attribute name :=
    Raise (Exn AttributeError
             ("'" +:+ type_name a +:+ "' object has no attribute '" +:+ name +:+ "'")) in
  builtin_push [a; v] w = (no_attribute "append", w)
  /\ builtin_unshift [a; v] w = (no_attribute "insert", w)
  /\ builtin_pop [a] w = (if truthy w a then no_attribute "pop" else Return VNone, w)
  /\ builtin_shift [a] w = (if truthy w a then no_attribute "pop" else Return VNone, w).
Proof.
  intros Ha.
  unfold builtin_push, builtin_unshift, builtin_pop, builtin_shift, lambda, def, bind,
    is_true.
  cbn [length nth Nat.leb andb Nat.add].
  destruct a as [| b | z | f | s | l]; try (now destruct (Ha l));
    repeat split; try reflexivity; cbn [truthy];
    match goal with |- context [if ?c then _ else _] => destruct c end; reflexivity.
Qed.

(** X25. [reverse] returns a new list and leaves the one it is given as it
    is: the new list has the elements in reverse order, and reversing it
    again gives a third list, with the elements in the order of the first.
    The reverse of the reverse of a string is the string. *)
Theorem reverse_makes_a_new_list (l : loc) (w : world) (xs : list pyvalue) (s : string) :
  heap w !! l = Some xs ->
  let l1 := length (heap w) in
  let w1 := snd (builtin_reverse [VList l] w) in
  let l2 := S l1 in
  let w2 := snd (builtin_reverse [VList l1] w1) in
  fst (builtin_reverse [VList l] w) = Return (VList l1)
  /\ l1 <> l /\ deref w1 l = xs /\ deref w1 l1 = rev xs
  /\ fst (builtin_reverse [VList l1] w1) = Return (VList l2)
  /\ deref w2 l = xs /\ deref w2 l1 = rev xs /\ deref w2 l2 = xs
  /\ exists r, builtin_reverse [VStr s] w = (Return (VStr r), w)
               /\ builtin_reverse [VStr r] w = (Return (VStr s), w).
Proof.
  intros Hl l1 w1 l2 w2.
  pose proof (lookup_lt_Some _ _ _ Hl) as Hlt.
  assert (Hd : deref w l = xs) by (unfold deref; now rewrite Hl).
  assert (H1 : w1 = set_heap (heap w ++ [rev xs]) w)
    by (unfold w1, builtin_reverse, lambda, def, alloc; cbn; now rewrite Hd).
  assert (Hd1 : deref w1 l1 = rev xs).
  { rewrite H1. unfold deref, set_heap, l1. cbn [heap].
    now rewrite lookup_app_r, Nat.sub_diag by lia. }
  assert (Hd0 : deref w1 l = xs).
  { rewrite H1. unfold deref, set_heap. cbn [heap]. rewrite lookup_app_l by lia.
    exact Hd. }
  assert (Hlen : length (heap w1) = l2)
    by (rewrite H1; unfold set_heap; cbn [heap]; rewrite length_app; cbn; lia).
  assert (H2 : w2 = set_heap (heap w1 ++ [xs]) w1).
  { unfold w2, builtin_reverse, lambda, def, alloc.
    cbn [length nth Nat.leb andb Nat.add snd]. now rewrite Hd1, rev_involutive. }
  split; [reflexivity |]. split; [unfold l1; lia |].
  split; [exact Hd0 |]. split; [exact Hd1 |].
  split; [unfold builtin_reverse, lambda, def, alloc;
          cbn [length nth Nat.leb andb Nat.add fst]; now rewrite Hlen |].
  rewrite H2. unfold deref, set_heap in *. cbn [heap] in *.
  assert (Hlen1 : (l1 < length (heap w1))%nat) by (rewrite Hlen; unfold l2; lia).
  split; [now rewrite lookup_app_l by lia |].
  split; [now rewrite lookup_app_l by lia |].
  split; [rewrite lookup_app_r by lia; now replace (l2 - length (heap w1))%nat with 0%nat by lia |].
  eexists. split; [reflexivity |].
  unfold builtin_reverse, lambda, def. cbn.
  now rewrite list_ascii_of_string_of_list_ascii, rev_involutive,
    string_of_list_ascii_of_string.
Qed.

End BuiltinProperties.

(** ** Calls and assignments in the text of a program *)

Section Programs.

Variable host_str : world -> pyvalue -> outcome string.
Variable host_call : host_op -> callable.

Import Lexer LexerNotions LexerRuns LiteralFacts.

Local Abbreviation built_in_functions := (Runtime.built_in_functions host_str host_call).
Local Abbreviation execute := (Interpreter.execute host_str host_call).
Local Abbreviation run := (Main.run host_str host_call).
Local Abbreviation interpret := (Main.interpret host_str host_call).

Lemma step_pipe (rest : list ascii) (ln cl : Z) (ts : list Token) :
  step (mkState ("|"%char :: rest) ln cl ts)
    = Some (_read_pipe (mkState ("|"%char :: rest) ln cl ts) rest).
Proof. reflexivity. Qed.

Lemma step_colon (rest : list ascii) (ln cl : Z) (ts : list Token) :
  step (mkState (":"%char :: rest) ln cl ts)
    = Some (mkState rest ln (cl + 1) (ts ++ [mkToken SYMBOL ":" ln cl])).
Proof. reflexivity. Qed.

(** The name of a call is read up to the first character that is no letter,
    digit, underscore or hyphen. *)
Lemma read_pipe_name (name rest : list ascii) (ln cl : Z) (ts : list Token) :
  forallb (name_char "_-") name = true ->
  match rest with c :: _ => name_char "_-" c = false | [] => True end ->
  step (mkState ("|"%char :: name ++ rest) ln cl ts)
    = Some (mkState rest ln (cl + 1 + len name) (ts ++ [mkToken PIPE (str name) ln cl])).
Proof.
  intros Hname Hrest. rewrite step_pipe. unfold _read_pipe.
  rewrite (read_while_all _ name rest Hname Hrest).
  unfold emit. cbn [cur_line cur_col tokens].
  now replace (cl + 1 + len name - len name - 1) with cl by lia.
Qed.

(** The program [|name]: a call with no argument. *)
Lemma parse_call_without_arguments (name : string) (ln cl ln' cl' : Z) :
  Parser.parse [mkToken PIPE name ln cl; mkToken EOF "" ln' cl']
    = Return [PipeNode name []].
Proof. reflexivity. Qed.

(** X26. The program [|name], for a name the registry does not hold, prints
    [Error: Function not found: ] and the name, and evaluates to [None]:
    the failure of the call is reported, not raised. *)
Theorem unknown_function_is_reported (name : string) (w : world) :
  forallb (name_char "_-") (list_ascii_of_string name) = true ->
  assoc name built_in_functions = None ->
  interpret ("|" +:+ name) w
    = (Return VNone, written (endl ("Error: Function not found: " +:+ name)) w).
Proof.
  intros Hname Hb.
  assert (Htok : tokenize ("|" +:+ name)
                 = [mkToken PIPE name 1 1;
                    mkToken EOF "" 1 (1 + 1 + len (list_ascii_of_string name))]).
  { erewrite (tokenize_run _ 1); [| reflexivity |].
    - rewrite list_ascii_of_string_app. cbn [list_ascii_of_string app].
      rewrite <- (app_nil_r (list_ascii_of_string name)).
      rewrite loop_unfold, (read_pipe_name _ [] 1 1 [] Hname I).
      cbn [loop tokens cur_line cur_col app]. unfold str.
      now rewrite app_nil_r, string_of_list_ascii_of_string.
    - rewrite list_ascii_of_string_app. cbn [list_ascii_of_string app].
      rewrite <- (app_nil_r (list_ascii_of_string name)).
      now rewrite loop_unfold, (read_pipe_name _ [] 1 1 [] Hname I). }
  unfold Main.interpret, Main.run. rewrite Htok.
  rewrite parse_call_without_arguments.
  unfold Interpreter.execute. cbn [foldM]. unfold bind at 1.
  rewrite (visit_pipe_unfold host_str host_call).
  unfold Interpreter.find_function. rewrite Hb. cbn [runtime new_runtime functions].
  rewrite lookup_empty. reflexivity.
Qed.


Lemma all_digits_spec (ds : list ascii) :
  all_digits ds = true -> ds <> [] /\ forallb isdigit ds = true.
Proof.
  unfold all_digits. intros [Hne Hds]%andb_true_iff. split; [| exact Hds].
  now destruct ds.
Qed.

Lemma loop_integer_arguments (dss : list (list ascii)) :
  forallb all_digits dss = true ->
  forall ln cl ts k, exists cl' new,
    loop (2 * length dss + k) (mkState (flat_map (cons ":"%char) dss) ln cl ts)
      = loop k (mkState [] ln cl' (ts ++ new))
    /\ map kind new = integer_arguments dss.
Proof.
  induction dss as [| ds dss IH]; intros Hall ln cl ts k.
  - exists cl, []. now rewrite app_nil_r.
  - cbn [forallb] in Hall. apply andb_true_iff in Hall as [Hds Hall].
    apply all_digits_spec in Hds as [Hne Hds].
    replace (2 * length (ds :: dss) + k)%nat with (S (S (2 * length dss + k)))
      by (cbn [length]; lia).
    cbn [flat_map app]. rewrite loop_unfold, step_colon.
    rewrite loop_unfold, (read_number_digits ds _ _ _ _ Hne Hds).
    + destruct (IH Hall ln (cl + 1 + len ds)
                  ((ts ++ [mkToken SYMBOL ":" ln cl])
                     ++ [mkToken NUMBER (str ds) ln (cl + 1)])%list k)
        as (cl' & new & Hrun & Hkind).
      exists cl', (mkToken SYMBOL ":" ln cl :: mkToken NUMBER (str ds) ln (cl + 1) :: new).
      split; [| cbn [map]; unfold integer_arguments in *; cbn [flat_map app];
                now rewrite Hkind].
      rewrite Hrun. do 2 f_equal. now rewrite <- !app_assoc.
    + now destruct dss.
Qed.

Lemma parse_pipe_args_unfold (fuel : nat) (ts : list Token) (args : list ASTNode) :
  Parser._parse_pipe_args (S fuel) ts args =
    if negb (Parser._is_at_end ts)
       && negb (Parser.is_type ts PIPE || Parser.is_type ts ASSIGN
                || Parser.is_type ts VAR_GET || Parser.is_type ts EOF)
    then
      if String.eqb (value (Parser.current ts)) ":" then
        Parser._parse_pipe_args fuel (Parser.advance ts) args
      else
        obind (Parser._parse_expression fuel ts) (fun '(arg, ts) =>
        Parser._parse_pipe_args fuel ts (args ++ [arg]))
    else Return (args, ts).
Proof. reflexivity. Qed.

Lemma parse_expression_number (fuel : nat) (t : Token) (ts : list Token) (v : pyvalue) :
  type t = NUMBER -> Parser.number_value (value t) = Return v ->
  Parser._parse_expression (S fuel) (t :: ts) = Return (LiteralNode v, ts).
Proof.
  intros Ht Hv. cbn [Parser._parse_expression Parser.current]. now rewrite Ht, Hv.
Qed.

Lemma number_is_no_colon (s : string) (v : pyvalue) :
  Parser.number_value s = Return v -> String.eqb s ":" = false.
Proof.
  intros H. destruct (String.eqb s ":") eqn:E; [| reflexivity].
  apply String.eqb_eq in E. subst s. discriminate.
Qed.

Lemma int_digits_spec (ds : list ascii) :
  int_digits ds = true ->
  all_digits ds = true /\ (length ds <= int_max_str_digits)%nat.
Proof.
  unfold int_digits. intros [Hds Hlen]%andb_true_iff.
  split; [exact Hds | now apply Nat.leb_le].
Qed.

Lemma int_digits_all (dss : list (list ascii)) :
  forallb int_digits dss = true -> forallb all_digits dss = true.
Proof.
  intros H. rewrite List.forallb_forall in H. apply List.forallb_forall.
  intros ds Hds. now destruct (int_digits_spec ds (H ds Hds)).
Qed.

Lemma parse_integer_arguments (dss : list (list ascii)) :
  forallb int_digits dss = true ->
  forall ts args fuel eof,
    map kind ts = integer_arguments dss -> type eof = EOF ->
    (2 * length dss + 1 <= fuel)%nat ->
    Parser._parse_pipe_args fuel (ts ++ [eof]) args
      = Return ((args ++ map (fun ds => LiteralNode (VInt (digits_value ds))) dss)%list,
                [eof]).
Proof.
  induction dss as [| ds dss IH]; intros Hall ts args fuel eof Hkind He Hfuel.
  - destruct ts; [| discriminate]. destruct fuel as [| fuel]; [lia |].
    rewrite parse_pipe_args_unfold. unfold Parser._is_at_end, Parser.is_type.
    cbn [app Parser.current map]. rewrite He. cbn [negb andb]. now rewrite app_nil_r.
  - cbn [forallb] in Hall. apply andb_true_iff in Hall as [Hds Hall].
    apply int_digits_spec in Hds as [Hds Hlen].
    apply all_digits_spec in Hds as [Hne Hds].
    pose proof (number_value_digits ds Hne Hds Hlen) as Hv.
    destruct ts as [| c [| n ts]]; try discriminate.
    unfold integer_arguments in Hkind. cbn [map flat_map app] in Hkind.
    injection Hkind as Hc1 Hc2 Hn1 Hn2 Hkind. cbn [length] in Hfuel.
    destruct fuel as [| [| [| fuel]]]; try lia.
    cbn [app]. rewrite parse_pipe_args_unfold. unfold Parser._is_at_end, Parser.is_type.
    cbn [Parser.current]. rewrite Hc1, Hc2.
    cbn [negb andb orb String.eqb Ascii.eqb Bool.eqb Parser.advance tl].
    rewrite parse_pipe_args_unfold. unfold Parser._is_at_end, Parser.is_type.
    cbn [Parser.current]. rewrite Hn1, Hn2, (number_is_no_colon _ _ Hv).
    cbn [negb andb orb].
    rewrite (parse_expression_number _ n _ (VInt (digits_value ds)) Hn1)
      by now rewrite Hn2.
    cbn [obind]. rewrite (IH Hall ts _ _ eof Hkind He) by lia.
    cbn [map]. now rewrite <- app_assoc.
Qed.

Lemma parse_loop_unfold (fuel : nat) (ts : list Token) (nodes : list ASTNode) :
  Parser.parse_loop (S fuel) ts nodes =
    if Parser._is_at_end ts then Return nodes
    else
      obind (if Parser.is_type ts PIPE then Parser._parse_pipe fuel ts
             else if Parser.is_type ts ASSIGN then Parser._parse_assign fuel ts
             else if Parser.is_type ts VAR_GET then Parser._parse_variable ts
             else Parser._parse_expression fuel ts)
            (fun '(node, ts) => Parser.parse_loop fuel ts (nodes ++ [node])).
Proof. reflexivity. Qed.

(** The program [|f:a1:...:an]: a call on the ints the digits denote. *)
Lemma parse_call_on_integers (p eof : Token) (ts : list Token)
    (dss : list (list ascii)) :
  forallb int_digits dss = true ->
  type p = PIPE -> map kind ts = integer_arguments dss -> type eof = EOF ->
  Parser.parse (p :: ts ++ [eof])
    = Return [PipeNode (value p)
                (map (fun ds => LiteralNode (VInt (digits_value ds))) dss)].
Proof.
  intros Hall Hp Hkind He. unfold Parser.parse.
  assert (Hlen : length ts = (2 * length dss)%nat).
  { rewrite <- (length_map kind), Hkind. unfold integer_arguments.
    clear. induction dss as [| ds dss IH]; cbn [flat_map length app]; lia. }
  replace (length (p :: ts ++ [eof]) + 8)%nat with (S (S (S (2 * length dss + 7))))
    by (cbn [length]; rewrite length_app; cbn [length]; lia).
  rewrite parse_loop_unfold. unfold Parser._is_at_end at 1, Parser.is_type at 1 2.
  cbn [Parser.current]. rewrite Hp.
  cbn [Parser._parse_pipe Parser.advance tl Parser.current].
  rewrite (parse_integer_arguments dss Hall ts [] _ eof Hkind He) by lia.
  cbn [obind app]. rewrite parse_loop_unfold. unfold Parser._is_at_end, Parser.is_type.
  cbn [Parser.current]. now rewrite He.
Qed.

Lemma tokenize_call_on_integers (f : list ascii) (dss : list (list ascii)) :
  forallb (name_char "_-") f = true -> forallb all_digits dss = true ->
  exists ts cl,
    tokenize (str ("|"%char :: f ++ flat_map (cons ":"%char) dss))
      = (mkToken PIPE (str f) 1 1 :: ts ++ [mkToken EOF "" 1 cl])%list
    /\ map kind ts = integer_arguments dss.
Proof.
  intros Hf Hall.
  destruct (loop_integer_arguments dss Hall 1 (1 + 1 + len f) [mkToken PIPE (str f) 1 1] 0)
    as (cl & new & Hrun & Hkind).
  exists new, cl. split; [| exact Hkind].
  rewrite (tokenize_run _ (S (2 * length dss + 0))
             (mkState [] 1 cl (mkToken PIPE (str f) 1 1 :: new))); [reflexivity | | reflexivity].
  unfold str at 1. rewrite list_ascii_of_string_of_list_ascii.
  rewrite loop_unfold, (read_pipe_name f _ 1 1 [] Hf); [| now destruct dss].
  exact Hrun.
Qed.

Lemma run_parsed (text : string) (ast : list ASTNode) (w : world) :
  Parser.parse (tokenize text) = Return ast ->
  run text w = (fst (execute ast (mkIState new_runtime w)),
                the_world (snd (execute ast (mkIState new_runtime w)))).
Proof.
  intros H. unfold Main.run. rewrite H.
  now destruct (Interpreter.execute host_str host_call ast _).
Qed.

Lemma literals_evaluate (vs : list pyvalue) (s : Interpreter.state) :
  mapM (Interpreter.visit host_str host_call) (map LiteralNode vs) s = (Return vs, s).
Proof.
  induction vs as [| v vs IH]; [reflexivity |].
  cbn [map]. rewrite (mapM_cons host_str host_call).
  cbn [Interpreter.visit visit_literal ret]. now rewrite IH.
Qed.

(** A call of a function of the registry on literals, in a new runtime. *)
Lemma execute_call_on_literals (name : string) (func : callable) (vs : list pyvalue)
    (w : world) :
  assoc name built_in_functions = Some func ->
  execute [PipeNode name (map LiteralNode vs)] (mkIState new_runtime w)
    = call_function name func vs (mkIState new_runtime w).
Proof.
  intros Hf. unfold Interpreter.execute. cbn [foldM]. unfold bind.
  rewrite (visit_pipe_unfold host_str host_call).
  unfold Interpreter.find_function. rewrite Hf, literals_evaluate.
  now destruct (call_function name func vs _) as [[v | e |] s1].
Qed.

(** X27. The program [|f:a1:...:an], each [a] a run of 4300 digits at most,
    is parsed as the call of [f] on the ints they denote, however many there
    are; for [add] it evaluates to their sum and for [mul] to their product
    ([0] when there is none). *)
Theorem calls_on_integers (f : list ascii) (dss : list (list ascii)) (w : world) :
  forallb (name_char "_-") f = true -> forallb int_digits dss = true ->
  let zs := map digits_value dss in
  let text := str ("|"%char :: f ++ flat_map (cons ":"%char) dss) in
  Parser.parse (tokenize text)
    = Return [PipeNode (str f) (map (fun z => LiteralNode (VInt z)) zs)]
  /\ (str f = "add" -> run text w = (Return (VInt (fold_left Z.add zs 0)), w))
  /\ (str f = "mul" ->
      run text w
        = (Return (VInt match zs with [] => 0 | _ => fold_left Z.mul zs 1 end), w)).
Proof.
  intros Hf Hall zs text.
  destruct (tokenize_call_on_integers f dss Hf (int_digits_all dss Hall))
    as (ts & cl & Htok & Hkind).
  assert (Hparse : Parser.parse (tokenize text)
                   = Return [PipeNode (str f) (map LiteralNode (map VInt zs))]).
  { unfold text. rewrite Htok.
    rewrite (parse_call_on_integers (mkToken PIPE (str f) 1 1) (mkToken EOF "" 1 cl)
               ts dss Hall eq_refl Hkind eq_refl).
    unfold zs. now rewrite !map_map. }
  split; [now rewrite Hparse, map_map |].
  split; intros Hname; rewrite (run_parsed _ _ w Hparse), Hname.
  - rewrite (execute_call_on_literals "add" builtin_add) by reflexivity.
    unfold call_function, in_world, builtin_add. cbn [the_world runtime].
    now rewrite (sum_of_ints zs 0 w).
  - rewrite (execute_call_on_literals "mul" (Runtime.builtin_mul host_call))
      by reflexivity.
    unfold call_function, in_world. cbn [the_world runtime].
    destruct zs as [| z zs']; [reflexivity |].
    unfold Runtime.builtin_mul. cbn [map].
    change (VInt z :: map VInt zs') with (map VInt (z :: zs')).
    now rewrite (product_of_ints host_call (z :: zs') 1 w).
Qed.

Lemma step_assign (rest : list ascii) (ln cl : Z) (ts : list Token) :
  step (mkState ("&"%char :: rest) ln cl ts)
    = Some (_read_assign (mkState ("&"%char :: rest) ln cl ts) rest).
Proof. reflexivity. Qed.

Lemma step_variable (rest : list ascii) (ln cl : Z) (ts : list Token) :
  step (mkState ("!"%char :: rest) ln cl ts)
    = Some (_read_variable (mkState ("!"%char :: rest) ln cl ts) rest).
Proof. reflexivity. Qed.

(** A marker and the name after it: two tokens. *)
Lemma read_marked_name (marker : token_type) (name rest : list ascii) (c : ascii)
    (ln cl : Z) (ts : list Token) :
  name <> [] -> forallb (name_char "_") name = true ->
  match rest with d :: _ => name_char "_" d = false | [] => True end ->
  read_marked marker (mkState (c :: name ++ rest) ln cl ts) (name ++ rest)
    = mkState rest ln (cl + 1 + len name)
        (ts ++ [mkToken marker "" ln cl; mkToken IDENT (str name) ln (cl + 1)]).
Proof.
  intros Hne Hname Hrest. unfold read_marked.
  rewrite (read_while_all _ name rest Hname Hrest).
  unfold emit. cbn [cur_line cur_col tokens].
  destruct name as [| a name]; [easy |].
  now replace (cl + 1 + len (a :: name) - len (a :: name)) with (cl + 1) by lia.
Qed.

Lemma read_marked_name_at_end (marker : token_type) (name : list ascii) (c : ascii)
    (ln cl : Z) (ts : list Token) :
  name <> [] -> forallb (name_char "_") name = true ->
  read_marked marker (mkState (c :: name) ln cl ts) name
    = mkState [] ln (cl + 1 + len name)
        (ts ++ [mkToken marker "" ln cl; mkToken IDENT (str name) ln (cl + 1)]).
Proof.
  intros Hne Hname.
  pose proof (read_marked_name marker name [] c ln cl ts Hne Hname I) as H.
  now rewrite app_nil_r in H.
Qed.

Lemma parse_assignment_then_variable (name number : string) (v : pyvalue)
    (l1 c1 l2 c2 l3 c3 l4 c4 l5 c5 l6 c6 l7 c7 : Z) :
  Parser.number_value number = Return v ->
  Parser.parse [mkToken ASSIGN "" l1 c1; mkToken IDENT name l2 c2;
                mkToken SYMBOL ":" l3 c3; mkToken NUMBER number l4 c4;
                mkToken VAR_GET "" l5 c5; mkToken IDENT name l6 c6;
                mkToken EOF "" l7 c7]
    = Return [AssignNode name (LiteralNode v); VariableNode name].
Proof.
  intros Hv. unfold Parser.parse. cbn [length Nat.add].
  rewrite parse_loop_unfold.
  cbn [Parser._is_at_end Parser.is_type Parser.current type].
  unfold Parser._parse_assign.
  cbn [Parser.advance tl Parser.current value String.eqb Ascii.eqb Bool.eqb].
  rewrite (parse_expression_number _ (mkToken NUMBER number l4 c4) _ v eq_refl Hv).
  cbn [obind app].
  rewrite parse_loop_unfold.
  cbn [Parser._is_at_end Parser.is_type Parser.current type].
  unfold Parser._parse_variable. cbn [Parser.advance tl Parser.current value obind app].
  rewrite parse_loop_unfold. reflexivity.
Qed.

(** X28. The program [&x:<a>!x], [a] a run of 4300 digits at most: the
    assignment, then the variable, which evaluates to the int [a] denotes.
    The name is read after the marker [&] or [!], up to the first character
    that is no letter, digit or underscore. *)
Theorem assignment_then_variable (name ds : list ascii) (w : world) :
  name <> [] -> forallb (name_char "_") name = true ->
  ds <> [] -> forallb isdigit ds = true -> (length ds <= int_max_str_digits)%nat ->
  let text := str ("&"%char :: name ++ ":"%char :: ds ++ "!"%char :: name) in
  Parser.parse (tokenize text)
    = Return [AssignNode (str name) (LiteralNode (VInt (digits_value ds)));
              VariableNode (str name)]
  /\ run text w = (Return (VInt (digits_value ds)), w).
Proof.
  intros Hne Hname Hned Hds Hlen text.
  assert (Htok : exists c2 c3 c4 c5 c6 c7,
            tokenize text
              = [mkToken ASSIGN "" 1 1; mkToken IDENT (str name) 1 c2;
                 mkToken SYMBOL ":" 1 c3; mkToken NUMBER (str ds) 1 c4;
                 mkToken VAR_GET "" 1 c5; mkToken IDENT (str name) 1 c6;
                 mkToken EOF "" 1 c7]).
  { assert (Hrun : exists st,
              loop 4 (mkState (list_ascii_of_string text) 1 1 []) = st
              /\ source st = [] /\ cur_line st = 1
              /\ exists c2 c3 c4 c5 c6,
                   tokens st
                     = [mkToken ASSIGN "" 1 1; mkToken IDENT (str name) 1 c2;
                        mkToken SYMBOL ":" 1 c3; mkToken NUMBER (str ds) 1 c4;
                        mkToken VAR_GET "" 1 c5; mkToken IDENT (str name) 1 c6]).
    { eexists. split; [| split; [| split]].
      - unfold text, str at 1. rewrite list_ascii_of_string_of_list_ascii.
        rewrite loop_unfold, step_assign. unfold _read_assign.
        rewrite (read_marked_name ASSIGN name (":"%char :: ds ++ "!"%char :: name) "&" 1 1 []
                   Hne Hname eq_refl).
        rewrite loop_unfold, step_colon.
        rewrite loop_unfold,
          (read_number_digits ds ("!"%char :: name) _ _ _ Hned Hds eq_refl).
        rewrite loop_unfold, step_variable. unfold _read_variable.
        rewrite (read_marked_name_at_end VAR_GET name _ _ _ _ Hne Hname).
        cbn [loop]. reflexivity.
      - reflexivity.
      - reflexivity.
      - cbn [tokens app]. do 5 eexists. reflexivity. }
    destruct Hrun as (st & Hrun & Hsrc & Hline & c2 & c3 & c4 & c5 & c6 & Hts).
    exists c2, c3, c4, c5, c6, (cur_col st).
    now rewrite (tokenize_run _ 4 st Hrun Hsrc), Hts, Hline. }
  destruct Htok as (c2 & c3 & c4 & c5 & c6 & c7 & Htok).
  assert (Hparse : Parser.parse (tokenize text)
                   = Return [AssignNode (str name) (LiteralNode (VInt (digits_value ds)));
                             VariableNode (str name)]).
  { rewrite Htok. apply parse_assignment_then_variable.
    now apply number_value_digits. }
  split; [exact Hparse |].
  rewrite (run_parsed _ _ w Hparse).
  rewrite (execute_cons host_str host_call).
  change (Interpreter.visit host_str host_call
            (AssignNode (str name) (LiteralNode (VInt (digits_value ds))))
            (mkIState new_runtime w))
    with (Return (VInt (digits_value ds)),
          assigned (str name) (VInt (digits_value ds)) (mkIState new_runtime w)).
  cbn iota. rewrite (execute_cons host_str host_call).
  rewrite (visit_variable_unfold host_str host_call).
  cbn [assigned runtime locals the_world fst snd]. now rewrite lookup_insert_eq.
Qed.

End Programs.

(** * The tests of the repository ([tests/test_interpreter.py]) and the
    scenarios of its documentation, run on the embedding *)

Module Tests.
Import Lexer.

(** What [_execute(code)] of the test classes returns. *)
Definition _execute (code : string) : outcome pyvalue :=
  fst (run no_host_str no_host_call code empty_world).

(** The float an int converts to. *)
Definition float_value (z : Z) : outcome pyvalue :=
  obind (float_of_int z) (fun f => Return (VFloat f)).

(** [code] between double quotes. *)
Definition in_quotes (code : string) : string :=
  String "034"%char code +:+ String "034"%char "".

Example test_pipe_token :
  option_map (fun t => (type t, value t)) (head (tokenize "|add:5:3"))
    = Some (PIPE, "add").
Proof. vm_compute. reflexivity. Qed.

Example test_variable_token :
  map (fun t => (type t, value t)) (take 2 (tokenize "!myvar"))
    = [(VAR_GET, ""); (IDENT, "myvar")].
Proof. vm_compute. reflexivity. Qed.

Example test_string_token :
  option_map (fun t => (type t, value t)) (head (tokenize (in_quotes "hello world")))
    = Some (STRING, "hello world").
Proof. vm_compute. reflexivity. Qed.

Example test_number_token :
  map (fun t => (type t, value t)) (take 2 (tokenize "42 3.14"))
    = [(NUMBER, "42"); (NUMBER, "3.14")].
Proof. vm_compute. reflexivity. Qed.

Example test_assign_token :
  option_map type (head (tokenize "&myvar:value")) = Some ASSIGN.
Proof. vm_compute. reflexivity. Qed.

Example test_add : _execute "|add:5:3" = Return (VInt 8).
Proof. vm_compute. reflexivity. Qed.

Example test_sub : _execute "|sub:10:3" = Return (VInt 7).
Proof. vm_compute. reflexivity. Qed.

Example test_mul : _execute "|mul:4:5" = Return (VInt 20).
Proof. vm_compute. reflexivity. Qed.

Example test_div : _execute "|div:20:4" = float_value 5.
Proof. vm_compute. reflexivity. Qed.

Example test_mod : _execute "|mod:10:3" = Return (VInt 1).
Proof. vm_compute. reflexivity. Qed.

Example test_abs : _execute "|abs:-5" = Return (VInt 5).
Proof. vm_compute. reflexivity. Qed.

Example test_sqrt : _execute "|sqrt:16" = float_value 4.
Proof. vm_compute. reflexivity. Qed.

Example test_length : _execute ("|length:" +:+ in_quotes "hello") = Return (VInt 5).
Proof. vm_compute. reflexivity. Qed.

Example test_uppercase :
  _execute ("|uppercase:" +:+ in_quotes "hello") = Return (VStr "HELLO").
Proof. vm_compute. reflexivity. Qed.

Example test_lowercase :
  _execute ("|lowercase:" +:+ in_quotes "HELLO") = Return (VStr "hello").
Proof. vm_compute. reflexivity. Qed.

Example test_trim :
  _execute ("|trim:" +:+ in_quotes "  hello  ") = Return (VStr "hello").
Proof. vm_compute. reflexivity. Qed.

Example test_assignment :
  obind (Parser.parse (tokenize "&x:42")) (fun ast =>
    Return (locals (runtime (snd (execute no_host_str no_host_call ast initial_state)))
              !! "x"))
    = Return (Some (VInt 42)).
Proof. vm_compute. reflexivity. Qed.

Example test_logical_and :
  fst (builtin_and [VBool true; VBool true] empty_world) = Return (VBool true).
Proof. reflexivity. Qed.

Example test_logical_or :
  fst (builtin_or [VBool false; VBool true] empty_world) = Return (VBool true).
Proof. reflexivity. Qed.

Example test_logical_not :
  fst (builtin_not [VBool false] empty_world) = Return (VBool true).
Proof. reflexivity. Qed.

Example test_typeof :
  fst (builtin_typeof [VInt 42] empty_world) = Return (VStr "int")
  /\ fst (builtin_typeof [VStr "hello"] empty_world) = Return (VStr "str").
Proof. split; reflexivity. Qed.

Example test_tostring :
  fst (builtin_tostring no_host_str [VInt 42] empty_world) = Return (VStr "42").
Proof. reflexivity. Qed.

Example test_tonumber :
  fst (builtin_tonumber [VStr "42"] empty_world) = float_value 42.
Proof. vm_compute. reflexivity. Qed.

Example test_tobool :
  fst (builtin_tobool [VInt 1] empty_world) = Return (VBool true)
  /\ fst (builtin_tobool [VInt 0] empty_world) = Return (VBool false).
Proof. split; reflexivity. Qed.

(** A program whose last statement reads a variable no statement bound. *)
Example undefined_variable : _execute "!undefinedvar" = Return VNone.
Proof. vm_compute. reflexivity. Qed.

(** In [&sum:|add:!x:!y], the call ends at the first [!]: [add] has no
    argument, and the two references are statements of their own. *)
Example call_ends_at_a_variable :
  Parser.parse (tokenize "&sum:|add:!x:!y")
    = Return [AssignNode "sum" (PipeNode "add" []); VariableNode "x";
              LiteralNode VNone; VariableNode "y"].
Proof. vm_compute. reflexivity. Qed.

(** Arguments of [log] print in the order of the source. *)
Example log_prints_in_order :
  stdout (snd (interpret no_host_str no_host_call "|log:one 2 |log:three" empty_world))
    = [endl "one 2"; endl "three"].
Proof. vm_compute. reflexivity. Qed.

(** A truthy condition that is no function keeps [while] from returning. *)
Example while_true_diverges : _execute "|while:1:2" = Diverge.
Proof. vm_compute. reflexivity. Qed.

End Tests.

(** * Instances of the statements *)

Section Instances.

Local Abbreviation visit := (Interpreter.visit no_host_str no_host_call).
Local Abbreviation interpret := (Main.interpret no_host_str no_host_call).

(** C1 as stated fails: the arguments of [|frobnicate] would bind [x] and
    print a line, but the unknown name is found before any of them is
    evaluated: [x] is still unbound and nothing was printed when [NameError]
    is raised. *)
Lemma unknown_name_is_found_before_the_arguments :
  let args := [AssignNode "x" (LiteralNode (VInt 1)); logging "seen"] in
  mapM visit args initial_state
    = (Return [VInt 1; VNone], printed ["seen"] (assigned "x" (VInt 1) initial_state))
  /\ visit (PipeNode "frobnicate" args) initial_state
     = (Raise (Exn NameError "Function not found: frobnicate"), initial_state)
  /\ locals (runtime initial_state) !! "x" = None
  /\ stdout (the_world initial_state) = [].
Proof. repeat split. Qed.

Lemma unknown_function_witness :
  visit (PipeNode "frobnicate" [LiteralNode (VInt 1)]) initial_state
    = (Raise (Exn NameError "Function not found: frobnicate"), initial_state)
  /\ fst (visit (PipeNode "frobnicate" [LiteralNode (VInt 1)]) initial_state)
     <> Return VNone.
Proof.
  apply (unknown_function_is_a_name_error no_host_str no_host_call); reflexivity.
Defined.

(** C3 as stated fails: [push] rejects an int as its list with an
    [AttributeError], which is raised as it is: it is no [TypeError] and its
    message does not name the function. *)
Lemma push_on_an_int_is_an_attribute_error :
  assoc "push" (built_in_functions no_host_str no_host_call) = Some builtin_push
  /\ visit (PipeNode "push" [LiteralNode (VInt 5); LiteralNode (VInt 1)]) initial_state
     = (Raise (Exn AttributeError "'int' object has no attribute 'append'"),
        initial_state).
Proof. split; reflexivity. Qed.

Lemma wrong_count_witness :
  visit (PipeNode "sub" [LiteralNode (VInt 1)]) initial_state
    = (Raise (Exn TypeError
         "Error calling sub: Runtime._setup_builtins.<locals>.<lambda>() missing 1 required positional argument: 'b'"),
       initial_state).
Proof.
  apply (proj1 (type_errors_of_the_function_are_wrapped no_host_str no_host_call
           "sub" [LiteralNode (VInt 1)] initial_state builtin_sub [VInt 1]
           initial_state
           (arity_error "Runtime._setup_builtins.<locals>.<lambda>" 0 ["a"; "b"] [] 1)
           empty_world eq_refl eq_refl eq_refl)).
Defined.

Lemma interpret_witness :
  interpret "|frobnicate:1" empty_world
    = (Return VNone,
       written (endl "Error: Function not found: frobnicate") empty_world).
Proof.
  apply (proj1 (proj2 (interpret_catches_every_exception no_host_str no_host_call
           "|frobnicate:1" empty_world))
           (Exn NameError "Function not found: frobnicate")).
  vm_compute. reflexivity.
Defined.

Lemma arithmetic_witness :
  builtin_div [VInt 7; VInt 2] empty_world
    = (Return (VFloat (S754_finite false 7881299347898368 (-51))), empty_world)
  /\ builtin_div [VInt 7; VInt 0] empty_world = (Return (VInt 0), empty_world).
Proof.
  split.
  - apply (arithmetic_on_two_numbers no_host_call (VInt 7) (VInt 2) (NInt 7) (NInt 2)
             empty_world eq_refl eq_refl I I).
  - apply (arithmetic_on_two_numbers no_host_call (VInt 7) (VInt 0) (NInt 7) (NInt 0)
             empty_world eq_refl eq_refl I I).
Defined.

(** C6 as stated fails: the tokenizer reads [1.2.3] as one [NUMBER] token, and
    the parser raises the [ValueError] of its conversion. *)
Lemma number_with_two_dots_is_a_value_error :
  Lexer.tokenize "1.2.3"
    = [Lexer.mkToken Lexer.NUMBER "1.2.3" 1 1; Lexer.mkToken Lexer.EOF "" 1 6]
  /\ Parser.parse (Lexer.tokenize "1.2.3")
     = Raise (Exn ValueError "could not convert string to float: '1.2.3'").
Proof. split; vm_compute; reflexivity. Qed.

(** The conversion is made where an expression is parsed: after [&] a
    [NUMBER] token is the name of the assignment, whatever its text. *)
Lemma number_after_assign_is_a_name :
  Parser.parse (Lexer.tokenize "& 1.2.3 7")
    = Return [AssignNode "1.2.3" (LiteralNode (VInt 7))].
Proof. vm_compute. reflexivity. Qed.

(** [int] takes 4300 digits and refuses 4301. *)
Lemma number_of_4301_digits_is_a_value_error :
  (exists z, Parser.parse (Lexer.tokenize (string_of_list_ascii (repeat "1"%char 4300)))
             = Return [LiteralNode (VInt z)])
  /\ Parser.parse (Lexer.tokenize (string_of_list_ascii (repeat "1"%char 4301)))
     = Raise (Exn ValueError
                ("Exceeds the limit (4300 digits) for integer string conversion: "
                 +:+ "value has 4301 digits; "
                 +:+ "use sys.set_int_max_str_digits() to increase the limit")).
Proof. split; [eexists |]; vm_compute; reflexivity. Qed.

Lemma parse_witness :
  exists nodes, Parser.parse (Lexer.tokenize "|add:5 @ 3 !x &y:-2.5") = Return nodes.
Proof.
  apply (proj1 (proj2 (parse_terminates (Lexer.tokenize "|add:5 @ 3 !x &y:-2.5")))).
  vm_compute. reflexivity.
Defined.

Lemma unbound_variable_witness :
  visit (VariableNode "undefinedvar") initial_state
    = (Return (default VNone (locals (runtime initial_state) !! "undefinedvar")),
       initial_state)
  /\ (locals (runtime initial_state) !! "undefinedvar" = None ->
      visit (VariableNode "undefinedvar") initial_state = (Return VNone, initial_state)).
Proof.
  apply (unbound_variable_is_none no_host_str no_host_call). reflexivity.
Defined.

(** A world whose only list is [[1, 2, 3]]. *)
Definition one_list : world := mkWorld [[VInt 1; VInt 2; VInt 3]] [] [] 0.

Lemma pop_and_shift_witness :
  builtin_pop [VList 0%nat] one_list
    = (Return (VInt 3), mkWorld [[VInt 1; VInt 2]] [] [] 0)
  /\ builtin_shift [VList 0%nat] one_list
     = (Return (VInt 1), mkWorld [[VInt 2; VInt 3]] [] [] 0).
Proof.
  pose proof (pop_and_shift 0%nat one_list [VInt 1; VInt 2; VInt 3] eq_refl)
    as (_ & Hpop & Hshift).
  split.
  - apply (Hpop [VInt 1; VInt 2] (VInt 3) eq_refl).
  - apply (Hshift (VInt 1) [VInt 2; VInt 3] eq_refl).
Defined.

End Instances.

(** * Instances of the further properties *)

Section FurtherInstances.

Local Abbreviation visit := (Interpreter.visit no_host_str no_host_call).
Local Abbreviation execute := (Interpreter.execute no_host_str no_host_call).
Local Abbreviation run := (Main.run no_host_str no_host_call).
Local Abbreviation interpret := (Main.interpret no_host_str no_host_call).

(** The two lines [a] and [b]. *)
Definition two_lines : string := String "a" (String "010" (String "b" "")).

Lemma token_lines_witness :
  1 <= Lexer.line (Lexer.mkToken Lexer.IDENT "a" 1 1)
    <= Lexer.line (Lexer.mkToken Lexer.IDENT "b" 2 1).
Proof.
  apply (token_lines_never_decrease two_lines 0 1); [lia | reflexivity | reflexivity].
Defined.

Lemma blank_program_witness :
  (exists ln cl, Lexer.tokenize (String " " (String "010" " "))
                 = [Lexer.mkToken Lexer.EOF "" ln cl])
  /\ run (String " " (String "010" " ")) empty_world = (Return VNone, empty_world)
  /\ interpret (String " " (String "010" " ")) empty_world = (Return VNone, empty_world).
Proof. apply (blank_program no_host_str no_host_call). reflexivity. Defined.

Lemma string_literal_witness :
  run (dquote +:+ "|log:!x" +:+ dquote) empty_world = (Return (VStr "|log:!x"), empty_world)
  /\ run (dquote +:+ "|log:!x") empty_world = (Return (VStr "|log:!x"), empty_world).
Proof.
  apply (string_literal no_host_str no_host_call "|log:!x" empty_world eq_refl eq_refl).
Defined.

Lemma integer_literal_witness :
  (run "007" empty_world = (Return (VInt 7), empty_world)
   /\ run "-007" empty_world = (Return (VInt (-7)), empty_world))
  /\ exists msg,
       run (string_of_list_ascii (repeat "7"%char 4301)) empty_world
         = (raise ValueError msg, empty_world)
       /\ run ("-" +:+ string_of_list_ascii (repeat "7"%char 4301)) empty_world
          = (raise ValueError msg, empty_world).
Proof.
  split.
  - destruct (integer_literal no_host_str no_host_call (list_ascii_of_string "007")
                empty_world) as (_ & H & _); [discriminate | reflexivity |].
    apply H. apply Nat.leb_le. reflexivity.
  - destruct (integer_literal no_host_str no_host_call (repeat "7"%char 4301)
                empty_world) as (_ & _ & H); [discriminate | now vm_compute |].
    apply H. apply Nat.ltb_lt. now vm_compute.
Defined.

Lemma int_round_trip_witness :
  str_of_int (-42) = Return "-42"
  /\ run "-42" empty_world = (Return (VInt (-42)), empty_world).
Proof.
  destruct (int_round_trip no_host_str no_host_call (-42) empty_world) as [H _].
  apply H. apply Nat.leb_le. reflexivity.
Defined.

Lemma bare_word_witness :
  run "hello" empty_world = (Return (VStr "hello"), empty_world).
Proof.
  apply (bare_word no_host_str no_host_call "h" (list_ascii_of_string "ello") empty_world);
    reflexivity.
Defined.

Lemma call_arguments_witness :
  forallb flat_statement
    [AssignNode "sum" (PipeNode "add" []); VariableNode "x"; LiteralNode VNone;
     VariableNode "y"] = true.
Proof.
  apply (call_arguments_are_literals (Lexer.tokenize "&sum:|add:!x:!y")).
  vm_compute. reflexivity.
Defined.

Lemma statements_witness :
  (length [AssignNode "sum" (PipeNode "add" []); VariableNode "x"; LiteralNode VNone;
           VariableNode "y"]
   <= length (Lexer.tokenize "&sum:|add:!x:!y"))%nat.
Proof.
  apply (no_more_statements_than_tokens (Lexer.tokenize "&sum:|add:!x:!y")).
  vm_compute. reflexivity.
Defined.

Lemma no_dot_witness :
  exists nodes, Parser.parse (Lexer.tokenize "|add:5 @ 3 !x &y:-2") = Return nodes.
Proof. apply programs_without_a_dot_are_parsed; reflexivity. Defined.

Lemma independent_assignments_witness :
  fst (execute [AssignNode "x" (LiteralNode (VInt 1)); AssignNode "y" (LiteralNode (VInt 2));
                VariableNode "x"] initial_state) = Return (VInt 1)
  /\ fst (execute [AssignNode "x" (LiteralNode (VInt 1));
                   AssignNode "x" (LiteralNode (VInt 2)); VariableNode "x"] initial_state)
     = Return (VInt 2).
Proof.
  apply (assignments_are_independent no_host_str no_host_call "x" "y" (VInt 1) (VInt 2)
           initial_state).
  discriminate.
Defined.

Lemma registry_witness :
  visit (PipeNode "f" [])
        (snd (execute [AssignNode "f" (LiteralNode (VInt 1))] initial_state))
    = (Raise (Exn NameError "Function not found: f"),
       snd (execute [AssignNode "f" (LiteralNode (VInt 1))] initial_state)).
Proof.
  apply (only_the_registry_is_callable no_host_str no_host_call
           [AssignNode "f" (LiteralNode (VInt 1))] empty_world "f" [] eq_refl).
Defined.

Lemma both_branches_witness :
  visit (PipeNode "if" [LiteralNode (VBool false); logging "then"; logging "else"])
        initial_state
    = (Return VNone, printed ["then"; "else"] initial_state).
Proof.
  apply (if_evaluates_both_branches no_host_str no_host_call
           (LiteralNode (VBool false)) (logging "then") (logging "else")
           initial_state (printed ["then"; "else"] initial_state)
           (VBool false) VNone VNone eq_refl).
Defined.

Lemma pure_node_witness :
  exists v s',
    visit (AssignNode "x" (VariableNode "y")) initial_state = (Return v, s')
    /\ the_world s' = the_world initial_state
    /\ globals (runtime s') = globals (runtime initial_state).
Proof.
  apply (nodes_without_calls_are_pure no_host_str no_host_call). reflexivity.
Defined.

Lemma division_witness :
  at_worst_overflow empty_world (builtin_div [VFloat fone; VInt 3] empty_world)
  /\ at_worst_overflow empty_world
       (builtin_mod no_host_call [VFloat fone; VInt 3] empty_world).
Proof.
  apply (div_and_mod_never_divide_by_zero no_host_call (VFloat fone) (VInt 3)
           (NFloat fone) (NInt 3) empty_world eq_refl eq_refl).
Defined.

Lemma sqrt_witness :
  builtin_sqrt [VInt (-4)] empty_world
    = (Raise (Exn ValueError "math domain error"), empty_world)
  /\ builtin_sqrt [VFloat (S754_infinity true)] empty_world
     = (Raise (Exn ValueError "math domain error"), empty_world)
  /\ builtin_sqrt [VFloat (S754_zero true)] empty_world
     = (Return (VFloat (S754_zero true)), empty_world).
Proof.
  destruct (sqrt_of_a_negative_number empty_world) as (Hf & Hz & _ & H0).
  split; [| split].
  - apply (Hz (VInt (-4)) (-4) eq_refl). split; reflexivity.
  - apply (Hf (VFloat (S754_infinity true)) (S754_infinity true) eq_refl eq_refl).
  - apply H0.
Defined.

Lemma case_functions_witness :
  builtin_uppercase no_host_str [VStr "Hello, World"] empty_world
    = (Return (VStr "HELLO, WORLD"), empty_world)
  /\ builtin_lowercase no_host_str [VStr "HELLO, WORLD"] empty_world
     = (Return (VStr "hello, world"), empty_world).
Proof.
  pose proof (case_functions_compose no_host_str "Hello, World" empty_world eq_refl) as H.
  cbv zeta in H. destruct H as (H1 & _ & _ & H4 & _).
  split; [exact H1 | exact H4].
Defined.

Lemma push_then_pop_witness :
  builtin_pop [VList 0%nat] (snd (builtin_push [VList 0%nat; VInt 4] one_list))
    = (Return (VInt 4), one_list)
  /\ builtin_shift [VList 0%nat] (snd (builtin_unshift [VList 0%nat; VInt 0] one_list))
     = (Return (VInt 0), one_list).
Proof.
  split.
  - apply (push_then_pop 0%nat one_list [VInt 1; VInt 2; VInt 3] (VInt 4) eq_refl).
  - apply (push_then_pop 0%nat one_list [VInt 1; VInt 2; VInt 3] (VInt 0) eq_refl).
Defined.

Lemma other_values_witness :
  builtin_push [VInt 0; VInt 1] empty_world
    = (Raise (Exn AttributeError "'int' object has no attribute 'append'"), empty_world)
  /\ builtin_pop [VInt 0] empty_world = (Return VNone, empty_world)
  /\ builtin_pop [VInt 5] empty_world
     = (Raise (Exn AttributeError "'int' object has no attribute 'pop'"), empty_world).
Proof.
  split; [| split].
  - apply (list_functions_on_other_values (VInt 0) (VInt 1) empty_world). discriminate.
  - apply (list_functions_on_other_values (VInt 0) (VInt 1) empty_world). discriminate.
  - apply (list_functions_on_other_values (VInt 5) (VInt 1) empty_world). discriminate.
Defined.

Lemma reverse_witness :
  fst (builtin_reverse [VList 0%nat] one_list) = Return (VList 1%nat)
  /\ deref (snd (builtin_reverse [VList 0%nat] one_list)) 0%nat
     = [VInt 1; VInt 2; VInt 3]
  /\ deref (snd (builtin_reverse [VList 0%nat] one_list)) 1%nat
     = [VInt 3; VInt 2; VInt 1].
Proof.
  pose proof (reverse_makes_a_new_list 0%nat one_list [VInt 1; VInt 2; VInt 3] "" eq_refl)
    as (H1 & _ & H2 & H3 & _).
  split; [exact H1 |]. split; [exact H2 | exact H3].
Defined.

Lemma unknown_function_report_witness :
  interpret "|frobnicate" empty_world
    = (Return VNone, written (endl "Error: Function not found: frobnicate") empty_world).
Proof.
  apply (unknown_function_is_reported no_host_str no_host_call "frobnicate" empty_world);
    reflexivity.
Defined.

Lemma calls_on_integers_witness :
  run "|add:1:20:300" empty_world = (Return (VInt 321), empty_world)
  /\ run "|mul:2:3:7" empty_world = (Return (VInt 42), empty_world).
Proof.
  split.
  - apply (calls_on_integers no_host_str no_host_call (list_ascii_of_string "add")
             (map list_ascii_of_string ["1"; "20"; "300"]) empty_world eq_refl eq_refl).
    reflexivity.
  - apply (calls_on_integers no_host_str no_host_call (list_ascii_of_string "mul")
             (map list_ascii_of_string ["2"; "3"; "7"]) empty_world eq_refl eq_refl).
    reflexivity.
Defined.

Lemma assignment_then_variable_witness :
  run "&x1:42!x1" empty_world = (Return (VInt 42), empty_world).
Proof.
  apply (assignment_then_variable no_host_str no_host_call (list_ascii_of_string "x1")
           (list_ascii_of_string "42") empty_world);
    first [discriminate | reflexivity | apply Nat.leb_le; reflexivity].
Defined.

End FurtherInstances.
